(** * Quota providers: a shallow embedding of
      [packages/web/server/lib/quota-providers.js]

    The module aggregates usage quotas of nine AI-service providers.  The
    development below follows the JavaScript source function by function:
    JavaScript values are an inductive type, numbers are an idealised
    [number] type, asynchronous code runs in a small state-and-exception
    monad whose state is the trace of HTTP requests issued so far. *)

From Stdlib Require Import ZArith QArith Qround Qabs String Ascii List Bool.
From Stdlib Require Import Lia Lqa.
From Stdlib Require Import DecimalString.
Import ListNotations.

Set Warnings "-register-all".

(** ** JavaScript numbers

    A JavaScript number is [NaN], an infinity or a finite value.  Finite
    values are kept as exact rationals: rounding of IEEE doubles is not
    modelled and [-0] is identified with [0] (the source never divides by
    a zero, see [addWindow] and its siblings).  Every concrete number used
    in the examples of this file is a small integer, on which double
    arithmetic is exact. *)

Inductive number : Type :=
| NaN
| Infinity (negative : bool)
| Finite (q : Q).

Module Num.

Definition isFinite (n : number) : bool :=
  match n with Finite _ => true | _ => false end.

Definition isNaN (n : number) : bool :=
  match n with NaN => true | _ => false end.

Definition is_zero (q : Q) : bool := Qeq_bool q 0.
Definition is_neg (q : Q) : bool := negb (Qle_bool 0 q).

(** [a < b] of JavaScript: false as soon as one side is [NaN]. *)
Definition lt (a b : number) : bool :=
  match a, b with
  | NaN, _ | _, NaN => false
  | Infinity true, Infinity true => false
  | Infinity true, _ => true
  | _, Infinity true => false
  | Infinity false, _ => false
  | _, Infinity false => true
  | Finite x, Finite y => negb (Qle_bool y x)
  end.

Definition le (a b : number) : bool :=
  match a, b with
  | NaN, _ | _, NaN => false
  | Infinity true, _ => true
  | _, Infinity false => true
  | Infinity false, _ => false
  | _, Infinity true => false
  | Finite x, Finite y => Qle_bool x y
  end.

Definition gt (a b : number) : bool := lt b a.

(** [a === b] on numbers. *)
Definition eqb (a b : number) : bool :=
  match a, b with
  | Finite x, Finite y => Qeq_bool x y
  | Infinity s, Infinity t => Bool.eqb s t
  | _, _ => false
  end.

Definition neg (a : number) : number :=
  match a with
  | NaN => NaN
  | Infinity s => Infinity (negb s)
  | Finite x => Finite (- x)
  end.

Definition add (a b : number) : number :=
  match a, b with
  | NaN, _ | _, NaN => NaN
  | Infinity s, Infinity t => if Bool.eqb s t then Infinity s else NaN
  | Infinity s, Finite _ => Infinity s
  | Finite _, Infinity t => Infinity t
  | Finite x, Finite y => Finite (x + y)
  end.

Definition sub (a b : number) : number :=
  match a, b with
  | NaN, _ | _, NaN => NaN
  | Infinity s, Infinity t => if Bool.eqb s t then NaN else Infinity s
  | Infinity s, Finite _ => Infinity s
  | Finite _, Infinity t => Infinity (negb t)
  | Finite x, Finite y => Finite (x - y)
  end.

Definition mul (a b : number) : number :=
  match a, b with
  | NaN, _ | _, NaN => NaN
  | Infinity s, Infinity t => Infinity (xorb s t)
  | Infinity s, Finite y =>
      if is_zero y then NaN else Infinity (xorb s (is_neg y))
  | Finite x, Infinity t =>
      if is_zero x then NaN else Infinity (xorb (is_neg x) t)
  | Finite x, Finite y => Finite (x * y)
  end.

Definition div (a b : number) : number :=
  match a, b with
  | NaN, _ | _, NaN => NaN
  | Infinity _, Infinity _ => NaN
  | Infinity s, Finite y => Infinity (xorb s (is_neg y))
  | Finite _, Infinity _ => Finite 0
  | Finite x, Finite y =>
      if is_zero y
      then (if is_zero x then NaN else Infinity (is_neg x))
      else Finite (x / y)
  end.

(** [a % b]: the remainder has the sign of the dividend. *)
Definition rem (a b : number) : number :=
  match a, b with
  | NaN, _ | _, NaN => NaN
  | Infinity _, _ => NaN
  | Finite x, Infinity _ => Finite x
  | Finite x, Finite y =>
      if is_zero y then NaN
      else
        let k := Qabs x / Qabs y in
        let r := Qabs x - inject_Z (Qfloor k) * Qabs y in
        Finite (if is_neg x then - r else r)
  end.

(** [Math.max(a, b)] and [Math.min(a, b)]: [NaN] is contagious. *)
Definition max (a b : number) : number :=
  match a, b with
  | NaN, _ | _, NaN => NaN
  | _, _ => if lt a b then b else a
  end.

Definition min (a b : number) : number :=
  match a, b with
  | NaN, _ | _, NaN => NaN
  | _, _ => if lt b a then b else a
  end.

(** [Math.floor] and [Math.round] (ties go up). *)
Definition floor (a : number) : number :=
  match a with
  | Finite x => Finite (inject_Z (Qfloor x))
  | _ => a
  end.

Definition round (a : number) : number :=
  match a with
  | Finite x => Finite (inject_Z (Qfloor (x + (1 # 2))))
  | _ => a
  end.

Definition of_Z (z : Z) : number := Finite (inject_Z z).

(** Truthiness of a number: [0] and [NaN] are falsy. *)
Definition truthy (a : number) : bool :=
  match a with
  | NaN => false
  | Infinity _ => true
  | Finite x => negb (is_zero x)
  end.

End Num.

Declare Scope num_scope.
Delimit Scope num_scope with num.
Bind Scope num_scope with number.
Notation "a - b" := (Num.sub a b) : num_scope.
Notation "a + b" := (Num.add a b) : num_scope.
Notation "a * b" := (Num.mul a b) : num_scope.
Notation "a / b" := (Num.div a b) : num_scope.
Notation "a <? b" := (Num.lt a b) : num_scope.
Notation "a >? b" := (Num.gt a b) : num_scope.
Notation "a =? b" := (Num.eqb a b) : num_scope.

Definition num (z : Z) : number := Num.of_Z z.

(** ** JavaScript values *)

Inductive JsValue : Type :=
| JUndefined
| JNull
| JBool (b : bool)
| JNum (n : number)
| JStr (s : string)
| JArr (items : list JsValue)
| JObj (fields : list (string * JsValue)).

Inductive JsType : Type :=
| TUndefined | TBoolean | TNumber | TString | TObject.

Definition typeof (v : JsValue) : JsType :=
  match v with
  | JUndefined => TUndefined
  | JNull => TObject
  | JBool _ => TBoolean
  | JNum _ => TNumber
  | JStr _ => TString
  | JArr _ => TObject
  | JObj _ => TObject
  end.

Definition is_object_type (v : JsValue) : bool :=
  match typeof v with TObject => true | _ => false end.

Definition str_nonempty (s : string) : bool :=
  match s with EmptyString => false | _ => true end.

(** [ToBoolean]: what [if (v)], [!v], [a || b] and [a && b] test. *)
Definition truthy (v : JsValue) : bool :=
  match v with
  | JUndefined | JNull => false
  | JBool b => b
  | JNum n => Num.truthy n
  | JStr s => str_nonempty s
  | JArr _ | JObj _ => true
  end.

Definition nullish (v : JsValue) : bool :=
  match v with
  | JUndefined | JNull => true
  | _ => false
  end.

(** [a || b] and [a ?? b]. *)
Definition js_or (a b : JsValue) : JsValue := if truthy a then a else b.
Definition js_coalesce (a b : JsValue) : JsValue := if nullish a then b else a.

Fixpoint assoc {V : Type} (k : string) (l : list (string * V)) : option V :=
  match l with
  | [] => None
  | (k', v) :: rest => if String.eqb k k' then Some v else assoc k rest
  end.

(** [v?.k]: property read with optional chaining.  The keys read by the
    source are fixed field names, none of which is a property of the
    built-in prototypes, an array index or ["length"]; so only own
    properties of plain objects answer. *)
Definition get (v : JsValue) (k : string) : JsValue :=
  match v with
  | JObj fields =>
      match assoc k fields with
      | Some x => x
      | None => JUndefined
      end
  | _ => JUndefined
  end.

(** A JavaScript object built by assignments [o[k] = v]: an existing key
    keeps its place, a new key goes last. *)
Fixpoint obj_set {V : Type} (o : list (string * V)) (k : string) (v : V)
  : list (string * V) :=
  match o with
  | [] => [(k, v)]
  | (k', v') :: rest =>
      if String.eqb k k' then (k', v) :: rest else (k', v') :: obj_set rest k v
  end.

Definition obj_keys {V : Type} (o : list (string * V)) : list string :=
  map fst o.

(** ** Strings *)

Module Str.

Local Open Scope string_scope.

(** White space removed by [String.prototype.trim] (the ASCII part of
    the WhiteSpace and LineTerminator productions). *)
Definition is_space (c : ascii) : bool :=
  let n := nat_of_ascii c in
  (Nat.eqb n 32 || (Nat.leb 9 n && Nat.leb n 13))%bool.

Fixpoint trim_start (s : string) : string :=
  match s with
  | String c rest => if is_space c then trim_start rest else s
  | EmptyString => EmptyString
  end.

(** Drops trailing white space, scanning from the right. *)
Fixpoint trim_end (s : string) : string :=
  match s with
  | EmptyString => EmptyString
  | String c rest =>
      match trim_end rest with
      | EmptyString => if is_space c then EmptyString else String c EmptyString
      | kept => String c kept
      end
  end.

Definition trim (s : string) : string := trim_end (trim_start s).

(** [s.split(sep)] for a one-character separator; never empty. *)
Fixpoint split (sep : ascii) (s : string) : list string :=
  match s with
  | EmptyString => [EmptyString]
  | String c rest =>
      if Ascii.eqb c sep then EmptyString :: split sep rest
      else
        match split sep rest with
        | [] => [String c EmptyString]
        | piece :: pieces => String c piece :: pieces
        end
  end.

Definition startsWith (s p : string) : bool := String.prefix p s.

(** Decimal digits of an integer, as [String(n)] prints it. *)
Definition of_N (n : N) : string := NilZero.string_of_uint (N.to_uint n).

Definition of_Z (z : Z) : string :=
  match z with
  | Zneg p => "-" ++ of_N (Npos p)
  | _ => of_N (Z.to_N z)
  end.

Fixpoint zeros (k : nat) : string :=
  match k with
  | O => EmptyString
  | S k' => String "0"%char (zeros k')
  end.

(** [take k s] and [drop k s]: the first [k] characters and the rest. *)
Fixpoint take (k : nat) (s : string) : string :=
  match k, s with
  | S k', String c rest => String c (take k' rest)
  | _, _ => EmptyString
  end.

Fixpoint drop (k : nat) (s : string) : string :=
  match k, s with
  | S k', String _ rest => drop k' rest
  | _, _ => s
  end.

End Str.

(** ** The environment of one call

    Everything the module reads from outside: the clock, the built-in
    conversions that are not modelled (date parsing and formatting, number
    parsing and printing), the credential store returned by
    [readAuthFile()], the JSON documents found at
    [ANTIGRAVITY_ACCOUNTS_PATHS] and the network. *)

Inductive Thrown : Type :=
| ErrorObject (message : string)
| ThrownValue (v : JsValue).

Inductive Completion (A : Type) : Type :=
| Normal (a : A)
| Abrupt (e : Thrown).

Arguments Normal {A} a.
Arguments Abrupt {A} e.

Inductive RequestBody : Type :=
| NoBody
| JsonBody (v : JsValue)
| FormBody (params : list (string * string)).

Record Request : Type := mkRequest {
  req_url : string;
  req_method : string;
  req_headers : list (string * string);
  req_body : RequestBody;
  req_timeout : option Z
}.

(** A [Response]: [ok] is derived from the status as the Fetch standard
    defines it; [json()] either yields the parsed body or throws. *)
Record Response : Type := mkResponse {
  resp_status : Z;
  resp_json : Completion JsValue
}.

Definition resp_ok (r : Response) : bool :=
  ((200 <=? resp_status r) && (resp_status r <=? 299))%Z.

Definition Trace : Type := list Request.

Record Env : Type := mkEnv {
  (** [Date.now()], read as one instant for the whole call. *)
  now : Q;
  (** [Date.parse(s)]. *)
  Date_parse : string -> number;
  (** [new Date(v).getTime()]. *)
  Date_getTime : JsValue -> number;
  (** The two [toLocale...String] renderings of [formatResetTime]; [None]
      when the rendering throws. *)
  formatLocale : number -> option string;
  (** [Number(s)] on a string. *)
  Number_ofString : string -> number;
  (** [ToNumber] on an array or an object. *)
  ToNumber_object : JsValue -> number;
  (** [String(v)] on a fractional or very large number, an array or an
      object. *)
  String_other : JsValue -> string;
  (** The value returned by [readAuthFile()]. *)
  authFile : JsValue;
  (** [readJsonFile(p)] for each [p] of [ANTIGRAVITY_ACCOUNTS_PATHS]. *)
  antigravityFiles : list JsValue;
  (** The outcome of [fetch(request)], given the requests made before. *)
  network : Trace -> Request -> Completion Response
}.

(** ** The normalized data model *)

Record UsageWindow : Type := mkUsageWindow {
  usedPercent : option number;
  remainingPercent : option number;
  windowSeconds : option number;
  resetAfterSeconds : option number;
  resetAt : option number;
  resetAtFormatted : option string;
  resetAfterFormatted : option string;
  (** [None]: the window has no [valueLabel] property. *)
  valueLabel : option string
}.

Definition Windows : Type := list (string * UsageWindow).

Record ModelUsage : Type := mkModelUsage { model_windows : Windows }.

Record Usage : Type := mkUsage {
  windows : Windows;
  models : option (list (string * ModelUsage))
}.

Record ProviderResult : Type := mkProviderResult {
  providerId : string;
  providerName : string;
  ok : bool;
  configured : bool;
  usage : option Usage;
  (** [None]: the result has no [error] property. *)
  error : option string;
  fetchedAt : number
}.

Definition opt_truthy_num (o : option number) : bool :=
  match o with Some n => Num.truthy n | None => false end.

Definition opt_or {A : Type} (a b : option A) : option A :=
  match a with Some _ => a | None => b end.

Definition js_str_eq (v : JsValue) (s : string) : bool :=
  match v with JStr t => String.eqb t s | _ => false end.

Section Helpers.

Variable env : Env.

Local Open Scope string_scope.

(** [String(v)], as template literals and property keys apply it.
    Integers below [10^21] print their decimal digits; the other
    finite numbers, arrays and objects are left to [String_other]. *)
Definition ToString (v : JsValue) : string :=
  match v with
  | JUndefined => "undefined"
  | JNull => "null"
  | JBool b => if b then "true" else "false"
  | JStr s => s
  | JNum NaN => "NaN"
  | JNum (Infinity s) => if s then "-Infinity" else "Infinity"
  | JNum (Finite q) =>
      if Qeq_bool (inject_Z (Qfloor q)) q
         && negb (Qle_bool (inject_Z (10 ^ 21)) (Qabs q))
      then Str.of_Z (Qfloor q)
      else String_other env v
  | JArr _ | JObj _ => String_other env v
  end.

(** [ToNumber], as the arithmetic operators apply it. *)
Definition ToNumber (v : JsValue) : number :=
  match v with
  | JUndefined => NaN
  | JNull => num 0
  | JBool b => if b then num 1 else num 0
  | JNum n => n
  | JStr s => Number_ofString env s
  | JArr _ | JObj _ => ToNumber_object env v
  end.

(** [x.toFixed(digits)] on a number: below [10^21] the value is rounded
    to [digits] decimals (ties away from zero) and printed in full. *)
Definition toFixed (digits : nat) (x : number) : string :=
  match x with
  | Finite q =>
      if Qle_bool (inject_Z (10 ^ 21)) (Qabs q) then ToString (JNum x)
      else
        let n := Qfloor (Qabs q * inject_Z (10 ^ Z.of_nat digits) + (1 # 2)) in
        let m := Str.of_Z n in
        let body :=
          match digits with
          | O => m
          | _ =>
              let m' :=
                if Nat.leb (String.length m) digits
                then Str.zeros (digits + 1 - String.length m) ++ m
                else m in
              let k := (String.length m' - digits)%nat in
              Str.take k m' ++ "." ++ Str.drop k m'
          end in
        if Num.is_neg q then "-" ++ body else body
  | _ => ToString (JNum x)
  end.

(** Lines 30-37. *)
Fixpoint getAuthEntry (auth : JsValue) (aliases : list string) : JsValue :=
  match aliases with
  | [] => JNull
  | alias :: rest =>
      if truthy (get auth alias) then get auth alias
      else getAuthEntry auth rest
  end.

(** Lines 39-48. *)
Definition normalizeAuthEntry (entry : JsValue) : JsValue :=
  if negb (truthy entry) then JNull
  else
    match typeof entry with
    | TString => JObj [("token", entry)]
    | TObject => entry
    | _ => JNull
    end.

(** Line 50. *)
Definition asObject (value : JsValue) : JsValue :=
  if truthy value && is_object_type value then value else JNull.

(** Lines 52-56. *)
Definition asNonEmptyString (value : JsValue) : option string :=
  match value with
  | JStr s =>
      let trimmed := Str.trim s in
      if str_nonempty trimmed then Some trimmed else None
  | _ => None
  end.

Record RefreshParts : Type := mkRefreshParts {
  rp_refreshToken : option string;
  rp_projectId : option string;
  rp_managedProjectId : option string
}.

(** Lines 58-70. *)
Definition parseGoogleRefreshToken (rawRefreshToken : JsValue) : RefreshParts :=
  match asNonEmptyString rawRefreshToken with
  | None => mkRefreshParts None None None
  | Some refreshToken =>
      let parts := Str.split "|"%char refreshToken in
      let rawToken := nth 0 parts EmptyString in
      let rawProject := nth 1 parts EmptyString in
      let rawManagedProject := nth 2 parts EmptyString in
      mkRefreshParts (asNonEmptyString (JStr rawToken))
                     (asNonEmptyString (JStr rawProject))
                     (asNonEmptyString (JStr rawManagedProject))
  end.

(** Lines 72-81. *)
Definition toNumber (value : JsValue) : option number :=
  match value with
  | JNum n => if Num.isFinite n then Some n else None
  | JStr s =>
      let parsed := Number_ofString env s in
      if Num.isFinite parsed then Some parsed else None
  | _ => None
  end.

(** Lines 83-93. *)
Definition toTimestamp (value : JsValue) : option number :=
  if negb (truthy value) then None
  else
    match value with
    | JNum n =>
        Some (if (n <? num 1000000000000)%num then (n * num 1000)%num else n)
    | JStr s =>
        let parsed := Date_parse env s in
        if Num.isNaN parsed then None else Some parsed
    | _ => None
    end.

(** Lines 95-120: the renderings depend on the locale and the time
    zone; the [try] turns a throw into [null]. *)
Definition formatResetTime (timestamp : number) : option string :=
  formatLocale env timestamp.

(** Lines 122-126. *)
Definition calculateResetAfterSeconds (resetAt : option number)
  : option number :=
  match resetAt with
  | Some r =>
      if negb (Num.truthy r) then None
      else
        let delta := Num.floor ((r - Finite (now env)) / num 1000)%num in
        Some (if (delta <? num 0)%num then num 0 else delta)
  | None => None
  end.

(** Lines 128-141.  [valueLabel] is [None] for [null] and [undefined]. *)
Definition toUsageWindow (usedPercent windowSeconds resetAt : option number)
           (valueLabel : option string) : UsageWindow :=
  let resetAfterSeconds := calculateResetAfterSeconds resetAt in
  let resetFormatted :=
    match resetAt with
    | Some r => if Num.truthy r then formatResetTime r else None
    | None => None
    end in
  {| usedPercent := usedPercent;
     remainingPercent :=
       match usedPercent with
       | Some u => Some (Num.max (num 0) (num 100 - u)%num)
       | None => None
       end;
     windowSeconds := windowSeconds;
     resetAfterSeconds := resetAfterSeconds;
     resetAt := resetAt;
     resetAtFormatted := resetFormatted;
     resetAfterFormatted := resetFormatted;
     valueLabel :=
       match valueLabel with
       | Some l => if str_nonempty l then Some l else None
       | None => None
       end |}.

(** Lines 143-151.  [error] is [None] when the caller passes none. *)
Definition buildResult (providerId providerName : string)
           (ok configured : bool) (usage : option Usage)
           (error : option string) : ProviderResult :=
  {| providerId := providerId;
     providerName := providerName;
     ok := ok;
     configured := configured;
     usage := usage;
     error :=
       match error with
       | Some e => if str_nonempty e then Some e else None
       | None => None
       end;
     fetchedAt := Finite (now env) |}.

(** Lines 153-159. *)
Definition durationToLabel (duration unit : JsValue) : string :=
  if negb (truthy duration) || negb (truthy unit) then "limit"
  else if js_str_eq unit "TIME_UNIT_MINUTE" then ToString duration ++ "m"
  else if js_str_eq unit "TIME_UNIT_HOUR" then ToString duration ++ "h"
  else if js_str_eq unit "TIME_UNIT_DAY" then ToString duration ++ "d"
  else "limit".

(** Lines 161-167. *)
Definition durationToSeconds (duration unit : JsValue) : option number :=
  if negb (truthy duration) || negb (truthy unit) then None
  else if js_str_eq unit "TIME_UNIT_MINUTE"
       then Some (ToNumber duration * num 60)%num
  else if js_str_eq unit "TIME_UNIT_HOUR"
       then Some (ToNumber duration * num 3600)%num
  else if js_str_eq unit "TIME_UNIT_DAY"
       then Some (ToNumber duration * num 86400)%num
  else None.

(** Lines 621-624. *)
Definition formatMoney (value : number) : option string :=
  if Num.isFinite value then Some (toFixed 2 value) else None.

End Helpers.

(** ** Asynchronous code

    An [async] function is a computation over the trace of requests made
    so far: it ends normally (the promise resolves) or abruptly (the
    promise rejects), and leaves the extended trace. *)

Definition Async (A : Type) : Type := Trace -> Completion A * Trace.

Definition ret {A : Type} (a : A) : Async A := fun t => (Normal a, t).

Definition bind {A B : Type} (m : Async A) (k : A -> Async B) : Async B :=
  fun t =>
    match m t with
    | (Normal a, t') => k a t'
    | (Abrupt e, t') => (Abrupt e, t')
    end.

(** [try { body } catch (e) { handler }]. *)
Definition try_catch {A : Type} (body : Async A) (handler : Thrown -> Async A)
  : Async A :=
  fun t =>
    match body t with
    | (Normal a, t') => (Normal a, t')
    | (Abrupt e, t') => handler e t'
    end.

Declare Scope async_scope.
Delimit Scope async_scope with async.
Notation "'await' x <- m ;; k" := (bind m (fun x => k))
  (at level 10, x name, m at level 100, k at level 200) : async_scope.

(** [await fetch(request)]. *)
Definition fetch (env : Env) (r : Request) : Async Response :=
  fun t => (network env t r, t ++ [r]).

(** [await response.json()]. *)
Definition json (r : Response) : Async JsValue :=
  fun t => (resp_json r, t).

(** [error instanceof Error ? error.message : 'Request failed']. *)
Definition errorMessage (e : Thrown) : string :=
  match e with
  | ErrorObject message => message
  | ThrownValue _ => "Request failed"
  end.

(** [Array.isArray(v) ? v : []]. *)
Definition arrayOrEmpty (v : JsValue) : list JsValue :=
  match v with JArr items => items | _ => [] end.

(** [items[index]] for a number [index]. *)
Definition array_at (items : list JsValue) (index : number) : JsValue :=
  match index with
  | Finite q =>
      if Qeq_bool (inject_Z (Qfloor q)) q && (0 <=? Qfloor q)%Z
      then nth (Z.to_nat (Qfloor q)) items JUndefined
      else JUndefined
  | _ => JUndefined
  end.

Fixpoint indexed_from {A : Type} (i : N) (l : list A) : list (string * A) :=
  match l with
  | [] => []
  | x :: rest => (Str.of_N i, x) :: indexed_from (N.succ i) rest
  end.

Fixpoint chars (s : string) : list JsValue :=
  match s with
  | EmptyString => []
  | String c rest => JStr (String c EmptyString) :: chars rest
  end.

(** [Object.entries(v)] for a value that is neither [null] nor
    [undefined]; the properties come in the order of the list. *)
Definition Object_entries (v : JsValue) : list (string * JsValue) :=
  match v with
  | JObj fields => fields
  | JArr items => indexed_from 0%N items
  | JStr s => indexed_from 0%N (chars s)
  | _ => []
  end.

(** ** Google: auth sources, token refresh and endpoints *)

Record AuthSource : Type := mkAuthSource {
  sourceId : string;
  sourceLabel : string;
  accessToken : option string;
  refreshToken : option string;
  projectId : option string;
  expires : option number;
  email : JsValue
}.

Record GoogleWindow : Type := mkGoogleWindow {
  gw_label : string;
  gw_seconds : number
}.

Module Const.
Local Open Scope string_scope.

Definition ANTIGRAVITY_GOOGLE_CLIENT_ID :=
  "1071006060591-tmhssin2h21lcre235vtolojh4g403ep.apps.googleusercontent.com".
Definition ANTIGRAVITY_GOOGLE_CLIENT_SECRET := "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".
Definition GEMINI_GOOGLE_CLIENT_ID :=
  "681255809395-oo8ft2oprdrnp9e3aqf6av3hmdib135j.apps.googleusercontent.com".
Definition GEMINI_GOOGLE_CLIENT_SECRET := "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".
Definition DEFAULT_PROJECT_ID := "rising-fact-p41fc".
Definition GOOGLE_FIVE_HOUR_WINDOW_SECONDS : number := num (5 * 60 * 60).
Definition GOOGLE_DAILY_WINDOW_SECONDS : number := num (24 * 60 * 60).
Definition GOOGLE_PRIMARY_ENDPOINT := "https://cloudcode-pa.googleapis.com".

Definition GOOGLE_ENDPOINTS : list string :=
  [ "https://daily-cloudcode-pa.sandbox.googleapis.com";
    "https://autopush-cloudcode-pa.sandbox.googleapis.com";
    GOOGLE_PRIMARY_ENDPOINT ].

(** [quoted s] is [s] between two double quotes. *)
Definition quoted (s : string) : string :=
  String (ascii_of_nat 34) (s ++ String (ascii_of_nat 34) EmptyString).

Definition GOOGLE_HEADERS : list (string * string) :=
  [ ("User-Agent", "antigravity/1.11.5 windows/amd64");
    ("X-Goog-Api-Client", "google-cloud-sdk vscode_cloudshelleditor/0.1");
    ("Client-Metadata",
     "{" ++ quoted "ideType" ++ ":" ++ quoted "IDE_UNSPECIFIED" ++ ","
         ++ quoted "platform" ++ ":" ++ quoted "PLATFORM_UNSPECIFIED" ++ ","
         ++ quoted "pluginType" ++ ":" ++ quoted "GEMINI" ++ "}") ].

Definition NANO_GPT_DAILY_WINDOW_SECONDS : number := num 86400.
End Const.

Section Google.

Variable env : Env.

Local Open Scope string_scope.
Local Open Scope async_scope.

(** Lines 321-339. *)
Definition resolveGoogleWindow (sourceId : string) (resetAt : option number)
  : GoogleWindow :=
  if String.eqb sourceId "gemini"
  then mkGoogleWindow "daily" Const.GOOGLE_DAILY_WINDOW_SECONDS
  else if String.eqb sourceId "antigravity" then
    let remainingSeconds :=
      match resetAt with
      | Some r =>
          Some (Num.max (num 0)
                  (Num.round ((r - Finite (now env)) / num 1000)%num))
      | None => None
      end in
    match remainingSeconds with
    | Some rs =>
        if (rs >? num (10 * 60 * 60))%num
        then mkGoogleWindow "daily" Const.GOOGLE_DAILY_WINDOW_SECONDS
        else mkGoogleWindow "5h" Const.GOOGLE_FIVE_HOUR_WINDOW_SECONDS
    | None => mkGoogleWindow "5h" Const.GOOGLE_FIVE_HOUR_WINDOW_SECONDS
    end
  else mkGoogleWindow "daily" Const.GOOGLE_DAILY_WINDOW_SECONDS.

(** Lines 341-364. *)
Definition resolveGeminiCliAuth (auth : JsValue) : option AuthSource :=
  let entry := normalizeAuthEntry (getAuthEntry auth ["google"; "google.oauth"]) in
  let entryObject := asObject entry in
  if negb (truthy entryObject) then None
  else
    let oauthObject := js_coalesce (asObject (get entryObject "oauth")) entryObject in
    let accessToken :=
      opt_or (asNonEmptyString (get oauthObject "access"))
             (asNonEmptyString (get oauthObject "token")) in
    let refreshParts := parseGoogleRefreshToken (get oauthObject "refresh") in
    match accessToken, rp_refreshToken refreshParts with
    | None, None => None
    | _, _ =>
        Some {| sourceId := "gemini";
                sourceLabel := "Gemini";
                accessToken := accessToken;
                refreshToken := rp_refreshToken refreshParts;
                projectId := opt_or (rp_projectId refreshParts)
                                    (rp_managedProjectId refreshParts);
                expires := toTimestamp env (get oauthObject "expires");
                email := JUndefined |}
    end.

(** Lines 366-390, over the documents read from the two paths. *)
Fixpoint resolveAntigravityAuthFrom (files : list JsValue) : option AuthSource :=
  match files with
  | [] => None
  | data :: rest =>
      match get data "accounts" with
      | JArr (first :: others) =>
          let accounts := first :: others in
          let index :=
            match get data "activeIndex" with
            | JNum n => n
            | _ => num 0
            end in
          let account := js_coalesce (array_at accounts index) first in
          if truthy (get account "refreshToken") then
            let refreshParts := parseGoogleRefreshToken (get account "refreshToken") in
            Some {| sourceId := "antigravity";
                    sourceLabel := "Antigravity";
                    accessToken := None;
                    refreshToken := rp_refreshToken refreshParts;
                    projectId :=
                      opt_or (asNonEmptyString (get account "projectId"))
                        (opt_or (asNonEmptyString (get account "managedProjectId"))
                           (opt_or (rp_projectId refreshParts)
                                   (rp_managedProjectId refreshParts)));
                    expires := None;
                    email := get account "email" |}
          else resolveAntigravityAuthFrom rest
      | _ => resolveAntigravityAuthFrom rest
      end
  end.

Definition resolveAntigravityAuth : option AuthSource :=
  resolveAntigravityAuthFrom (antigravityFiles env).

Definition opt_to_list {A : Type} (o : option A) : list A :=
  match o with Some a => [a] | None => [] end.

(** Lines 392-407. *)
Definition resolveGoogleAuthSources : list AuthSource :=
  opt_to_list (resolveGeminiCliAuth (authFile env))
  ++ opt_to_list resolveAntigravityAuth.

(** Lines 409-421. *)
Definition resolveGoogleOAuthClient (sourceId : string) : string * string :=
  if String.eqb sourceId "gemini"
  then (Const.GEMINI_GOOGLE_CLIENT_ID, Const.GEMINI_GOOGLE_CLIENT_SECRET)
  else (Const.ANTIGRAVITY_GOOGLE_CLIENT_ID, Const.ANTIGRAVITY_GOOGLE_CLIENT_SECRET).

Definition refreshRequest (refreshToken clientId clientSecret : string) : Request :=
  {| req_url := "https://oauth2.googleapis.com/token";
     req_method := "POST";
     req_headers := [("Content-Type", "application/x-www-form-urlencoded")];
     req_body := FormBody [ ("client_id", clientId);
                            ("client_secret", clientSecret);
                            ("refresh_token", refreshToken);
                            ("grant_type", "refresh_token") ];
     req_timeout := None |}.

(** Lines 423-441: no [try] here, a throw of [fetch] or of [json()]
    leaves the function. *)
Definition refreshGoogleAccessToken (refreshToken clientId clientSecret : string)
  : Async (option string) :=
  await response <- fetch env (refreshRequest refreshToken clientId clientSecret) ;;
  if negb (resp_ok response) then ret None
  else
    await data <- json response ;;
    ret (match get data "access_token" with
         | JStr token => Some token
         | _ => None
         end).

Definition projectBody (projectId : string) : RequestBody :=
  JsonBody (if str_nonempty projectId
            then JObj [("project", JStr projectId)]
            else JObj []).

Definition quotaBucketsRequest (accessToken projectId : string) : Request :=
  {| req_url := Const.GOOGLE_PRIMARY_ENDPOINT ++ "/v1internal:retrieveUserQuota";
     req_method := "POST";
     req_headers := [ ("Authorization", "Bearer " ++ accessToken);
                      ("Content-Type", "application/json") ];
     req_body := projectBody projectId;
     req_timeout := Some 15000%Z |}.

(** Lines 443-465. *)
Definition fetchGoogleQuotaBuckets (accessToken projectId : string)
  : Async JsValue :=
  try_catch
    (await response <- fetch env (quotaBucketsRequest accessToken projectId) ;;
     if negb (resp_ok response) then ret JNull
     else json response)
    (fun _ => ret JNull).

Definition modelsRequest (endpoint accessToken projectId : string) : Request :=
  {| req_url := endpoint ++ "/v1internal:fetchAvailableModels";
     req_method := "POST";
     req_headers := app [ ("Authorization", "Bearer " ++ accessToken);
                          ("Content-Type", "application/json") ]
                        Const.GOOGLE_HEADERS;
     req_body := projectBody projectId;
     req_timeout := Some 15000%Z |}.

(** Lines 471-488, one turn of the loop: [Some body] when the turn
    returns from the function, [None] when the loop goes on (a response
    that is not [ok] falls out of the [try] block, a throw of [fetch] or
    of [json()] does [continue]). *)
Definition tryGoogleEndpoint (endpoint accessToken projectId : string)
  : Async (option JsValue) :=
  try_catch
    (await response <- fetch env (modelsRequest endpoint accessToken projectId) ;;
     if resp_ok response
     then await body <- json response ;; ret (Some body)
     else ret None)
    (fun _ => ret None).

(** Lines 470-491: the loop over the endpoints still to try. *)
Fixpoint fetchGoogleModelsFrom (endpoints : list string)
         (accessToken projectId : string) : Async JsValue :=
  match endpoints with
  | [] => ret JNull
  | endpoint :: rest =>
      await turn <- tryGoogleEndpoint endpoint accessToken projectId ;;
      match turn with
      | Some body => ret body
      | None => fetchGoogleModelsFrom rest accessToken projectId
      end
  end.

(** Lines 467-492. *)
Definition fetchGoogleModels (accessToken projectId : string) : Async JsValue :=
  fetchGoogleModelsFrom Const.GOOGLE_ENDPOINTS accessToken projectId.

Definition ModelMap : Type := list (string * ModelUsage).

(** [array.push(x)]. *)
Definition push {A : Type} (l : list A) (x : A) : list A := (l ++ [x])%list.

Definition scopedName (sourceId name : string) : string :=
  if Str.startsWith name (sourceId ++ "/") then name
  else sourceId ++ "/" ++ name.

Definition usedFromRemainingFraction (remainingFraction : option number)
  : option number :=
  match remainingFraction with
  | Some f =>
      let remainingPercent := Num.round (f * num 100)%num in
      Some (Num.max (num 0) (num 100 - remainingPercent)%num)
  | None => None
  end.

Definition modelEntry (sourceId : string) (usedPercent resetAt : option number)
  : ModelUsage :=
  let window := resolveGoogleWindow sourceId resetAt in
  mkModelUsage
    [ (gw_label window,
       toUsageWindow env usedPercent (Some (gw_seconds window)) resetAt None) ].

(** Lines 534-562: one quota bucket merged into [models]; the boolean
    is [mergedAnyModel]. *)
Definition mergeBucket (sourceId : string) (acc : ModelMap * bool)
           (bucket : JsValue) : ModelMap * bool :=
  match asNonEmptyString (get bucket "modelId") with
  | None => acc
  | Some modelId =>
      let usedPercent :=
        usedFromRemainingFraction (toNumber env (get bucket "remainingFraction")) in
      let resetAt := toTimestamp env (get bucket "resetTime") in
      (obj_set (fst acc) (scopedName sourceId modelId)
               (modelEntry sourceId usedPercent resetAt),
       true)
  end.

(** Lines 567-591: one entry of [payload.models] merged into [models]. *)
Definition mergeModel (sourceId : string) (acc : ModelMap * bool)
           (entry : string * JsValue) : ModelMap * bool :=
  let (modelName, modelData) := entry in
  let quotaInfo := get modelData "quotaInfo" in
  let usedPercent :=
    usedFromRemainingFraction
      (match get quotaInfo "remainingFraction" with
       | JNum f => Some f
       | _ => None
       end) in
  let resetAt :=
    if truthy (get quotaInfo "resetTime")
    then Some (Date_getTime env (get quotaInfo "resetTime"))
    else None in
  (obj_set (fst acc) (scopedName sourceId modelName)
           (modelEntry sourceId usedPercent resetAt),
   true).

Definition opt_str_truthy (o : option string) : bool :=
  match o with Some s => str_nonempty s | None => false end.

Definition expired (source : AuthSource) : bool :=
  match expires source with
  | Some e => Num.le e (Finite (now env))
  | None => false
  end.

Definition GoogleState : Type := ModelMap * list string.

(** Lines 527-596: the body of the loop once an access token is held. *)
Definition queryGoogleSource (source : AuthSource) (token : string)
           (st : GoogleState) : Async GoogleState :=
  let (models, sourceErrors) := st in
  let projectId :=
    match projectId source with
    | Some p => p
    | None => Const.DEFAULT_PROJECT_ID
    end in
  await afterBuckets <-
    (if String.eqb (sourceId source) "gemini" then
       await quotaPayload <- fetchGoogleQuotaBuckets token projectId ;;
       ret (fold_left (mergeBucket (sourceId source))
                      (arrayOrEmpty (get quotaPayload "buckets"))
                      (models, false))
     else ret (models, false)) ;;
  await payload <- fetchGoogleModels token projectId ;;
  let afterModels :=
    if truthy payload
    then fold_left (mergeModel (sourceId source))
                   (Object_entries
                      (js_coalesce (get payload "models") (JObj [])))
                   afterBuckets
    else afterBuckets in
  ret (fst afterModels,
       if snd afterModels then sourceErrors
       else push sourceErrors (sourceLabel source ++ ": Failed to fetch models")).

(** Lines 510-525 and on: one source of the loop. *)
Definition googleSourceStep (source : AuthSource) (st : GoogleState)
  : Async GoogleState :=
  let (models, sourceErrors) := st in
  if negb (opt_str_truthy (accessToken source)) || expired source then
    if negb (opt_str_truthy (refreshToken source)) then
      ret (models,
           push sourceErrors (sourceLabel source ++ ": Missing refresh token"))
    else
      let (clientId, clientSecret) := resolveGoogleOAuthClient (sourceId source) in
      await refreshed <-
        refreshGoogleAccessToken
          (match refreshToken source with Some r => r | None => EmptyString end)
          clientId clientSecret ;;
      match refreshed with
      | Some token =>
          if str_nonempty token then queryGoogleSource source token st
          else ret (models,
                    push sourceErrors
                         (sourceLabel source ++ ": Failed to refresh OAuth token"))
      | None =>
          ret (models,
               push sourceErrors
                    (sourceLabel source ++ ": Failed to refresh OAuth token"))
      end
  else
    queryGoogleSource source
      (match accessToken source with Some a => a | None => EmptyString end) st.

(** Lines 509-597: [for (const source of authSources)]. *)
Fixpoint googleSourcesLoop (sources : list AuthSource) (st : GoogleState)
  : Async GoogleState :=
  match sources with
  | [] => ret st
  | source :: rest =>
      await st' <- googleSourceStep source st ;;
      googleSourcesLoop rest st'
  end.

(** Lines 494-619. *)
Definition fetchGoogleQuota : Async ProviderResult :=
  let authSources := resolveGoogleAuthSources in
  match authSources with
  | [] =>
      ret (buildResult env "google" "Google" false false None
                       (Some "Not configured"))
  | _ =>
      await final <- googleSourcesLoop authSources ([], []) ;;
      let (models, sourceErrors) := final in
      match models with
      | [] =>
          ret (buildResult env "google" "Google" false true None
                 (Some (match sourceErrors with
                        | first :: _ => first
                        | [] => "Failed to fetch models"
                        end)))
      | _ =>
          ret (buildResult env "google" "Google" true true
                 (Some {| windows := []; models := Some models |}) None)
      end
  end.

End Google.

(** ** The configured-provider enumerator and the bearer-token fetchers

    [fetchOpenaiQuota] (lines 217-287) is exported but neither routed by
    [fetchQuotaForProvider] nor listed by the enumerator; it is left out. *)

Section Providers.

Variable env : Env.

Local Open Scope string_scope.
Local Open Scope async_scope.

(** [configured.add(id)] on a [Set] kept in insertion order. *)
Definition set_add (s : list string) (id : string) : list string :=
  if existsb (String.eqb id) s then s else push s id.

Definition addWhen (test : bool) (ids : list string) (s : list string)
  : list string :=
  if test then fold_left set_add ids s else s.

Definition lookupAuth (aliases : list string) : JsValue :=
  normalizeAuthEntry (getAuthEntry (authFile env) aliases).

Definition isSome {A : Type} (o : option A) : bool :=
  match o with Some _ => true | None => false end.

(** Lines 170-215. *)
Definition listConfiguredQuotaProviders : list string :=
  let configured := [] in
  let anthropicAuth := lookupAuth ["anthropic"; "claude"] in
  let configured :=
    addWhen (truthy (js_or (get anthropicAuth "access") (get anthropicAuth "token")))
            ["claude"] configured in
  let openaiAuth := lookupAuth ["openai"; "codex"; "chatgpt"] in
  let configured :=
    addWhen (truthy (js_or (get openaiAuth "access") (get openaiAuth "token")))
            ["codex"] configured in
  let configured :=
    addWhen (isSome (resolveGeminiCliAuth env (authFile env))
             || isSome (resolveAntigravityAuth env))
            ["google"] configured in
  let zaiAuth := lookupAuth ["zai-coding-plan"; "zai"; "z.ai"] in
  let configured :=
    addWhen (truthy (js_or (get zaiAuth "key") (get zaiAuth "token")))
            ["zai-coding-plan"] configured in
  let kimiAuth := lookupAuth ["kimi-for-coding"; "kimi"] in
  let configured :=
    addWhen (truthy (js_or (get kimiAuth "key") (get kimiAuth "token")))
            ["kimi-for-coding"] configured in
  let openrouterAuth := lookupAuth ["openrouter"] in
  let configured :=
    addWhen (truthy (js_or (get openrouterAuth "key") (get openrouterAuth "token")))
            ["openrouter"] configured in
  let nanopgAuth := lookupAuth ["nano-gpt"; "nanogpt"; "nano_gpt"] in
  let configured :=
    addWhen (truthy (js_or (get nanopgAuth "key") (get nanopgAuth "token")))
            ["nano-gpt"] configured in
  let copilotAuth := lookupAuth ["github-copilot"; "copilot"] in
  let configured :=
    addWhen (truthy (js_or (get copilotAuth "access") (get copilotAuth "token")))
            ["github-copilot"; "github-copilot-addon"] configured in
  configured.

Definition getRequest (url : string) (headers : list (string * string)) : Request :=
  {| req_url := url;
     req_method := "GET";
     req_headers := headers;
     req_body := NoBody;
     req_timeout := None |}.

Definition apiError (response : Response) : option string :=
  Some ("API error: " ++ Str.of_Z (resp_status response)).

Definition onlyWindows (w : Windows) : option Usage :=
  Some {| windows := w; models := None |}.

(** [if (section) windows[label] = toUsageWindow({ usedPercent:
    toNumber(section.utilization), windowSeconds: null, resetAt:
    toTimestamp(section.resets_at) })], lines 667-694. *)
Definition addClaudeWindow (label : string) (section : JsValue) (w : Windows)
  : Windows :=
  if truthy section
  then obj_set w label
         (toUsageWindow env (toNumber env (get section "utilization")) None
                        (toTimestamp env (get section "resets_at")) None)
  else w.

(** Lines 626-712. *)
Definition fetchClaudeQuota : Async ProviderResult :=
  let entry := lookupAuth ["anthropic"; "claude"] in
  let accessToken := js_coalesce (get entry "access") (get entry "token") in
  if negb (truthy accessToken) then
    ret (buildResult env "claude" "Claude" false false None (Some "Not configured"))
  else
    try_catch
      (await response <-
         fetch env (getRequest "https://api.anthropic.com/api/oauth/usage"
                      [ ("Authorization", "Bearer " ++ ToString env accessToken);
                        ("anthropic-beta", "oauth-2025-04-20") ]) ;;
       if negb (resp_ok response) then
         ret (buildResult env "claude" "Claude" false true None (apiError response))
       else
         await payload <- json response ;;
         let fiveHour := js_coalesce (get payload "five_hour") JNull in
         let sevenDay := js_coalesce (get payload "seven_day") JNull in
         let sevenDaySonnet := js_coalesce (get payload "seven_day_sonnet") JNull in
         let sevenDayOpus := js_coalesce (get payload "seven_day_opus") JNull in
         let windows :=
           addClaudeWindow "7d-opus" sevenDayOpus
             (addClaudeWindow "7d-sonnet" sevenDaySonnet
                (addClaudeWindow "7d" sevenDay
                   (addClaudeWindow "5h" fiveHour []))) in
         ret (buildResult env "claude" "Claude" true true (onlyWindows windows) None))
      (fun error =>
         ret (buildResult env "claude" "Claude" false true None
                          (Some (errorMessage error)))).

(** Lines 757-770: a rate-limit window of the Codex payload. *)
Definition addCodexWindow (label : string) (section : JsValue) (w : Windows)
  : Windows :=
  if truthy section
  then obj_set w label
         (toUsageWindow env (toNumber env (get section "used_percent"))
                        (toNumber env (get section "limit_window_seconds"))
                        (toTimestamp env (get section "reset_at")) None)
  else w.

(** Lines 771-785. *)
Definition addCodexCredits (credits : JsValue) (w : Windows) : Windows :=
  if truthy credits then
    let balance := toNumber env (get credits "balance") in
    let unlimited := truthy (get credits "unlimited") in
    let label :=
      if unlimited then Some "Unlimited"
      else
        match balance with
        | Some b =>
            Some ("$" ++ match formatMoney env b with
                         | Some m => m
                         | None => "null"
                         end ++ " remaining")
        | None => None
        end in
    obj_set w "credits" (toUsageWindow env None None None label)
  else w.

(** Lines 714-803. *)
Definition fetchCodexQuota : Async ProviderResult :=
  let entry := lookupAuth ["openai"; "codex"; "chatgpt"] in
  let accessToken := js_coalesce (get entry "access") (get entry "token") in
  let accountId := get entry "accountId" in
  if negb (truthy accessToken) then
    ret (buildResult env "codex" "Codex" false false None (Some "Not configured"))
  else
    try_catch
      (let headers :=
         app [ ("Authorization", "Bearer " ++ ToString env accessToken);
               ("Content-Type", "application/json") ]
             (if truthy accountId
              then [("ChatGPT-Account-Id", ToString env accountId)]
              else []) in
       await response <-
         fetch env (getRequest "https://chatgpt.com/backend-api/wham/usage" headers) ;;
       if negb (resp_ok response) then
         ret (buildResult env "codex" "Codex" false true None (apiError response))
       else
         await payload <- json response ;;
         let rate_limit := get payload "rate_limit" in
         let primary := js_coalesce (get rate_limit "primary_window") JNull in
         let secondary := js_coalesce (get rate_limit "secondary_window") JNull in
         let credits := js_coalesce (get payload "credits") JNull in
         let windows :=
           addCodexCredits credits
             (addCodexWindow "weekly" secondary
                (addCodexWindow "5h" primary [])) in
         ret (buildResult env "codex" "Codex" true true (onlyWindows windows) None))
      (fun error =>
         ret (buildResult env "codex" "Codex" false true None
                          (Some (errorMessage error)))).

(** [limit && remaining !== null ? Math.max(0, Math.min(100, 100 -
    (remaining / limit) * 100)) : null], the guard of lines 814, 988
    and 1007. *)
Definition usedOfRemaining (limit remaining : option number) : option number :=
  match limit, remaining with
  | Some l, Some r =>
      if Num.truthy l
      then Some (Num.max (num 0)
                   (Num.min (num 100) (num 100 - (r / l) * num 100)%num))
      else None
  | _, _ => None
  end.

(** Lines 810-826. *)
Definition addWindow (resetAt : option number) (label : string)
           (snapshot : JsValue) (w : Windows) : Windows :=
  if negb (truthy snapshot) then w
  else
    let entitlement := toNumber env (get snapshot "entitlement") in
    let remaining := toNumber env (get snapshot "remaining") in
    let usedPercent := usedOfRemaining entitlement remaining in
    let valueLabel :=
      match entitlement, remaining with
      | Some e, Some r =>
          Some (toFixed env 0 r ++ " / " ++ toFixed env 0 e ++ " left")
      | _, _ => None
      end in
    obj_set w label (toUsageWindow env usedPercent None resetAt valueLabel).

(** Lines 805-833. *)
Definition buildCopilotWindows (payload : JsValue) : Windows :=
  let quota := js_coalesce (get payload "quota_snapshots") (JObj []) in
  let resetAt := toTimestamp env (get payload "quota_reset_date") in
  addWindow resetAt "premium" (get quota "premium_interactions")
    (addWindow resetAt "completions" (get quota "completions")
       (addWindow resetAt "chat" (get quota "chat") [])).

Definition copilotRequest (accessToken : JsValue) : Request :=
  getRequest "https://api.github.com/copilot_internal/user"
    [ ("Authorization", "token " ++ ToString env accessToken);
      ("Accept", "application/json");
      ("Editor-Version", "vscode/1.96.2");
      ("X-Github-Api-Version", "2025-04-01") ].

(** Lines 835-888. *)
Definition fetchCopilotQuota : Async ProviderResult :=
  let entry := lookupAuth ["github-copilot"; "copilot"] in
  let accessToken := js_coalesce (get entry "access") (get entry "token") in
  if negb (truthy accessToken) then
    ret (buildResult env "github-copilot" "GitHub Copilot" false false None
                     (Some "Not configured"))
  else
    try_catch
      (await response <- fetch env (copilotRequest accessToken) ;;
       if negb (resp_ok response) then
         ret (buildResult env "github-copilot" "GitHub Copilot" false true None
                          (apiError response))
       else
         await payload <- json response ;;
         ret (buildResult env "github-copilot" "GitHub Copilot" true true
                          (onlyWindows (buildCopilotWindows payload)) None))
      (fun error =>
         ret (buildResult env "github-copilot" "GitHub Copilot" false true None
                          (Some (errorMessage error)))).

(** Lines 890-946. *)
Definition fetchCopilotAddonQuota : Async ProviderResult :=
  let entry := lookupAuth ["github-copilot"; "copilot"] in
  let accessToken := js_coalesce (get entry "access") (get entry "token") in
  if negb (truthy accessToken) then
    ret (buildResult env "github-copilot-addon" "GitHub Copilot Add-on" false false
                     None (Some "Not configured"))
  else
    try_catch
      (await response <- fetch env (copilotRequest accessToken) ;;
       if negb (resp_ok response) then
         ret (buildResult env "github-copilot-addon" "GitHub Copilot Add-on" false
                          true None (apiError response))
       else
         await payload <- json response ;;
         let windows := buildCopilotWindows payload in
         let premium :=
           match assoc "premium" windows with
           | Some p => [("premium", p)]
           | None => windows
           end in
         ret (buildResult env "github-copilot-addon" "GitHub Copilot Add-on" true
                          true (onlyWindows premium) None))
      (fun error =>
         ret (buildResult env "github-copilot-addon" "GitHub Copilot Add-on" false
                          true None (Some (errorMessage error)))).

(** Lines 984-996. *)
Definition addKimiUsage (usage : JsValue) (w : Windows) : Windows :=
  if truthy usage then
    let limit := toNumber env (get usage "limit") in
    let remaining := toNumber env (get usage "remaining") in
    obj_set w "weekly"
      (toUsageWindow env (usedOfRemaining limit remaining) None
                     (toTimestamp env (get usage "resetTime")) None)
  else w.

(** Lines 999-1015: the body of the loop over [limits]. *)
Definition addKimiLimit (w : Windows) (limit : JsValue) : Windows :=
  let window := get limit "window" in
  let detail := get limit "detail" in
  let rawLabel := durationToLabel env (get window "duration") (get window "timeUnit") in
  let windowSeconds :=
    durationToSeconds env (get window "duration") (get window "timeUnit") in
  let label :=
    match windowSeconds with
    | Some ws =>
        if (ws =? num (5 * 60 * 60))%num
        then "Rate Limit (" ++ rawLabel ++ ")"
        else rawLabel
    | None => rawLabel
    end in
  let total := toNumber env (get detail "limit") in
  let remaining := toNumber env (get detail "remaining") in
  obj_set w label
    (toUsageWindow env (usedOfRemaining total remaining) windowSeconds
                   (toTimestamp env (get detail "resetTime")) None).

Definition bearerJsonRequest (url : string) (apiKey : JsValue) : Request :=
  getRequest url
    [ ("Authorization", "Bearer " ++ ToString env apiKey);
      ("Content-Type", "application/json") ].

(** Lines 948-1033. *)
Definition fetchKimiQuota : Async ProviderResult :=
  let entry := lookupAuth ["kimi-for-coding"; "kimi"] in
  let apiKey := js_coalesce (get entry "key") (get entry "token") in
  if negb (truthy apiKey) then
    ret (buildResult env "kimi-for-coding" "Kimi for Coding" false false None
                     (Some "Not configured"))
  else
    try_catch
      (await response <-
         fetch env (bearerJsonRequest "https://api.kimi.com/coding/v1/usages" apiKey) ;;
       if negb (resp_ok response) then
         ret (buildResult env "kimi-for-coding" "Kimi for Coding" false true None
                          (apiError response))
       else
         await payload <- json response ;;
         let usage := js_coalesce (get payload "usage") JNull in
         let limits := arrayOrEmpty (get payload "limits") in
         let windows := fold_left addKimiLimit limits (addKimiUsage usage []) in
         ret (buildResult env "kimi-for-coding" "Kimi for Coding" true true
                          (onlyWindows windows) None))
      (fun error =>
         ret (buildResult env "kimi-for-coding" "Kimi for Coding" false true None
                          (Some (errorMessage error)))).

Definition moneyLabel (amount : number) : string :=
  "$" ++ match formatMoney env amount with
         | Some m => m
         | None => "null"
         end ++ " remaining".

(** Lines 1070-1088. *)
Definition openRouterWindows (payload : JsValue) : Windows :=
  let credits := js_coalesce (get payload "data") (JObj []) in
  let totalCredits := toNumber env (get credits "total_credits") in
  let totalUsage := toNumber env (get credits "total_usage") in
  let remaining :=
    match totalCredits, totalUsage with
    | Some c, Some u => Some (Num.max (num 0) (c - u)%num)
    | _, _ => None
    end in
  let usedPercent :=
    match totalCredits, totalUsage with
    | Some c, Some u =>
        if Num.truthy c
        then Some (Num.max (num 0) (Num.min (num 100) ((u / c) * num 100)%num))
        else None
    | _, _ => None
    end in
  let valueLabel := option_map moneyLabel remaining in
  [ ("credits", toUsageWindow env usedPercent None None valueLabel) ].

(** Lines 1035-1106. *)
Definition fetchOpenRouterQuota : Async ProviderResult :=
  let entry := lookupAuth ["openrouter"] in
  let apiKey := js_coalesce (get entry "key") (get entry "token") in
  if negb (truthy apiKey) then
    ret (buildResult env "openrouter" "OpenRouter" false false None
                     (Some "Not configured"))
  else
    try_catch
      (await response <-
         fetch env (bearerJsonRequest "https://openrouter.ai/api/v1/credits" apiKey) ;;
       if negb (resp_ok response) then
         ret (buildResult env "openrouter" "OpenRouter" false true None
                          (apiError response))
       else
         await payload <- json response ;;
         ret (buildResult env "openrouter" "OpenRouter" true true
                          (onlyWindows (openRouterWindows payload)) None))
      (fun error =>
         ret (buildResult env "openrouter" "OpenRouter" false true None
                          (Some (errorMessage error)))).

(** Lines 1108-1111. *)
Definition normalizeTimestamp (value : JsValue) : option number :=
  match value with
  | JNum n => Some (if (n <? num 1000000000000)%num then (n * num 1000)%num else n)
  | _ => None
  end.

(** Line 1113: [ZAI_TOKEN_WINDOW_SECONDS[unit]], the table
    [{ 3: 3600 }] read at the property key of [unit] (own properties
    only). *)
Definition ZAI_TOKEN_WINDOW_SECONDS (unit : JsValue) : option number :=
  if String.eqb (ToString env unit) "3" then Some (num 3600) else None.

(** Lines 1115-1120. *)
Definition resolveWindowSeconds (limit : JsValue) : option number :=
  if negb (truthy limit) || negb (truthy (get limit "number")) then None
  else
    match ZAI_TOKEN_WINDOW_SECONDS (get limit "unit") with
    | Some unitSeconds =>
        if negb (Num.truthy unitSeconds) then None
        else Some (unitSeconds * ToNumber env (get limit "number"))%num
    | None => None
    end.

(** Lines 1122-1132. *)
Definition resolveWindowLabel (windowSeconds : option number) : string :=
  match windowSeconds with
  | Some ws =>
      if negb (Num.truthy ws) then "tokens"
      else if (Num.rem ws (num 86400) =? num 0)%num then
        let days := (ws / num 86400)%num in
        if (days =? num 7)%num then "weekly"
        else ToString env (JNum days) ++ "d"
      else if (Num.rem ws (num 3600) =? num 0)%num then
        ToString env (JNum (ws / num 3600)%num) ++ "h"
      else ToString env (JNum ws) ++ "s"
  | None => "tokens"
  end.

(** [limits.find((limit) => limit?.type === 'TOKENS_LIMIT')]. *)
Definition findTokensLimit (limits : list JsValue) : JsValue :=
  match find (fun limit => js_str_eq (get limit "type") "TOKENS_LIMIT") limits with
  | Some limit => limit
  | None => JUndefined
  end.

(** Line 1174. *)
Definition zaiUsedPercent (tokensLimit : JsValue) : option number :=
  match get tokensLimit "percentage" with
  | JNum percentage => Some percentage
  | _ => None
  end.

(** Lines 1169-1183. *)
Definition zaiWindows (payload : JsValue) : Windows :=
  let limits := arrayOrEmpty (get (get payload "data") "limits") in
  let tokensLimit := findTokensLimit limits in
  let windowSeconds := resolveWindowSeconds tokensLimit in
  let windowLabel := resolveWindowLabel windowSeconds in
  let resetAt :=
    if truthy (get tokensLimit "nextResetTime")
    then normalizeTimestamp (get tokensLimit "nextResetTime")
    else None in
  let usedPercent := zaiUsedPercent tokensLimit in
  if truthy tokensLimit
  then [ (windowLabel, toUsageWindow env usedPercent windowSeconds resetAt None) ]
  else [].

(** Lines 1134-1201. *)
Definition fetchZaiQuota : Async ProviderResult :=
  let entry := lookupAuth ["zai-coding-plan"; "zai"; "z.ai"] in
  let apiKey := js_coalesce (get entry "key") (get entry "token") in
  if negb (truthy apiKey) then
    ret (buildResult env "zai-coding-plan" "z.ai" false false None
                     (Some "Not configured"))
  else
    try_catch
      (await response <-
         fetch env (bearerJsonRequest
                      "https://api.z.ai/api/monitor/usage/quota/limit" apiKey) ;;
       if negb (resp_ok response) then
         ret (buildResult env "zai-coding-plan" "z.ai" false true None
                          (apiError response))
       else
         await payload <- json response ;;
         ret (buildResult env "zai-coding-plan" "z.ai" true true
                          (onlyWindows (zaiWindows payload)) None))
      (fun error =>
         ret (buildResult env "zai-coding-plan" "z.ai" false true None
                          (Some (errorMessage error)))).

(** Lines 1247-1257 and 1269-1279: the used percentage of one tier;
    [tierKey] is ["daily"] or ["monthly"]. *)
Definition nanoUsedPercent (tier : JsValue) (tierKey : string) : option number :=
  match get tier "percentUsed" with
  | JNum percentUsed =>
      Some (Num.max (num 0) (Num.min (num 100) (percentUsed * num 100)%num))
  | _ =>
      let used := toNumber env (get tier "used") in
      let limit :=
        toNumber env (js_coalesce (get tier "limit")
                                  (get (get tier "limits") tierKey)) in
      match used, limit with
      | Some u, Some l =>
          if (l >? num 0)%num
          then Some (Num.max (num 0) (Num.min (num 100) ((u / l) * num 100)%num))
          else None
      | _, _ => None
      end
  end.

Definition nanoStateLabel (state : JsValue) : option string :=
  if negb (js_str_eq state "active")
  then Some ("(" ++ ToString env state ++ ")")
  else None.

(** Lines 1240-1288. *)
Definition nanoGptWindows (payload : JsValue) : Windows :=
  let period := js_coalesce (get payload "period") JNull in
  let daily := js_coalesce (get payload "daily") JNull in
  let monthly := js_coalesce (get payload "monthly") JNull in
  let state := js_coalesce (get payload "state") (JStr "active") in
  let windows := [] in
  let windows :=
    if truthy daily then
      obj_set windows "daily"
        (toUsageWindow env (nanoUsedPercent daily "daily")
                       (Some Const.NANO_GPT_DAILY_WINDOW_SECONDS)
                       (toTimestamp env (get daily "resetAt"))
                       (nanoStateLabel state))
    else windows in
  if truthy monthly then
    obj_set windows "monthly"
      (toUsageWindow env (nanoUsedPercent monthly "monthly") None
                     (toTimestamp env
                        (js_coalesce (get monthly "resetAt")
                                     (get period "currentPeriodEnd")))
                     (nanoStateLabel state))
  else windows.

(** Lines 1205-1306. *)
Definition fetchNanoGptQuota : Async ProviderResult :=
  let entry := lookupAuth ["nano-gpt"; "nanogpt"; "nano_gpt"] in
  let apiKey := js_coalesce (get entry "key") (get entry "token") in
  if negb (truthy apiKey) then
    ret (buildResult env "nano-gpt" "NanoGPT" false false None
                     (Some "Not configured"))
  else
    try_catch
      (await response <-
         fetch env (bearerJsonRequest
                      "https://nano-gpt.com/api/subscription/v1/usage" apiKey) ;;
       if negb (resp_ok response) then
         ret (buildResult env "nano-gpt" "NanoGPT" false true None
                          (apiError response))
       else
         await payload <- json response ;;
         ret (buildResult env "nano-gpt" "NanoGPT" true true
                          (onlyWindows (nanoGptWindows payload)) None))
      (fun error =>
         ret (buildResult env "nano-gpt" "NanoGPT" false true None
                          (Some (errorMessage error)))).

(** Lines 1308-1337. *)
Definition fetchQuotaForProvider (providerId : string) : Async ProviderResult :=
  if String.eqb providerId "claude" then fetchClaudeQuota
  else if String.eqb providerId "codex" then fetchCodexQuota
  else if String.eqb providerId "github-copilot" then fetchCopilotQuota
  else if String.eqb providerId "github-copilot-addon" then fetchCopilotAddonQuota
  else if String.eqb providerId "google" then fetchGoogleQuota env
  else if String.eqb providerId "kimi-for-coding" then fetchKimiQuota
  else if String.eqb providerId "nano-gpt" then fetchNanoGptQuota
  else if String.eqb providerId "openrouter" then fetchOpenRouterQuota
  else if String.eqb providerId "zai-coding-plan" then fetchZaiQuota
  else
    ret (buildResult env providerId providerId false false None
                     (Some "Unsupported provider")).

End Providers.

(** ** Reference definitions

    What the specification says in its own words, to be compared with the
    definitions above, and the concrete stores, payloads and networks the
    examples run on. *)

(** The closed set of identifiers routed by [fetchQuotaForProvider]. *)
Definition knownProviders : list string :=
  [ "claude"; "codex"; "github-copilot"; "github-copilot-addon"; "google";
    "kimi-for-coding"; "nano-gpt"; "openrouter"; "zai-coding-plan" ]%string.

(** [clamp(x, 0, 100)] of the specification's percent invariant. *)
Definition clampPercent (x : number) : number :=
  Num.max (num 0) (Num.min (num 100) x).

(** The specification's z.ai rule: the upstream percentage when it is a
    number, and otherwise the ratio of the entry's used and limit fields
    (the specification does not name them, so they are arguments). *)
Definition zaiUsedPercentPerSpec (usedField limitField : string)
           (tokensLimit : JsValue) : option number :=
  match get tokensLimit "percentage" with
  | JNum percentage => Some percentage
  | _ =>
      match get tokensLimit usedField, get tokensLimit limitField with
      | JNum used, JNum limit =>
          if Num.truthy limit then Some ((used / limit) * num 100)%num else None
      | _, _ => None
      end
  end.

(** The body an endpoint yields when its request does not throw, its
    status is 2xx and its body parses. *)
Definition usableBody (outcome : Completion Response) : option JsValue :=
  match outcome with
  | Normal response =>
      if resp_ok response then
        match resp_json response with
        | Normal body => Some body
        | Abrupt _ => None
        end
      else None
  | Abrupt _ => None
  end.

(** The specification's fail-over rule read literally: stop at the first
    endpoint whose response is 2xx and return what parsing its body gives;
    a request that throws or a status outside 2xx moves on. *)
Fixpoint firstOkEndpoint (env : Env) (endpoints : list string)
         (accessToken projectId : string) (t : Trace)
  : Completion JsValue * Trace :=
  match endpoints with
  | [] => (Normal JNull, t)
  | endpoint :: rest =>
      let request := modelsRequest endpoint accessToken projectId in
      match network env t request with
      | Normal response =>
          if resp_ok response then (resp_json response, t ++ [request])
          else firstOkEndpoint env rest accessToken projectId (t ++ [request])
      | Abrupt _ => firstOkEndpoint env rest accessToken projectId (t ++ [request])
      end
  end.

(** The fail-over rule with parsing counted in: stop at the first endpoint
    that yields a usable body. *)
Fixpoint firstUsableEndpoint (env : Env) (endpoints : list string)
         (accessToken projectId : string) (t : Trace) : JsValue * Trace :=
  match endpoints with
  | [] => (JNull, t)
  | endpoint :: rest =>
      let request := modelsRequest endpoint accessToken projectId in
      match usableBody (network env t request) with
      | Some body => (body, t ++ [request])
      | None => firstUsableEndpoint env rest accessToken projectId (t ++ [request])
      end
  end.

(** A request to the OAuth token endpoint. *)
Definition isTokenRequest (r : Request) : bool :=
  String.eqb (req_url r) "https://oauth2.googleapis.com/token".

(** The token endpoint never throws: its request is answered, and a 2xx
    answer parses. *)
Definition refreshNeverThrows (env : Env) : Prop :=
  forall (t : Trace) (r : Request),
    isTokenRequest r = true ->
    exists response,
      network env t r = Normal response
      /\ (resp_ok response = true ->
          exists data, resp_json response = Normal data).

(** The part of the result invariants that holds on every path: the
    result answers for [id], it has no [error] when [ok], and an [error]
    it has is a non-empty string on a result that is not [ok]. *)
Definition answersFor (id : string) (r : ProviderResult) : Prop :=
  providerId r = id
  /\ (ok r = true -> error r = None)
  /\ (forall e, error r = Some e -> ok r = false /\ e <> EmptyString).

(** What the two merging loops keep: models once merged stay, and the
    flag [mergedAnyModel] is only set with a model in the map. *)
Definition merged_ok (before after : ModelMap * bool) : Prop :=
  (fst before <> [] -> fst after <> [])
  /\ (snd after = true -> snd before = true \/ fst after <> []).

(** The specification's invariant P5 on a result: [ok] is false exactly
    when [error] is a non-empty string, and true exactly when there is no
    [error]. *)
Definition errorIffNotOk (r : ProviderResult) : Prop :=
  (ok r = false <-> exists e, error r = Some e /\ e <> EmptyString)
  /\ (ok r = true <-> error r = None).

(** No [Error] thrown by a request or by [json()] has an empty message. *)
Definition messagesNonEmpty (env : Env) : Prop :=
  forall (t : Trace) (r : Request),
    network env t r <> Abrupt (ErrorObject EmptyString)
    /\ (forall response,
          network env t r = Normal response ->
          resp_json response <> Abrupt (ErrorObject EmptyString)).

(** The window stored under [label], if any. *)
Definition windowAt (label : string) (w : Windows) : option UsageWindow :=
  assoc label w.

Module Sample.

Local Open Scope string_scope.

(** An environment with a fixed clock and inert built-ins, over a given
    credential store, account files and network. *)
Definition env (auth : JsValue) (files : list JsValue)
           (net : Trace -> Request -> Completion Response) : Env :=
  {| now := 1700000000000;
     Date_parse := fun _ => NaN;
     Date_getTime := fun _ => NaN;
     formatLocale := fun _ => None;
     Number_ofString := fun _ => NaN;
     ToNumber_object := fun _ => NaN;
     String_other := fun _ => "[object Object]";
     authFile := auth;
     antigravityFiles := files;
     network := net |}.

(** Every request fails in transport. *)
Definition offline : Trace -> Request -> Completion Response :=
  fun _ _ => Abrupt (ErrorObject "fetch failed").

(** Every request fails with an error whose message is empty. *)
Definition silentFailure : Trace -> Request -> Completion Response :=
  fun _ _ => Abrupt (ErrorObject EmptyString).

(** Every request is answered 200 with a body that does not parse. *)
Definition garbled : Trace -> Request -> Completion Response :=
  fun _ _ => Normal (mkResponse 200 (Abrupt (ErrorObject "Unexpected end of JSON input"))).

Definition noStore : JsValue := JObj [].

(** [{ google: { refresh: "rt" } }]: a Gemini source without access
    token. *)
Definition geminiRefreshOnly : JsValue :=
  JObj [("google", JObj [("refresh", JStr "rt")])].

(** [{ google: { access: "at" } }]: a Gemini source with a live token. *)
Definition geminiLive : JsValue :=
  JObj [("google", JObj [("access", JStr "at")])].

(** [{ accounts: [{ refreshToken: "ag" }] }]. *)
Definition antigravityAccounts : JsValue :=
  JObj [("accounts", JArr [JObj [("refreshToken", JStr "ag")]])].

(** [{ models: { pro: { quotaInfo: { remainingFraction: 1 } } } }]. *)
Definition oneModel : JsValue :=
  JObj [("models",
         JObj [("pro", JObj [("quotaInfo",
                              JObj [("remainingFraction", JNum (num 1))])])])].

(** The model listing answers, the quota buckets answer 500 and the
    token endpoint is unreachable. *)
Definition modelsUpTokenDown : Trace -> Request -> Completion Response :=
  fun _ r =>
    if isTokenRequest r then Abrupt (ErrorObject "fetch failed")
    else if String.eqb (req_url r)
              (Const.GOOGLE_PRIMARY_ENDPOINT ++ "/v1internal:retrieveUserQuota")
    then Normal (mkResponse 500 (Normal JNull))
    else Normal (mkResponse 200 (Normal oneModel)).

(** [{ anthropic: { access: '', token: 'abc' } }]. *)
Definition emptyAccess : JsValue :=
  JObj [("anthropic", JObj [("access", JStr EmptyString); ("token", JStr "abc")])].

(** [{ kimi: { key: '', token: 'abc' } }]. *)
Definition emptyKey : JsValue :=
  JObj [("kimi", JObj [("key", JStr EmptyString); ("token", JStr "abc")])].

(** [{ anthropic: "abc" }]: a bare secret. *)
Definition bareClaude : JsValue := JObj [("anthropic", JStr "abc")].

(** A z.ai limit entry without [percentage]:
    [{ type: "TOKENS_LIMIT", unit: 3, number: 5, usage: 200,
       currentValue: 100 }]. *)
Definition zaiEntryNoPercentage : JsValue :=
  JObj [ ("type", JStr "TOKENS_LIMIT"); ("unit", JNum (num 3));
         ("number", JNum (num 5)); ("usage", JNum (num 200));
         ("currentValue", JNum (num 100)) ].

(** The same entry with [percentage: 42]. *)
Definition zaiEntryPercentage : JsValue :=
  JObj [ ("type", JStr "TOKENS_LIMIT"); ("unit", JNum (num 3));
         ("number", JNum (num 5)); ("usage", JNum (num 200));
         ("currentValue", JNum (num 100)); ("percentage", JNum (num 42)) ].

Definition zaiPayload (entry : JsValue) : JsValue :=
  JObj [("data", JObj [("limits", JArr [entry])])].

(** The first endpoint answers 200 with a body that does not parse, the
    others answer 200 with [oneModel]. *)
Definition firstGarbled : Trace -> Request -> Completion Response :=
  fun t _ =>
    match t with
    | [] => Normal (mkResponse 200 (Abrupt (ErrorObject "Unexpected token <")))
    | _ => Normal (mkResponse 200 (Normal oneModel))
    end.

(** The first two endpoints answer 503, the third answers 200. *)
Definition thirdAnswers : Trace -> Request -> Completion Response :=
  fun _ r =>
    if String.eqb (req_url r)
         (Const.GOOGLE_PRIMARY_ENDPOINT ++ "/v1internal:fetchAvailableModels")
    then Normal (mkResponse 200 (Normal oneModel))
    else Normal (mkResponse 503 (Normal JNull)).

(** Copilot snapshots: [{ entitlement: 0, remaining: 5 }] and
    [{ entitlement: 0, remaining: 0 }]. *)
Definition snapshotFiveOfZero : JsValue :=
  JObj [("entitlement", JNum (num 0)); ("remaining", JNum (num 5))].

Definition snapshotZeroOfZero : JsValue :=
  JObj [("entitlement", JNum (num 0)); ("remaining", JNum (num 0))].

Definition copilotPayload (chat : JsValue) : JsValue :=
  JObj [("quota_snapshots", JObj [("chat", chat)])].

End Sample.


(** ** Tables and predicates for the properties of the fetchers *)

(** The identifiers whose fetcher is one bearer-token [GET]. *)
Definition bearerProviders : list string :=
  [ "claude"; "codex"; "github-copilot"; "github-copilot-addon";
    "kimi-for-coding"; "nano-gpt"; "openrouter"; "zai-coding-plan" ]%string.

(** The URL each of these fetchers passes to [fetch]. *)
Definition usageEndpoint (id : string) : string :=
  (if String.eqb id "claude" then "https://api.anthropic.com/api/oauth/usage"
   else if String.eqb id "codex" then "https://chatgpt.com/backend-api/wham/usage"
   else if String.eqb id "github-copilot"
        then "https://api.github.com/copilot_internal/user"
   else if String.eqb id "github-copilot-addon"
        then "https://api.github.com/copilot_internal/user"
   else if String.eqb id "kimi-for-coding"
        then "https://api.kimi.com/coding/v1/usages"
   else if String.eqb id "nano-gpt"
        then "https://nano-gpt.com/api/subscription/v1/usage"
   else if String.eqb id "openrouter" then "https://openrouter.ai/api/v1/credits"
   else if String.eqb id "zai-coding-plan"
        then "https://api.z.ai/api/monitor/usage/quota/limit"
   else EmptyString)%string.

(** The aliases each fetcher passes to [getAuthEntry], the field it reads
    before [token], and the scheme of its [Authorization] header. *)
Definition credentialAliases (id : string) : list string :=
  (if String.eqb id "claude" then ["anthropic"; "claude"]
   else if String.eqb id "codex" then ["openai"; "codex"; "chatgpt"]
   else if String.eqb id "github-copilot" then ["github-copilot"; "copilot"]
   else if String.eqb id "github-copilot-addon" then ["github-copilot"; "copilot"]
   else if String.eqb id "kimi-for-coding" then ["kimi-for-coding"; "kimi"]
   else if String.eqb id "nano-gpt" then ["nano-gpt"; "nanogpt"; "nano_gpt"]
   else if String.eqb id "openrouter" then ["openrouter"]
   else if String.eqb id "zai-coding-plan" then ["zai-coding-plan"; "zai"; "z.ai"]
   else [])%string.

Definition credentialField (id : string) : string :=
  (if String.eqb id "claude" then "access"
   else if String.eqb id "codex" then "access"
   else if String.eqb id "github-copilot" then "access"
   else if String.eqb id "github-copilot-addon" then "access"
   else "key")%string.

Definition authScheme (id : string) : string :=
  (if String.eqb id "github-copilot" then "token "
   else if String.eqb id "github-copilot-addon" then "token "
   else "Bearer ")%string.

(** The credential a bearer fetcher ends up with: [entry?.field ??
    entry?.token] on the normalized entry of its aliases. *)
Definition credentialOf (env : Env) (id : string) : JsValue :=
  let entry := lookupAuth env (credentialAliases id) in
  js_coalesce (get entry (credentialField id)) (get entry "token").

(** The [error] property [buildResult] leaves for a caught exception. *)
Definition caughtError (e : Thrown) : option string :=
  if str_nonempty (errorMessage e) then Some (errorMessage e) else None.

(** How the result [r] of a bearer fetcher relates to the outcome of its
    one request. *)
Definition reflectsOutcome (outcome : Completion Response) (r : ProviderResult)
  : Prop :=
  configured r = true
  /\ match outcome with
     | Abrupt e => ok r = false /\ usage r = None /\ error r = caughtError e
     | Normal response =>
         if resp_ok response then
           match resp_json response with
           | Normal _ =>
               ok r = true /\ error r = None
               /\ exists w, usage r = Some {| windows := w; models := None |}
           | Abrupt e =>
               ok r = false /\ usage r = None /\ error r = caughtError e
           end
         else
           ok r = false /\ usage r = None
           /\ error r = Some ("API error: " ++ Str.of_Z (resp_status response))%string
     end.

(** The unconfigured result of a fetcher. *)
Definition notConfigured (id : string) (r : ProviderResult) : Prop :=
  providerId r = id /\ ok r = false /\ configured r = false
  /\ usage r = None /\ error r = Some "Not configured"%string.

(** A computation only appends requests to the trace, at most [n] of
    them, however it ends. *)
Definition appendsAtMost {A : Type} (n : nat) (m : Async A) : Prop :=
  forall t : Trace,
    exists ext : list Request, snd (m t) = (t ++ ext)%list /\ (length ext <= n)%nat.

(** A window whose percentages are consistent: no used percentage and no
    remaining one, or a used percentage within [0, 100] and a remaining
    one that is its complement to 100. *)
Definition percentInRange (w : UsageWindow) : Prop :=
  match usedPercent w with
  | None => remainingPercent w = None
  | Some u =>
      exists p m,
        u = Finite p /\ 0 <= p /\ p <= 100
        /\ remainingPercent w = Some (Finite m) /\ m == 100 - p
  end.

(** Every window of a map is [percentInRange]. *)
Definition allInRange (w : Windows) : Prop :=
  forall (label : string) (win : UsageWindow),
    In (label, win) w -> percentInRange win.

Module Fixture.

Local Open Scope string_scope.

(** Every request is answered 200 with the body [body]. *)
Definition answers (body : JsValue) : Trace -> Request -> Completion Response :=
  fun _ _ => Normal (mkResponse 200 (Normal body)).

(** [{ 'github-copilot': 'gho' }]. *)
Definition copilotStore : JsValue := JObj [("github-copilot", JStr "gho")].

(** [{ quota_snapshots: { chat: { entitlement: 300, remaining: 75 },
       premium_interactions: { entitlement: 50, remaining: 60 } } }]. *)
Definition copilotUsage : JsValue :=
  JObj [("quota_snapshots",
         JObj [ ("chat",
                 JObj [("entitlement", JNum (num 300)); ("remaining", JNum (num 75))]);
                ("premium_interactions",
                 JObj [("entitlement", JNum (num 50)); ("remaining", JNum (num 60))]) ])].

Definition copilotEnv : Env :=
  Sample.env copilotStore [] (answers copilotUsage).

End Fixture.

(** ** Predicates on strings, for the refresh-token format *)

(** Every character of [s] passes [test]. *)
Fixpoint forallChars (test : ascii -> bool) (s : string) : bool :=
  match s with
  | EmptyString => true
  | String c rest => test c && forallChars test rest
  end.

(** A character that is neither white space nor the separator [|]. *)
Definition plainChar (c : ascii) : bool :=
  negb (Str.is_space c) && negb (Ascii.eqb c "|"%char).

(** The part [Some s] of a segment that is not empty. *)
Definition segment (s : string) : option string :=
  if str_nonempty s then Some s else None.

(** ** The shape of the merged Google models *)

(** An entry of the [models] map: its key is scoped by the identifier of
    the source that gave it, and it holds one window, ['daily'] over 24
    hours or, for Antigravity only, ['5h'] over 5 hours. *)
Definition googleEntryOk (entry : string * ModelUsage) : Prop :=
  exists sid label win,
    (sid = "gemini" \/ sid = "antigravity")%string
    /\ Str.startsWith (fst entry) (sid ++ "/") = true
    /\ model_windows (snd entry) = [(label, win)]
    /\ ((label = "daily"%string /\ windowSeconds win = Some (num 86400))
        \/ (sid = "antigravity"%string /\ label = "5h"%string
            /\ windowSeconds win = Some (num 18000))).

Definition knownSource (source : AuthSource) : Prop :=
  (sourceId source = "gemini" \/ sourceId source = "antigravity")%string.

(** A source that holds no usable access token: none stored, or one whose
    expiry has passed (line 513). *)
Definition needsRefresh (env : Env) (source : AuthSource) : bool :=
  negb (opt_str_truthy (accessToken source)) || expired env source.

(** [{ sourceId: 'antigravity', sourceLabel: 'Antigravity', refreshToken:
      'ag' }]. *)
Definition antigravitySample : AuthSource :=
  {| sourceId := "antigravity";
     sourceLabel := "Antigravity";
     accessToken := None;
     refreshToken := Some "ag"%string;
     projectId := None;
     expires := None;
     email := JUndefined |}.

(** The three messages a source of the Google loop can record, after its
    label. *)
Definition sourceFailures : list string :=
  [ ": Missing refresh token"; ": Failed to refresh OAuth token";
    ": Failed to fetch models" ]%string.

(** An entry of [sourceErrors] recorded for [source]. *)
Definition failureOf (source : AuthSource) (message : string) : Prop :=
  exists failure,
    In failure sourceFailures
    /\ message = (sourceLabel source ++ failure)%string.
(** * Properties *)

(** ** Numbers *)

Lemma Qle_bool_false_lt (x y : Q) : Qle_bool x y = false -> y < x.
Proof.
  intros H. apply Qnot_le_lt. intros Hle.
  apply Qle_bool_iff in Hle. congruence.
Qed.

Lemma Qle_bool_true_le (x y : Q) : Qle_bool x y = true -> x <= y.
Proof. apply Qle_bool_iff. Qed.

Lemma Qlt_Qle_bool_false (x y : Q) : y < x -> Qle_bool x y = false.
Proof.
  intros H. destruct (Qle_bool x y) eqn:E; [|reflexivity].
  apply Qle_bool_iff in E. exfalso. exact (Qlt_not_le _ _ H E).
Qed.

Lemma Num_le_not_lt (a b : number) : Num.le a b = true -> Num.lt b a = false.
Proof.
  destruct a as [| [|] | x], b as [| [|] | y]; simpl; try congruence.
  intros H. now rewrite H.
Qed.

Lemma Num_le_threshold_truthy (n : number) :
  Num.le (num 1000000000000) n = true -> Num.truthy n = true.
Proof.
  destruct n as [| [|] | y]; simpl; try congruence.
  intros H. apply Qle_bool_true_le in H.
  unfold Num.is_zero. destruct (Qeq_bool y 0) eqn:E; [|reflexivity].
  apply Qeq_bool_iff in E. rewrite E in H.
  exfalso. revert H. unfold Qle; simpl. lia.
Qed.

(** ** Timestamp coercion *)

(** C9: [toTimestamp] answers [null] on every falsy input, the number [0]
    and the empty string among them, so the epoch itself is read as no
    timestamp; every other number below [10^12], negative ones included,
    comes back multiplied by 1000, and a number at or above [10^12] comes
    back unchanged. *)
Theorem toTimestamp_coercion :
  forall env : Env,
    (forall v, truthy v = false -> toTimestamp env v = None)
    /\ toTimestamp env (JNum (num 0)) = None
    /\ toTimestamp env (JStr EmptyString) = None
    /\ (forall n, Num.truthy n = true ->
                  (n <? num 1000000000000)%num = true ->
                  toTimestamp env (JNum n) = Some (n * num 1000)%num)
    /\ toTimestamp env (JNum (num (-3))) = Some (num (-3000))
    /\ (forall n, Num.le (num 1000000000000) n = true ->
                  toTimestamp env (JNum n) = Some n).
Proof.
  intros env. repeat split.
  - intros v Hv. unfold toTimestamp. now rewrite Hv.
  - intros n Ht Hlt. unfold toTimestamp. simpl truthy. rewrite Ht. simpl.
    now rewrite Hlt.
  - intros n Hle. unfold toTimestamp. simpl truthy.
    rewrite (Num_le_threshold_truthy _ Hle). simpl.
    now rewrite (Num_le_not_lt _ _ Hle).
Qed.

(** ** The window builder *)

Lemma Num_max_zero_finite (x : Q) :
  Num.max (num 0) (Finite x) = if Qle_bool x 0 then num 0 else Finite x.
Proof.
  unfold Num.max, num, Num.of_Z, Num.lt.
  change (inject_Z 0) with 0. now destruct (Qle_bool x 0).
Qed.

Lemma Num_min_hundred_finite (x : Q) :
  Num.min (num 100) (Finite x) = if Qle_bool 100 x then num 100 else Finite x.
Proof.
  unfold Num.min, num, Num.of_Z, Num.lt.
  change (inject_Z 100) with 100. now destruct (Qle_bool 100 x).
Qed.

(** The value of [Math.max(0, x)] on a finite [x]. *)
Lemma max_zero_cases (x : Q) :
  exists m, Num.max (num 0) (Finite x) = Finite m
            /\ 0 <= m
            /\ (m <= 100 <-> x <= 100)
            /\ (x <= 100 -> (Finite m =? clampPercent (Finite x))%num = true).
Proof.
  rewrite Num_max_zero_finite. unfold clampPercent.
  rewrite Num_min_hundred_finite.
  destruct (Qle_bool x 0) eqn:E0.
  - apply Qle_bool_true_le in E0. exists 0. split; [reflexivity|].
    split; [lra|]. split; [split; intros; lra|].
    intros _. rewrite (Qlt_Qle_bool_false 100 x) by lra.
    rewrite Num_max_zero_finite, (proj2 (Qle_bool_iff x 0) E0).
    reflexivity.
  - apply Qle_bool_false_lt in E0. exists x. split; [reflexivity|].
    split; [lra|]. split; [tauto|].
    intros Hx. destruct (Qle_bool 100 x) eqn:E100.
    + apply Qle_bool_true_le in E100.
      change (Num.max (num 0) (num 100)) with (Finite 100).
      apply Qeq_bool_iff. lra.
    + rewrite Num_max_zero_finite, (Qlt_Qle_bool_false _ _ E0).
      apply Qeq_bool_iff. reflexivity.
Qed.



(** ** The dispatch facade on unknown identifiers *)

(** C8: an identifier outside the nine known ones makes
    [fetchQuotaForProvider] resolve, without any request, to the result
    [ok:false, configured:false, error:'Unsupported provider'], [usage]
    null, [providerId] and [providerName] both the identifier given. *)
Theorem fetchQuotaForProvider_unsupported :
  forall (env : Env) (id : string) (t : Trace),
    ~ In id knownProviders ->
    fetchQuotaForProvider env id t
    = (Normal {| providerId := id;
                 providerName := id;
                 ok := false;
                 configured := false;
                 usage := None;
                 error := Some "Unsupported provider"%string;
                 fetchedAt := Finite (now env) |},
       t).
Proof.
  intros env id t Hid. unfold fetchQuotaForProvider.
  repeat
    match goal with
    | |- context [String.eqb id ?s] =>
        destruct (String.eqb_spec id s) as [Heq | _];
        [ exfalso; apply Hid; rewrite Heq; simpl; tauto | ]
    end.
  reflexivity.
Qed.

Lemma fetchQuotaForProvider_unsupported_witness :
  ~ In "mistral"%string knownProviders
  /\ fetchQuotaForProvider (Sample.env Sample.noStore [] Sample.offline)
                           "mistral" []
     = (Normal {| providerId := "mistral";
                  providerName := "mistral";
                  ok := false;
                  configured := false;
                  usage := None;
                  error := Some "Unsupported provider"%string;
                  fetchedAt := Finite 1700000000000 |},
        []).
Proof.
  assert (H : ~ In "mistral"%string knownProviders).
  { simpl. intuition discriminate. }
  split; [exact H|].
  exact (fetchQuotaForProvider_unsupported
           (Sample.env Sample.noStore [] Sample.offline) "mistral" [] H).
Defined.

(** ** Copilot windows *)

Lemma assoc_obj_set {V : Type} (w : list (string * V)) (k : string) (v : V) :
  assoc k (obj_set w k v) = Some v.
Proof.
  induction w as [| [k' v'] w IH]; simpl.
  - now rewrite String.eqb_refl.
  - destruct (String.eqb k k') eqn:E; simpl; rewrite E; [reflexivity | exact IH].
Qed.

Lemma toNumber_finite (env : Env) (v : JsValue) (n : number) :
  toNumber env v = Some n -> exists q, n = Finite q.
Proof.
  unfold toNumber. destruct v as [| | b | m | s | items | fields]; try discriminate.
  - destruct m as [| sgn | q]; simpl; try discriminate.
    intros [= <-]. now exists q.
  - destruct (Number_ofString env s) as [| sgn | q]; simpl; try discriminate.
    intros [= <-]. now exists q.
Qed.

(** A zero prints as ["0"] under [toFixed(0)], whatever its fraction. *)
Lemma toFixed_zero (env : Env) (q : Q) :
  Num.is_zero q = true -> toFixed env 0 (Finite q) = "0"%string.
Proof.
  unfold Num.is_zero. intros H. apply Qeq_bool_iff in H.
  destruct q as [n d]. unfold Qeq in H. simpl in H.
  assert (n = 0%Z) by lia. subst n.
  unfold toFixed.
  assert (Hbig : Qle_bool (inject_Z (10 ^ 21)) (Qabs (0 # d)) = false).
  { apply Qlt_Qle_bool_false. change (Qabs (0 # d)) with (0 # d).
    unfold Qlt, inject_Z. cbn [Qnum Qden]. rewrite Z.mul_0_l.
    apply Z.mul_pos_pos; [apply Z.pow_pos_nonneg|]; lia. }
  rewrite Hbig.
  assert (Hfloor : Qfloor (Qabs (0 # d) * inject_Z (10 ^ Z.of_nat 0) + (1 # 2)) = 0%Z).
  { change (Qabs (0 # d)) with (0 # d). change (10 ^ Z.of_nat 0)%Z with 1%Z.
    unfold Qfloor, Qplus, Qmult, inject_Z. cbn [Qnum Qden].
    apply Z.div_small. lia. }
  rewrite Hfloor.
  assert (Hneg : Num.is_neg (0 # d) = false).
  { unfold Num.is_neg. replace (Qle_bool 0 (0 # d)) with true; [reflexivity|].
    symmetry. apply Qle_bool_iff. unfold Qle. simpl. lia. }
  rewrite Hneg. reflexivity.
Qed.

Lemma str_nonempty_append_r (a b : string) :
  str_nonempty b = true -> str_nonempty (a ++ b) = true.
Proof. destruct a; simpl; auto. Qed.

(** C10 (as amended): [addWindow] never divides by zero.  For a snapshot
    it accepts, the window it stores has a null used percentage as soon as
    the entitlement coerces to [null] or to [0], and a used percentage is
    only ever the clamped quotient by an entitlement that is not zero.
    The label has its own guard: with an entitlement of [0] and a
    remaining [r] that is not [null], the window still carries the label
    [r.toFixed(0) + ' / 0 left'], which is ['0 / 0 left'] when [r] is
    [0]. *)
Theorem addWindow_guards :
  forall (env : Env) (resetAt : option number) (label : string)
         (snapshot : JsValue) (w : Windows),
    truthy snapshot = true ->
    let entitlement := toNumber env (get snapshot "entitlement") in
    let remaining := toNumber env (get snapshot "remaining") in
    exists win,
      windowAt label (addWindow env resetAt label snapshot w) = Some win
      /\ ((entitlement = None \/ opt_truthy_num entitlement = false) ->
          usedPercent win = None)
      /\ (forall p, usedPercent win = Some p ->
            exists e r,
              entitlement = Some e /\ remaining = Some r
              /\ Num.truthy e = true
              /\ p = Num.max (num 0)
                       (Num.min (num 100) (num 100 - (r / e) * num 100)%num))
      /\ (forall e r,
            entitlement = Some e -> Num.truthy e = false ->
            remaining = Some r ->
            usedPercent win = None
            /\ valueLabel win = Some (toFixed env 0 r ++ " / 0 left")%string
            /\ (Num.truthy r = false ->
                valueLabel win = Some "0 / 0 left"%string)).
Proof.
  intros env resetAt label snapshot w Hs. cbv zeta.
  unfold addWindow. rewrite Hs. simpl negb. cbv iota.
  remember (toNumber env (get snapshot "entitlement")) as entitlement eqn:Hent.
  remember (toNumber env (get snapshot "remaining")) as remaining eqn:Hrem.
  eexists. split; [apply assoc_obj_set|].
  unfold toUsageWindow; cbn [usedPercent valueLabel].
  split; [|split].
  - unfold usedOfRemaining. intros [-> | H]; [reflexivity|].
    destruct entitlement as [e|]; [|reflexivity].
    simpl in H. rewrite H. now destruct remaining.
  - intros p Hp. unfold usedOfRemaining in Hp.
    destruct entitlement as [e|]; [|discriminate].
    destruct remaining as [r|]; [|discriminate].
    destruct (Num.truthy e) eqn:Ee; [|discriminate].
    injection Hp as <-. exists e, r. repeat split; auto.
  - intros e r -> Hz ->. unfold usedOfRemaining. rewrite Hz.
    destruct (toNumber_finite _ _ _ (eq_sym Hent)) as [qe ->].
    simpl in Hz. apply negb_false_iff in Hz.
    rewrite (toFixed_zero env _ Hz).
    split; [reflexivity|].
    assert (Hne : str_nonempty (toFixed env 0 r ++ " / " ++ "0" ++ " left") = true).
    { apply str_nonempty_append_r. reflexivity. }
    rewrite Hne. split; [reflexivity|].
    intros Hrz. destruct (toNumber_finite _ _ _ (eq_sym Hrem)) as [qr ->].
    simpl in Hrz. apply negb_false_iff in Hrz.
    now rewrite (toFixed_zero env _ Hrz).
Qed.

Lemma addWindow_guards_witness :
  truthy Sample.snapshotZeroOfZero = true
  /\ exists win,
       windowAt "chat"
         (addWindow (Sample.env Sample.noStore [] Sample.offline) None "chat"
                    Sample.snapshotZeroOfZero [])
       = Some win
       /\ usedPercent win = None
       /\ valueLabel win = Some "0 / 0 left"%string.
Proof.
  split; [reflexivity|].
  destruct (addWindow_guards (Sample.env Sample.noStore [] Sample.offline)
              None "chat" Sample.snapshotZeroOfZero [] eq_refl)
    as [win [Hwin [_ [_ H]]]].
  exists win. split; [exact Hwin|].
  destruct (H (num 0) (num 0) eq_refl eq_refl eq_refl) as [Hu [_ Hl]].
  split; [exact Hu | exact (Hl eq_refl)].
Defined.

(** C10 (counterexample): for the snapshot [{ entitlement: 0, remaining:
    5 }] the entitlement coerces to [0] and the remaining is not [null],
    yet the label of the window is ['5 / 0 left'], not ['0 / 0 left']. *)
Lemma copilot_label_five_of_zero :
  let env := Sample.env Sample.noStore [] Sample.offline in
  toNumber env (get Sample.snapshotFiveOfZero "entitlement") = Some (num 0)
  /\ toNumber env (get Sample.snapshotFiveOfZero "remaining") = Some (num 5)
  /\ exists win,
       windowAt "chat"
         (buildCopilotWindows env (Sample.copilotPayload Sample.snapshotFiveOfZero))
       = Some win
       /\ usedPercent win = None
       /\ valueLabel win = Some "5 / 0 left"%string
       /\ String.eqb "5 / 0 left" "0 / 0 left" = false.
Proof.
  cbv zeta. split; [reflexivity|]. split; [reflexivity|].
  eexists. split; [reflexivity|]. repeat split.
Qed.

(** ** The z.ai tokens window *)

(** C4 (as amended): the used percentage of the z.ai tokens window is the
    upstream [percentage] field when that field is a number, and [null]
    otherwise: no ratio of other fields is computed. *)
Theorem zaiWindows_usedPercent :
  forall (env : Env) (payload : JsValue) (label : string) (win : UsageWindow),
    In (label, win) (zaiWindows env payload) ->
    let tokensLimit :=
      findTokensLimit (arrayOrEmpty (get (get payload "data") "limits")) in
    usedPercent win
    = match get tokensLimit "percentage" with
      | JNum percentage => Some percentage
      | _ => None
      end
    /\ ((forall p, get tokensLimit "percentage" <> JNum p) ->
        usedPercent win = None).
Proof.
  intros env payload label win Hin. cbv zeta.
  unfold zaiWindows in Hin.
  set (tokensLimit :=
         findTokensLimit (arrayOrEmpty (get (get payload "data") "limits"))) in *.
  destruct (truthy tokensLimit); [|contradiction].
  destruct Hin as [Heq | []]. injection Heq as _ <-.
  unfold toUsageWindow, zaiUsedPercent; cbn [usedPercent].
  split; [reflexivity|].
  intros Hno. destruct (get tokensLimit "percentage") as [| | | p | | |];
    try reflexivity.
  now elim (Hno p).
Qed.

Lemma zaiWindows_usedPercent_witness :
  let env := Sample.env Sample.noStore [] Sample.offline in
  let payload := Sample.zaiPayload Sample.zaiEntryPercentage in
  exists label win,
    In (label, win) (zaiWindows env payload)
    /\ usedPercent win = Some (num 42).
Proof.
  cbv zeta.
  exists "5h"%string.
  exists (toUsageWindow (Sample.env Sample.noStore [] Sample.offline)
            (Some (num 42)) (Some (num 3600 * num 5)%num) None None).
  assert (Hin : In ("5h"%string,
                    toUsageWindow (Sample.env Sample.noStore [] Sample.offline)
                      (Some (num 42)) (Some (num 3600 * num 5)%num) None None)
                   (zaiWindows (Sample.env Sample.noStore [] Sample.offline)
                               (Sample.zaiPayload Sample.zaiEntryPercentage))).
  { left. reflexivity. }
  split; [exact Hin|].
  exact (proj1 (zaiWindows_usedPercent _ _ _ _ Hin)).
Defined.

(** C4 (counterexample): the entry [{ type: 'TOKENS_LIMIT', unit: 3,
    number: 5, usage: 200, currentValue: 100 }] has no [percentage]; the
    ratio of its fields would be 50, the window has [usedPercent] null. *)
Lemma zai_no_ratio_fallback :
  let env := Sample.env Sample.noStore [] Sample.offline in
  zaiUsedPercent Sample.zaiEntryNoPercentage = None
  /\ (exists p,
        zaiUsedPercentPerSpec "currentValue" "usage" Sample.zaiEntryNoPercentage
        = Some p
        /\ (p =? num 50)%num = true)
  /\ exists win,
       zaiWindows env (Sample.zaiPayload Sample.zaiEntryNoPercentage)
       = [("5h"%string, win)]
       /\ usedPercent win = None.
Proof.
  cbv zeta. split; [reflexivity|]. split.
  - eexists. split; reflexivity.
  - eexists. split; reflexivity.
Qed.

(** ** Fail-over across the Google endpoints *)

Lemma tryGoogleEndpoint_usable (env : Env) (endpoint tok pid : string) (t : Trace) :
  tryGoogleEndpoint env endpoint tok pid t
  = (Normal (usableBody (network env t (modelsRequest endpoint tok pid))),
     t ++ [modelsRequest endpoint tok pid]).
Proof.
  unfold tryGoogleEndpoint, try_catch, bind, fetch, json, ret, usableBody.
  destruct (network env t (modelsRequest endpoint tok pid)) as [response | e];
    [|reflexivity].
  destruct (resp_ok response); [|reflexivity].
  now destruct (resp_json response).
Qed.

(** The loop of [fetchGoogleModels] never throws and is the first-usable
    rule, on any list of endpoints. *)
Lemma fetchGoogleModelsFrom_firstUsable (env : Env) (tok pid : string) :
  forall (endpoints : list string) (t : Trace),
    fetchGoogleModelsFrom env endpoints tok pid t
    = (Normal (fst (firstUsableEndpoint env endpoints tok pid t)),
       snd (firstUsableEndpoint env endpoints tok pid t)).
Proof.
  induction endpoints as [| endpoint rest IH]; intros t; [reflexivity|].
  cbn [fetchGoogleModelsFrom firstUsableEndpoint]. unfold bind.
  rewrite tryGoogleEndpoint_usable.
  destruct (usableBody (network env t (modelsRequest endpoint tok pid)));
    [reflexivity | apply IH].
Qed.

(** C7 (as amended): [fetchGoogleModels] tries the three base URLs in the
    order of the list and stops at the first endpoint that yields a usable
    body, that is whose request does not throw, whose status is 2xx and
    whose body parses; it resolves to that body whichever endpoint gave
    it.  An endpoint that throws, in the request or in the parsing, or
    that answers outside 2xx is left for the next one, and when all three
    fail the function resolves to [null]. *)
Theorem fetchGoogleModels_failover :
  forall (env : Env) (tok pid : string) (t : Trace),
    let r1 := modelsRequest "https://daily-cloudcode-pa.sandbox.googleapis.com" tok pid in
    let r2 := modelsRequest "https://autopush-cloudcode-pa.sandbox.googleapis.com" tok pid in
    let r3 := modelsRequest "https://cloudcode-pa.googleapis.com" tok pid in
    fetchGoogleModels env tok pid t
    = match usableBody (network env t r1) with
      | Some body => (Normal body, t ++ [r1])
      | None =>
          match usableBody (network env (t ++ [r1]) r2) with
          | Some body => (Normal body, (t ++ [r1]) ++ [r2])
          | None =>
              match usableBody (network env ((t ++ [r1]) ++ [r2]) r3) with
              | Some body => (Normal body, ((t ++ [r1]) ++ [r2]) ++ [r3])
              | None => (Normal JNull, ((t ++ [r1]) ++ [r2]) ++ [r3])
              end
          end
      end.
Proof.
  intros env tok pid t. cbv zeta. unfold fetchGoogleModels.
  rewrite fetchGoogleModelsFrom_firstUsable.
  unfold Const.GOOGLE_ENDPOINTS, Const.GOOGLE_PRIMARY_ENDPOINT.
  cbn [firstUsableEndpoint].
  repeat match goal with
         | |- context [usableBody ?o] => destruct (usableBody o); [reflexivity|]
         end.
  reflexivity.
Qed.

(** C7 (counterexample): the first endpoint answers 200 with a body that
    does not parse and the second answers 200 with a model list.  The
    function does not stop at the first 2xx response: it issues a second
    request and resolves to the second body, where the rule read
    literally stops after one request. *)
Lemma fetchGoogleModels_skips_unparsable_2xx :
  let env := Sample.env Sample.noStore [] Sample.firstGarbled in
  let r1 := modelsRequest "https://daily-cloudcode-pa.sandbox.googleapis.com" "at" "p" in
  let r2 := modelsRequest "https://autopush-cloudcode-pa.sandbox.googleapis.com" "at" "p" in
  (exists response, network env [] r1 = Normal response /\ resp_ok response = true)
  /\ fetchGoogleModels env "at" "p" [] = (Normal Sample.oneModel, [r1; r2])
  /\ firstOkEndpoint env Const.GOOGLE_ENDPOINTS "at" "p" []
     = (Abrupt (ErrorObject "Unexpected token <"), [r1]).
Proof.
  cbv zeta. split; [|split]; try reflexivity.
  eexists. split; reflexivity.
Qed.

(** Scenario E: the first two endpoints answer 503 and the third answers
    200; its body is the result, after three requests in list order. *)
Example fetchGoogleModels_third_endpoint :
  let env := Sample.env Sample.noStore [] Sample.thirdAnswers in
  fetchGoogleModels env "at" "p" []
  = (Normal Sample.oneModel,
     map (fun endpoint => modelsRequest endpoint "at" "p") Const.GOOGLE_ENDPOINTS).
Proof. reflexivity. Qed.

(** ** The eight bearer-token fetchers and the facade *)

(** One step through the body of a fetcher: the credential test, the
    outcome of the request, the status test, the outcome of [json()]. *)
Ltac step_async env :=
  match goal with
  | |- context [negb (truthy ?v)] =>
      destruct (truthy v); cbn [negb]; cbv beta iota
  | |- context [network env ?t ?r] =>
      destruct (network env t r) as [? | ?]; cbv beta iota
  | |- context [negb (resp_ok ?r)] =>
      destruct (resp_ok r); cbn [negb]; cbv beta iota
  | |- context [resp_json ?r] =>
      destruct (resp_json r) as [? | ?]; cbv beta iota
  end.

Ltac run_fetcher env :=
  cbv zeta; unfold try_catch, bind, fetch, json, ret; cbv beta;
  repeat step_async env.

Lemma buildResult_failure (env : Env) (id name : string) (c : bool)
      (u : option Usage) (msg : option string) :
  answersFor id (buildResult env id name false c u msg).
Proof.
  unfold answersFor, buildResult; cbn [providerId ok error].
  split; [reflexivity|]. split; [discriminate|].
  intros e He. split; [reflexivity|].
  destruct msg as [m|]; [|discriminate].
  destruct m; simpl in He; [discriminate|].
  injection He as <-. discriminate.
Qed.

Lemma buildResult_success (env : Env) (id name : string) (c : bool)
      (u : option Usage) :
  answersFor id (buildResult env id name true c u None).
Proof.
  unfold answersFor, buildResult; cbn [providerId ok error].
  split; [reflexivity|]. split; [reflexivity|]. discriminate.
Qed.

Ltac solve_answers env :=
  run_fetcher env;
  eexists; eexists; (split; [reflexivity|]);
  first [apply buildResult_failure | apply buildResult_success].

Lemma fetchClaudeQuota_answers (env : Env) (t : Trace) :
  exists r t', fetchClaudeQuota env t = (Normal r, t') /\ answersFor "claude" r.
Proof. unfold fetchClaudeQuota. solve_answers env. Qed.

Lemma fetchCodexQuota_answers (env : Env) (t : Trace) :
  exists r t', fetchCodexQuota env t = (Normal r, t') /\ answersFor "codex" r.
Proof. unfold fetchCodexQuota. solve_answers env. Qed.

Lemma fetchCopilotQuota_answers (env : Env) (t : Trace) :
  exists r t',
    fetchCopilotQuota env t = (Normal r, t') /\ answersFor "github-copilot" r.
Proof. unfold fetchCopilotQuota. solve_answers env. Qed.

Lemma fetchCopilotAddonQuota_answers (env : Env) (t : Trace) :
  exists r t',
    fetchCopilotAddonQuota env t = (Normal r, t')
    /\ answersFor "github-copilot-addon" r.
Proof. unfold fetchCopilotAddonQuota. solve_answers env. Qed.

Lemma fetchKimiQuota_answers (env : Env) (t : Trace) :
  exists r t',
    fetchKimiQuota env t = (Normal r, t') /\ answersFor "kimi-for-coding" r.
Proof. unfold fetchKimiQuota. solve_answers env. Qed.

Lemma fetchNanoGptQuota_answers (env : Env) (t : Trace) :
  exists r t', fetchNanoGptQuota env t = (Normal r, t') /\ answersFor "nano-gpt" r.
Proof. unfold fetchNanoGptQuota. solve_answers env. Qed.

Lemma fetchOpenRouterQuota_answers (env : Env) (t : Trace) :
  exists r t',
    fetchOpenRouterQuota env t = (Normal r, t') /\ answersFor "openrouter" r.
Proof. unfold fetchOpenRouterQuota. solve_answers env. Qed.

Lemma fetchZaiQuota_answers (env : Env) (t : Trace) :
  exists r t',
    fetchZaiQuota env t = (Normal r, t') /\ answersFor "zai-coding-plan" r.
Proof. unfold fetchZaiQuota. solve_answers env. Qed.

(** ** The Google fetcher *)

Lemma fetchGoogleQuotaBuckets_resolves (env : Env) (tok pid : string) (t : Trace) :
  exists v t', fetchGoogleQuotaBuckets env tok pid t = (Normal v, t').
Proof.
  unfold fetchGoogleQuotaBuckets. run_fetcher env; eexists; eexists; reflexivity.
Qed.

Lemma fetchGoogleModels_resolves (env : Env) (tok pid : string) (t : Trace) :
  exists v t', fetchGoogleModels env tok pid t = (Normal v, t').
Proof.
  unfold fetchGoogleModels. rewrite fetchGoogleModelsFrom_firstUsable.
  eexists; eexists; reflexivity.
Qed.

Lemma bind_normal {A B : Type} (m : Async A) (k : A -> Async B)
      (t t1 : Trace) (a : A) :
  m t = (Normal a, t1) -> bind m k t = k a t1.
Proof. intros H. unfold bind. now rewrite H. Qed.

Lemma bind_abrupt {A B : Type} (m : Async A) (k : A -> Async B)
      (t t1 : Trace) (e : Thrown) :
  m t = (Abrupt e, t1) -> bind m k t = (Abrupt e, t1).
Proof. intros H. unfold bind. now rewrite H. Qed.

Lemma obj_set_not_nil {V : Type} (o : list (string * V)) (k : string) (v : V) :
  obj_set o k v <> [].
Proof.
  destruct o as [| [k' v'] o]; simpl; [discriminate|].
  destruct (String.eqb k k'); discriminate.
Qed.

Lemma merged_ok_refl (acc : ModelMap * bool) : merged_ok acc acc.
Proof. split; auto. Qed.

Lemma merged_ok_trans (a b c : ModelMap * bool) :
  merged_ok a b -> merged_ok b c -> merged_ok a c.
Proof.
  intros [Hab1 Hab2] [Hbc1 Hbc2]. split; [auto|].
  intros Hc. destruct (Hbc2 Hc) as [Hb | Hne]; [|now right].
  destruct (Hab2 Hb) as [Ha | Hne]; [now left | right; auto].
Qed.

Lemma mergeBucket_ok (env : Env) (sid : string) (acc : ModelMap * bool) (b : JsValue) :
  merged_ok acc (mergeBucket env sid acc b).
Proof.
  unfold mergeBucket. destruct (asNonEmptyString (get b "modelId")).
  - split; intros _; [|right]; apply obj_set_not_nil.
  - apply merged_ok_refl.
Qed.

Lemma mergeModel_ok (env : Env) (sid : string) (acc : ModelMap * bool)
      (entry : string * JsValue) :
  merged_ok acc (mergeModel env sid acc entry).
Proof.
  unfold mergeModel. destruct entry as [name data].
  split; intros _; [|right]; apply obj_set_not_nil.
Qed.

Lemma fold_left_merged_ok {A : Type} (f : ModelMap * bool -> A -> ModelMap * bool) :
  (forall acc x, merged_ok acc (f acc x)) ->
  forall (l : list A) (acc : ModelMap * bool), merged_ok acc (fold_left f l acc).
Proof.
  intros Hf. induction l as [| x l IH]; intros acc; simpl.
  - apply merged_ok_refl.
  - eapply merged_ok_trans; [apply Hf | apply IH].
Qed.

(** Querying a source that holds a token never throws; the models already
    merged stay in the map. *)
Lemma queryGoogleSource_resolves (env : Env) (source : AuthSource) (tok : string)
      (st : GoogleState) (t : Trace) :
  exists st' t',
    queryGoogleSource env source tok st t = (Normal st', t')
    /\ (fst st <> [] -> fst st' <> []).
Proof.
  destruct st as [models errs]. unfold queryGoogleSource. cbv zeta.
  match goal with
  | |- exists st' t', bind ?m ?k t = _ /\ _ =>
      assert (Hb : exists ab t1,
                 m t = (Normal ab, t1) /\ merged_ok (models, false) ab)
  end.
  { destruct (String.eqb (sourceId source) "gemini").
    - match goal with
      | |- context [fetchGoogleQuotaBuckets env tok ?pid] =>
          destruct (fetchGoogleQuotaBuckets_resolves env tok pid t) as [v [t1 Hv]]
      end.
      rewrite (bind_normal _ _ _ _ _ Hv).
      eexists; eexists; split; [reflexivity|].
      apply fold_left_merged_ok. intros; apply mergeBucket_ok.
    - eexists; eexists; split; [reflexivity | apply merged_ok_refl]. }
  destruct Hb as [ab [t1 [Hb Hab]]]. rewrite (bind_normal _ _ _ _ _ Hb).
  match goal with
  | |- context [fetchGoogleModels env tok ?pid] =>
      destruct (fetchGoogleModels_resolves env tok pid t1) as [payload [t2 Hp]]
  end.
  rewrite (bind_normal _ _ _ _ _ Hp).
  eexists; eexists; split; [reflexivity|].
  cbn [fst]. intros Hne.
  assert (Ham : merged_ok ab
                  (if truthy payload
                   then fold_left (mergeModel env (sourceId source))
                          (Object_entries (js_coalesce (get payload "models") (JObj [])))
                          ab
                   else ab)).
  { destruct (truthy payload); [|apply merged_ok_refl].
    apply fold_left_merged_ok. intros; apply mergeModel_ok. }
  apply (proj1 (merged_ok_trans _ _ _ Hab Ham)). exact Hne.
Qed.

(** The one way out of a source step by a throw is the token refresh. *)
Lemma refreshGoogleAccessToken_resolves (env : Env) (rt cid cs : string) (t : Trace) :
  refreshNeverThrows env ->
  exists o t', refreshGoogleAccessToken env rt cid cs t = (Normal o, t').
Proof.
  intros Hnet. unfold refreshGoogleAccessToken, bind, fetch, json, ret.
  destruct (Hnet t (refreshRequest rt cid cs) eq_refl) as [response [Hr Hj]].
  rewrite Hr. destruct (resp_ok response); cbn [negb]; cbv beta iota.
  - destruct (Hj eq_refl) as [data Hd]. rewrite Hd.
    eexists; eexists; reflexivity.
  - eexists; eexists; reflexivity.
Qed.

Lemma googleSourceStep_resolves (env : Env) (source : AuthSource)
      (st : GoogleState) (t : Trace) :
  refreshNeverThrows env ->
  exists st' t',
    googleSourceStep env source st t = (Normal st', t')
    /\ (fst st <> [] -> fst st' <> []).
Proof.
  intros Hnet. unfold googleSourceStep. destruct st as [models errs].
  destruct (negb (opt_str_truthy (accessToken source)) || expired env source).
  - destruct (negb (opt_str_truthy (refreshToken source))).
    + eexists; eexists; split; [reflexivity | auto].
    + destruct (resolveGoogleOAuthClient (sourceId source)) as [cid cs].
      destruct (refreshGoogleAccessToken_resolves
                  env (match refreshToken source with Some r => r | None => EmptyString end)
                  cid cs t Hnet) as [o [t1 Ho]].
      rewrite (bind_normal _ _ _ _ _ Ho). destruct o as [token|].
      * destruct (str_nonempty token).
        -- apply queryGoogleSource_resolves.
        -- eexists; eexists; split; [reflexivity | auto].
      * eexists; eexists; split; [reflexivity | auto].
  - apply queryGoogleSource_resolves.
Qed.

Lemma googleSourcesLoop_resolves (env : Env) :
  refreshNeverThrows env ->
  forall (sources : list AuthSource) (st : GoogleState) (t : Trace),
    exists st' t',
      googleSourcesLoop env sources st t = (Normal st', t')
      /\ (fst st <> [] -> fst st' <> []).
Proof.
  intros Hnet. induction sources as [| source rest IH]; intros st t.
  - eexists; eexists; split; [reflexivity | auto].
  - cbn [googleSourcesLoop].
    destruct (googleSourceStep_resolves env source st t Hnet) as [st1 [t1 [H1 K1]]].
    rewrite (bind_normal _ _ _ _ _ H1).
    destruct (IH st1 t1) as [st2 [t2 [H2 K2]]].
    exists st2, t2. split; [exact H2 | auto].
Qed.

(** Whenever the Google fetcher resolves, the result answers for
    ['google']; [ok] tells whether the merged map holds a model. *)
Lemma fetchGoogleQuota_answers_when_resolved (env : Env) (t t' : Trace)
      (r : ProviderResult) :
  fetchGoogleQuota env t = (Normal r, t') -> answersFor "google" r.
Proof.
  unfold fetchGoogleQuota.
  destruct (resolveGoogleAuthSources env) as [| source rest].
  - intros [= <- _]. apply buildResult_failure.
  - unfold bind.
    destruct (googleSourcesLoop env (source :: rest) ([], []) t)
      as [[[models errs] | e] t1]; [|discriminate].
    destruct models; intros [= <- _];
      [apply buildResult_failure | apply buildResult_success].
Qed.

Lemma fetchGoogleQuota_resolves (env : Env) (t : Trace) :
  refreshNeverThrows env ->
  exists r t', fetchGoogleQuota env t = (Normal r, t') /\ answersFor "google" r.
Proof.
  intros Hnet.
  assert (H : exists r t', fetchGoogleQuota env t = (Normal r, t')).
  { unfold fetchGoogleQuota.
    destruct (resolveGoogleAuthSources env) as [| source rest].
    - eexists; eexists; reflexivity.
    - destruct (googleSourcesLoop_resolves env Hnet (source :: rest) ([], []) t)
        as [[models errs] [t1 [H1 _]]].
      rewrite (bind_normal _ _ _ _ _ H1). destruct models; eexists; eexists; reflexivity. }
  destruct H as [r [t' H]]. exists r, t'. split; [exact H|].
  exact (fetchGoogleQuota_answers_when_resolved _ _ _ _ H).
Qed.

(** With at least one auth source, a loop that completes decides the
    result: [configured] is true and [ok] tells whether a model was
    merged. *)
Lemma fetchGoogleQuota_when_loop_completes (env : Env) (t t' : Trace)
      (models : ModelMap) (errs : list string) :
  resolveGoogleAuthSources env <> [] ->
  googleSourcesLoop env (resolveGoogleAuthSources env) ([], []) t
  = (Normal (models, errs), t') ->
  exists r,
    fetchGoogleQuota env t = (Normal r, t')
    /\ configured r = true
    /\ (ok r = true <-> models <> [])
    /\ (ok r = false <-> models = []).
Proof.
  intros Hsrc Hloop. unfold fetchGoogleQuota.
  destruct (resolveGoogleAuthSources env) as [| source rest]; [contradiction|].
  rewrite (bind_normal _ _ _ _ _ Hloop).
  destruct models as [| m ms]; eexists; (split; [reflexivity|]);
    cbn [configured ok buildResult]; (split; [reflexivity|]);
    split; split; intros H; try reflexivity; try discriminate;
    try (now elim H).
Qed.

(** ** The error invariant, away from empty messages *)

Lemma buildResult_failure_full (env : Env) (id name : string) (c : bool)
      (u : option Usage) (msg : string) :
  str_nonempty msg = true ->
  errorIffNotOk (buildResult env id name false c u (Some msg)).
Proof.
  intros Hmsg. unfold errorIffNotOk, buildResult; cbn [ok error].
  rewrite Hmsg. split; split; try discriminate.
  - intros _. exists msg. split; [reflexivity|].
    intros ->. discriminate.
  - reflexivity.
Qed.

Lemma buildResult_success_full (env : Env) (id name : string) (c : bool)
      (u : option Usage) :
  errorIffNotOk (buildResult env id name true c u None).
Proof.
  unfold errorIffNotOk, buildResult; cbn [ok error].
  split; split; try discriminate; try reflexivity.
  intros [e [He _]]. discriminate.
Qed.

Lemma errorMessage_nonempty (e : Thrown) :
  e <> ErrorObject EmptyString -> str_nonempty (errorMessage e) = true.
Proof.
  destruct e as [m | v]; simpl; [|reflexivity].
  destruct m; [intros H; now elim H | reflexivity].
Qed.

(** The steps of [step_async], keeping what the network answered. *)
Ltac step_async_eq env Hnet :=
  match goal with
  | |- context [negb (truthy ?v)] =>
      destruct (truthy v); cbn [negb]; cbv beta iota
  | |- context [network env ?t ?r] =>
      let Hn := fresh "Hn" in
      let Hne := fresh "Hne" in
      pose proof (proj1 (Hnet t r)) as Hne;
      pose proof (proj2 (Hnet t r)) as Hn;
      destruct (network env t r) as [? | ?]; cbv beta iota
  | |- context [negb (resp_ok ?r)] =>
      destruct (resp_ok r); cbn [negb]; cbv beta iota
  | |- context [resp_json ?r] =>
      let Hj := fresh "Hj" in
      match goal with
      | Hn : forall response, Normal r = Normal response -> _ |- _ =>
          pose proof (Hn r eq_refl) as Hj
      end;
      destruct (resp_json r) as [? | ?]; cbv beta iota
  end.

Ltac solve_full env Hnet :=
  cbv zeta; unfold try_catch, bind, fetch, json, ret; cbv beta;
  repeat step_async_eq env Hnet;
  eexists; eexists; (split; [reflexivity|]);
  first [ apply buildResult_success_full
        | apply buildResult_failure_full;
          first [ reflexivity | apply errorMessage_nonempty; congruence ] ].

(** On a network whose errors all carry a message, the eight bearer-token
    fetchers keep the invariant in full. *)
Lemma bearer_fetchers_error_iff_not_ok (env : Env) (t : Trace) :
  messagesNonEmpty env ->
  (exists r t', fetchClaudeQuota env t = (Normal r, t') /\ errorIffNotOk r)
  /\ (exists r t', fetchCodexQuota env t = (Normal r, t') /\ errorIffNotOk r)
  /\ (exists r t', fetchCopilotQuota env t = (Normal r, t') /\ errorIffNotOk r)
  /\ (exists r t', fetchCopilotAddonQuota env t = (Normal r, t') /\ errorIffNotOk r)
  /\ (exists r t', fetchKimiQuota env t = (Normal r, t') /\ errorIffNotOk r)
  /\ (exists r t', fetchNanoGptQuota env t = (Normal r, t') /\ errorIffNotOk r)
  /\ (exists r t', fetchOpenRouterQuota env t = (Normal r, t') /\ errorIffNotOk r)
  /\ (exists r t', fetchZaiQuota env t = (Normal r, t') /\ errorIffNotOk r).
Proof.
  intros Hnet. repeat split.
  - unfold fetchClaudeQuota. solve_full env Hnet.
  - unfold fetchCodexQuota. solve_full env Hnet.
  - unfold fetchCopilotQuota. solve_full env Hnet.
  - unfold fetchCopilotAddonQuota. solve_full env Hnet.
  - unfold fetchKimiQuota. solve_full env Hnet.
  - unfold fetchNanoGptQuota. solve_full env Hnet.
  - unfold fetchOpenRouterQuota. solve_full env Hnet.
  - unfold fetchZaiQuota. solve_full env Hnet.
Qed.


Lemma Forall_push {A : Type} (P : A -> Prop) (l : list A) (x : A) :
  Forall P l -> P x -> Forall P (push l x).
Proof.
  intros Hl Hx. unfold push. apply Forall_app. split; [exact Hl|].
  constructor; [exact Hx | constructor].
Qed.

Lemma bind_inv {A B : Type} (m : Async A) (k : A -> Async B)
      (t t' : Trace) (b : B) :
  bind m k t = (Normal b, t') ->
  exists a t1, m t = (Normal a, t1) /\ k a t1 = (Normal b, t').
Proof.
  unfold bind. destruct (m t) as [[a | e] t1]; [|discriminate].
  intros H. now exists a, t1.
Qed.

(** Every message pushed on [sourceErrors] is a non-empty string. *)
Lemma queryGoogleSource_errors (env : Env) (source : AuthSource) (tok : string)
      (st st' : GoogleState) (t t' : Trace) :
  queryGoogleSource env source tok st t = (Normal st', t') ->
  Forall (fun e => str_nonempty e = true) (snd st) ->
  Forall (fun e => str_nonempty e = true) (snd st').
Proof.
  destruct st as [models errs]. unfold queryGoogleSource. cbv zeta.
  intros H Herrs. cbn [snd] in Herrs.
  apply bind_inv in H. destruct H as [ab [t1 [_ H]]].
  apply bind_inv in H. destruct H as [payload [t2 [_ H]]].
  unfold ret in H. injection H as <- _. cbn [snd].
  match goal with
  | |- context [if ?b then errs else _] => destruct b
  end; [exact Herrs|].
  apply Forall_push; [exact Herrs|].
  apply str_nonempty_append_r. reflexivity.
Qed.

Lemma googleSourceStep_errors (env : Env) (source : AuthSource)
      (st st' : GoogleState) (t t' : Trace) :
  googleSourceStep env source st t = (Normal st', t') ->
  Forall (fun e => str_nonempty e = true) (snd st) ->
  Forall (fun e => str_nonempty e = true) (snd st').
Proof.
  unfold googleSourceStep. destruct st as [models errs].
  intros H Herrs.
  assert (Hpush : forall msg : string,
             str_nonempty msg = true ->
             Forall (fun e => str_nonempty e = true)
                    (push errs (sourceLabel source ++ msg)%string)).
  { intros msg Hmsg. apply Forall_push; [exact Herrs|].
    now apply str_nonempty_append_r. }
  destruct (negb (opt_str_truthy (accessToken source)) || expired env source).
  - destruct (negb (opt_str_truthy (refreshToken source))).
    + unfold ret in H. injection H as <- _. now apply Hpush.
    + destruct (resolveGoogleOAuthClient (sourceId source)) as [cid cs].
      apply bind_inv in H. destruct H as [o [t1 [_ H]]].
      destruct o as [token|].
      * destruct (str_nonempty token).
        -- exact (queryGoogleSource_errors _ _ _ _ _ _ _ H Herrs).
        -- unfold ret in H. injection H as <- _. now apply Hpush.
      * unfold ret in H. injection H as <- _. now apply Hpush.
  - exact (queryGoogleSource_errors _ _ _ _ _ _ _ H Herrs).
Qed.

Lemma googleSourcesLoop_errors (env : Env) :
  forall (sources : list AuthSource) (st st' : GoogleState) (t t' : Trace),
    googleSourcesLoop env sources st t = (Normal st', t') ->
    Forall (fun e => str_nonempty e = true) (snd st) ->
    Forall (fun e => str_nonempty e = true) (snd st').
Proof.
  induction sources as [| source rest IH]; intros st st' t t' H Herrs.
  - unfold googleSourcesLoop, ret in H. now injection H as <- _.
  - cbn [googleSourcesLoop] in H.
    apply bind_inv in H. destruct H as [st1 [t1 [H1 H2]]].
    apply (IH _ _ _ _ H2).
    exact (googleSourceStep_errors _ _ _ _ _ _ H1 Herrs).
Qed.

(** Whenever the Google fetcher resolves, its result keeps the invariant
    in full: its error strings are never taken from a thrown error. *)
Lemma fetchGoogleQuota_error_iff_not_ok (env : Env) (t t' : Trace)
      (r : ProviderResult) :
  fetchGoogleQuota env t = (Normal r, t') -> errorIffNotOk r.
Proof.
  unfold fetchGoogleQuota.
  destruct (resolveGoogleAuthSources env) as [| source rest].
  - intros [= <- _]. now apply buildResult_failure_full.
  - intros H. apply bind_inv in H.
    destruct H as [[models errs] [t1 [Hloop H]]].
    pose proof (googleSourcesLoop_errors _ _ _ _ _ _ Hloop (Forall_nil _)) as Herrs.
    cbn [snd] in Herrs.
    destruct models; injection H as <- _.
    + apply buildResult_failure_full.
      destruct errs as [| first others]; [reflexivity|].
      now inversion Herrs.
    + apply buildResult_success_full.
Qed.

(** On a network whose errors all carry a message, every result of the
    facade keeps the invariant in full. *)
Lemma fetchQuotaForProvider_error_iff_not_ok (env : Env) (id : string)
      (t t' : Trace) (r : ProviderResult) :
  messagesNonEmpty env ->
  fetchQuotaForProvider env id t = (Normal r, t') -> errorIffNotOk r.
Proof.
  intros Hnet.
  destruct (bearer_fetchers_error_iff_not_ok env t Hnet)
    as (Claude & Codex & Copilot & Addon & Kimi & Nano & Router & Zai).
  unfold fetchQuotaForProvider.
  repeat
    match goal with
    | |- context [String.eqb id ?s] =>
        destruct (String.eqb_spec id s) as [-> | _]
    end.
  - destruct Claude as (r0 & t0 & H0 & K0). rewrite H0. now intros [= <- _].
  - destruct Codex as (r0 & t0 & H0 & K0). rewrite H0. now intros [= <- _].
  - destruct Copilot as (r0 & t0 & H0 & K0). rewrite H0. now intros [= <- _].
  - destruct Addon as (r0 & t0 & H0 & K0). rewrite H0. now intros [= <- _].
  - apply fetchGoogleQuota_error_iff_not_ok.
  - destruct Kimi as (r0 & t0 & H0 & K0). rewrite H0. now intros [= <- _].
  - destruct Nano as (r0 & t0 & H0 & K0). rewrite H0. now intros [= <- _].
  - destruct Router as (r0 & t0 & H0 & K0). rewrite H0. now intros [= <- _].
  - destruct Zai as (r0 & t0 & H0 & K0). rewrite H0. now intros [= <- _].
  - intros [= <- _]. now apply buildResult_failure_full.
Qed.

(** ** The enumerator against the fetchers *)

(** The two credential tests differ exactly on a first field that is
    falsy without being [null] or [undefined], followed by a truthy
    second field. *)
Lemma credential_tests_disagree_iff (a b : JsValue) :
  truthy (js_or a b) <> truthy (js_coalesce a b)
  <-> (truthy a = false /\ nullish a = false /\ truthy b = true).
Proof.
  unfold js_or, js_coalesce.
  destruct (truthy a) eqn:Ta, (nullish a) eqn:Na.
  - destruct a; simpl in *; discriminate.
  - rewrite Ta. split; [intros H; now elim H | intros [H _]; discriminate].
  - split; [intros H; now elim H | intros [_ [H _]]; discriminate].
  - rewrite Ta. destruct (truthy b).
    + split; [auto | intros _; discriminate].
    + split; [intros H; now elim H | intros [_ [_ H]]; discriminate].
Qed.

Lemma In_set_add (s : list string) (id x : string) :
  In x (set_add s id) <-> In x s \/ x = id.
Proof.
  unfold set_add, push. destruct (existsb (String.eqb id) s) eqn:E.
  - apply existsb_exists in E. destruct E as [y [Hy Heq]].
    apply String.eqb_eq in Heq. subst y.
    split; [auto | intros [H | ->]; assumption].
  - rewrite in_app_iff. simpl. intuition.
Qed.

Lemma In_addWhen (b : bool) (ids s : list string) (x : string) :
  In x (addWhen b ids s) <-> In x s \/ (b = true /\ In x ids).
Proof.
  unfold addWhen. destruct b.
  - revert s. induction ids as [| id ids IH]; intros s; simpl.
    + intuition.
    + rewrite IH, In_set_add. intuition.
  - intuition discriminate.
Qed.

(** ['claude'] is listed exactly when the [||] test of line 175 passes;
    [fetchClaudeQuota] is configured exactly when the [??] test of line
    629 passes. *)
Lemma listConfigured_claude (env : Env) :
  In "claude"%string (listConfiguredQuotaProviders env)
  <-> truthy (js_or (get (lookupAuth env ["anthropic"; "claude"]%string) "access")
                    (get (lookupAuth env ["anthropic"; "claude"]%string) "token"))
      = true.
Proof.
  unfold listConfiguredQuotaProviders. cbv zeta.
  repeat rewrite In_addWhen. simpl In.
  intuition discriminate.
Qed.

Lemma fetchClaudeQuota_configured (env : Env) (t : Trace) :
  exists r t',
    fetchClaudeQuota env t = (Normal r, t')
    /\ configured r
       = truthy (js_coalesce
                   (get (lookupAuth env ["anthropic"; "claude"]%string) "access")
                   (get (lookupAuth env ["anthropic"; "claude"]%string) "token")).
Proof.
  unfold fetchClaudeQuota. cbv zeta.
  destruct (truthy (js_coalesce
                      (get (lookupAuth env ["anthropic"; "claude"]%string) "access")
                      (get (lookupAuth env ["anthropic"; "claude"]%string) "token")));
    cbn [negb]; cbv iota;
    unfold try_catch, bind, fetch, json, ret; repeat step_async env;
    eexists; eexists; split; reflexivity.
Qed.

(** So the enumerator and [fetchClaudeQuota] agree on every store whose
    [access] field is not an empty string, a zero, [NaN] or [false]
    standing before a usable [token]. *)
Lemma claude_listing_agrees (env : Env) (t : Trace) :
  let entry := lookupAuth env ["anthropic"; "claude"]%string in
  ~ (truthy (get entry "access") = false
     /\ nullish (get entry "access") = false
     /\ truthy (get entry "token") = true) ->
  exists r t',
    fetchClaudeQuota env t = (Normal r, t')
    /\ (In "claude"%string (listConfiguredQuotaProviders env)
        <-> configured r = true).
Proof.
  intros entry Hagree.
  destruct (fetchClaudeQuota_configured env t) as [r [t' [Hr Hc]]].
  exists r, t'. split; [exact Hr|].
  rewrite listConfigured_claude, Hc. fold entry.
  destruct (Bool.bool_dec (truthy (js_or (get entry "access") (get entry "token")))
                          (truthy (js_coalesce (get entry "access") (get entry "token"))))
    as [Heq | Hne].
  - now rewrite Heq.
  - apply credential_tests_disagree_iff in Hne. contradiction.
Qed.

(** ** The facade over all nine fetchers *)

Lemma fetchQuotaForProvider_answers_when_resolved (env : Env) (id : string)
      (t t' : Trace) (r : ProviderResult) :
  fetchQuotaForProvider env id t = (Normal r, t') -> answersFor id r.
Proof.
  unfold fetchQuotaForProvider.
  repeat
    match goal with
    | |- context [String.eqb id ?s] =>
        destruct (String.eqb_spec id s) as [-> | _]
    end.
  - destruct (fetchClaudeQuota_answers env t) as [r0 [t0 [H0 A0]]].
    rewrite H0. now intros [= <- _].
  - destruct (fetchCodexQuota_answers env t) as [r0 [t0 [H0 A0]]].
    rewrite H0. now intros [= <- _].
  - destruct (fetchCopilotQuota_answers env t) as [r0 [t0 [H0 A0]]].
    rewrite H0. now intros [= <- _].
  - destruct (fetchCopilotAddonQuota_answers env t) as [r0 [t0 [H0 A0]]].
    rewrite H0. now intros [= <- _].
  - apply fetchGoogleQuota_answers_when_resolved.
  - destruct (fetchKimiQuota_answers env t) as [r0 [t0 [H0 A0]]].
    rewrite H0. now intros [= <- _].
  - destruct (fetchNanoGptQuota_answers env t) as [r0 [t0 [H0 A0]]].
    rewrite H0. now intros [= <- _].
  - destruct (fetchOpenRouterQuota_answers env t) as [r0 [t0 [H0 A0]]].
    rewrite H0. now intros [= <- _].
  - destruct (fetchZaiQuota_answers env t) as [r0 [t0 [H0 A0]]].
    rewrite H0. now intros [= <- _].
  - intros [= <- _]. apply buildResult_failure.
Qed.

(** The facade resolves for every identifier but ['google'], and for
    ['google'] too on a network whose token endpoint never throws. *)
Lemma fetchQuotaForProvider_resolves (env : Env) (id : string) (t : Trace) :
  id <> "google"%string \/ refreshNeverThrows env ->
  exists r t',
    fetchQuotaForProvider env id t = (Normal r, t') /\ answersFor id r.
Proof.
  intros Hside.
  assert (H : exists r t', fetchQuotaForProvider env id t = (Normal r, t')).
  { unfold fetchQuotaForProvider.
    repeat
      match goal with
      | |- context [String.eqb id ?s] =>
          destruct (String.eqb_spec id s) as [-> | _]
      end.
    - destruct (fetchClaudeQuota_answers env t) as [r0 [t0 [H0 _]]]; eauto.
    - destruct (fetchCodexQuota_answers env t) as [r0 [t0 [H0 _]]]; eauto.
    - destruct (fetchCopilotQuota_answers env t) as [r0 [t0 [H0 _]]]; eauto.
    - destruct (fetchCopilotAddonQuota_answers env t) as [r0 [t0 [H0 _]]]; eauto.
    - destruct Hside as [Hne | Hnet]; [now elim Hne|].
      destruct (fetchGoogleQuota_resolves env t Hnet) as [r0 [t0 [H0 _]]]; eauto.
    - destruct (fetchKimiQuota_answers env t) as [r0 [t0 [H0 _]]]; eauto.
    - destruct (fetchNanoGptQuota_answers env t) as [r0 [t0 [H0 _]]]; eauto.
    - destruct (fetchOpenRouterQuota_answers env t) as [r0 [t0 [H0 _]]]; eauto.
    - destruct (fetchZaiQuota_answers env t) as [r0 [t0 [H0 _]]]; eauto.
    - eexists; eexists; reflexivity. }
  destruct H as [r [t' H]]. exists r, t'. split; [exact H|].
  exact (fetchQuotaForProvider_answers_when_resolved _ _ _ _ _ H).
Qed.

(** C1 (the code on the failing input): the store holds a Gemini entry
    with a refresh token and no access token.  When the request to the
    token endpoint throws, and when its 200 answer does not parse,
    [fetchQuotaForProvider('google')] rejects with the thrown error: no
    [ProviderResult] reaches the caller. *)
Theorem fetchQuotaForProvider_google_rejects :
  fst (fetchQuotaForProvider
         (Sample.env Sample.geminiRefreshOnly [] Sample.offline) "google" [])
  = Abrupt (ErrorObject "fetch failed")
  /\ fst (fetchQuotaForProvider
            (Sample.env Sample.geminiRefreshOnly [] Sample.garbled) "google" [])
     = Abrupt (ErrorObject "Unexpected end of JSON input").
Proof. split; reflexivity. Qed.

(** C5 (the code on the failing input): the Gemini source holds a live
    token and its model listing answers with one model, so that source
    alone gives [ok:true]; with a second, Antigravity source whose token
    refresh throws, the whole fetch rejects and the merged model is
    lost. *)
Theorem fetchGoogleQuota_partial_success_lost :
  (exists r t',
      fetchGoogleQuota
        (Sample.env Sample.geminiLive [] Sample.modelsUpTokenDown) []
      = (Normal r, t')
      /\ ok r = true /\ configured r = true)
  /\ length (resolveGoogleAuthSources
               (Sample.env Sample.geminiLive [Sample.antigravityAccounts]
                           Sample.modelsUpTokenDown)) = 2%nat
  /\ fst (fetchGoogleQuota
            (Sample.env Sample.geminiLive [Sample.antigravityAccounts]
                        Sample.modelsUpTokenDown) [])
     = Abrupt (ErrorObject "fetch failed").
Proof.
  split; [|split; reflexivity].
  eexists; eexists. split; [reflexivity|]. split; reflexivity.
Qed.

(** C6 (the code on the failing input): the store holds a Claude secret
    and the request throws an [Error] whose message is the empty string.
    The result is [ok:false], [configured:true] and has no [error]
    property. *)
Theorem fetchClaudeQuota_empty_message :
  exists r t',
    fetchQuotaForProvider
      (Sample.env Sample.bareClaude [] Sample.silentFailure) "claude" []
    = (Normal r, t')
    /\ ok r = false /\ configured r = true /\ error r = None
    /\ ~ errorIffNotOk r.
Proof.
  eexists; eexists. split; [reflexivity|]. repeat split.
  intros [[H _] _]. destruct (H eq_refl) as [e [He _]]. discriminate.
Qed.

(** C3 (the code on the failing input): under the store [{ anthropic:
    { access: '', token: 'abc' } }] the enumerator lists ['claude'] while
    [fetchClaudeQuota] answers [configured:false] without any request;
    the same holds of ['kimi-for-coding'] under [{ kimi: { key: '',
    token: 'abc' } }]. *)
Theorem enumerator_disagrees_with_fetchers :
  (In "claude"%string
      (listConfiguredQuotaProviders
         (Sample.env Sample.emptyAccess [] Sample.offline))
   /\ exists r,
        fetchClaudeQuota (Sample.env Sample.emptyAccess [] Sample.offline) []
        = (Normal r, [])
        /\ configured r = false /\ error r = Some "Not configured"%string)
  /\ (In "kimi-for-coding"%string
         (listConfiguredQuotaProviders
            (Sample.env Sample.emptyKey [] Sample.offline))
      /\ exists r,
           fetchKimiQuota (Sample.env Sample.emptyKey [] Sample.offline) []
           = (Normal r, [])
           /\ configured r = false /\ error r = Some "Not configured"%string).
Proof.
  split; (split; [left; reflexivity|]);
    eexists; (split; [reflexivity|]); split; reflexivity.
Qed.

(** * Further properties of the module *)

(** ** The countdown *)

Lemma Num_lt_inject (a b : Z) :
  Num.lt (Finite (inject_Z a)) (num b) = (a <? b)%Z.
Proof.
  unfold Num.lt, num, Num.of_Z, Qle_bool, inject_Z. cbn [Qnum Qden].
  rewrite !Z.mul_1_r. rewrite Z.ltb_antisym. reflexivity.
Qed.

Lemma Num_le_inject (a b : Z) :
  Num.le (num a) (Finite (inject_Z b)) = (a <=? b)%Z.
Proof.
  unfold Num.le, num, Num.of_Z, Qle_bool, inject_Z. cbn [Qnum Qden].
  now rewrite !Z.mul_1_r.
Qed.

(** The countdown to a finite instant other than [0], in full. *)
Lemma calculateResetAfterSeconds_finite (env : Env) (q : Q) :
  Num.is_zero q = false ->
  calculateResetAfterSeconds env (Some (Finite q))
  = Some (Finite (inject_Z (Z.max 0 (Qfloor ((q - now env) / inject_Z 1000))))).
Proof.
  intros Hz. unfold calculateResetAfterSeconds. cbn [Num.truthy]. rewrite Hz.
  cbn [negb].
  change (Num.floor ((Finite q - Finite (now env)) / num 1000)%num)
    with (Finite (inject_Z (Qfloor ((q - now env) / inject_Z 1000)))).
  rewrite Num_lt_inject.
  destruct (Z.ltb_spec (Qfloor ((q - now env) / inject_Z 1000)) 0).
  - rewrite Z.max_l by lia. reflexivity.
  - rewrite Z.max_r by lia. reflexivity.
Qed.

(** X1: the countdown of a window is never negative and never [NaN]: it
    is [null] exactly when the reset instant is [null], [0] or [NaN], and
    an instant that is not in the future counts as [0] seconds. *)
Theorem resetAfterSeconds_never_negative :
  forall (env : Env) (used seconds resetAt : option number) (label : option string),
    let win := toUsageWindow env used seconds resetAt label in
    (resetAfterSeconds win = None <-> opt_truthy_num resetAt = false)
    /\ (forall s, resetAfterSeconds win = Some s ->
                  Num.le (num 0) s = true /\ Num.isNaN s = false)
    /\ (forall q, resetAt = Some (Finite q) -> ~ q == 0 -> q <= now env ->
                  resetAfterSeconds win = Some (num 0)).
Proof.
  intros env used seconds resetAt label. cbv zeta.
  change (resetAfterSeconds (toUsageWindow env used seconds resetAt label))
    with (calculateResetAfterSeconds env resetAt).
  assert (Hzero : forall q, ~ q == 0 -> Num.is_zero q = false).
  { intros q Hq. unfold Num.is_zero. destruct (Qeq_bool q 0) eqn:E; [|reflexivity].
    apply Qeq_bool_iff in E. contradiction. }
  split; [|split].
  - unfold calculateResetAfterSeconds, opt_truthy_num.
    destruct resetAt as [r|]; [|tauto].
    destruct (Num.truthy r); simpl; split; intros H; congruence.
  - intros s. destruct resetAt as [[| sgn | q] |]; try discriminate.
    + destruct sgn; intros [= <-]; split; reflexivity.
    + destruct (Num.is_zero q) eqn:Hz.
      * unfold calculateResetAfterSeconds. cbn [Num.truthy]. rewrite Hz.
        discriminate.
      * rewrite (calculateResetAfterSeconds_finite env q Hz).
        intros [= <-]. split; [|reflexivity].
        rewrite Num_le_inject. apply Z.leb_le. lia.
  - intros q -> Hq Hnow.
    rewrite (calculateResetAfterSeconds_finite env q (Hzero q Hq)).
    assert (Hfloor : (Qfloor ((q - now env) / inject_Z 1000) <= 0)%Z).
    { change 0%Z with (Qfloor 0). apply Qfloor_resp_le.
      unfold Qdiv. setoid_replace 0 with (0 * / inject_Z 1000) by ring.
      apply Qmult_le_compat_r; [lra | discriminate]. }
    rewrite Z.max_l by lia. reflexivity.
Qed.

(** ** The bearer-token fetchers, case by case *)

(** The steps of [step_async], keeping each outcome as an equation. *)
Ltac step_keep env :=
  match goal with
  | |- context [negb (truthy ?v)] =>
      let H := fresh "Hcred" in
      destruct (truthy v) eqn:H; cbn [negb]; cbv beta iota
  | |- context [network env ?t ?r] =>
      let H := fresh "Hnet" in
      destruct (network env t r) eqn:H; cbv beta iota
  | |- context [negb (resp_ok ?r)] =>
      let H := fresh "Hok" in
      destruct (resp_ok r) eqn:H; cbn [negb]; cbv beta iota
  | |- context [resp_json ?r] =>
      let H := fresh "Hjson" in
      destruct (resp_json r) eqn:H; cbv beta iota
  end.

Ltac taxonomy_case env :=
  cbv [fetchQuotaForProvider credentialOf credentialAliases credentialField
       authScheme usageEndpoint String.eqb Ascii.eqb Bool.eqb];
  unfold fetchClaudeQuota, fetchCodexQuota, fetchCopilotQuota,
    fetchCopilotAddonQuota, fetchKimiQuota, fetchNanoGptQuota,
    fetchOpenRouterQuota, fetchZaiQuota;
  cbv zeta; unfold try_catch, bind, fetch, json, ret; cbv beta;
  repeat step_keep env;
  eexists;
  [ right; split; [reflexivity|]; eexists; split; [reflexivity|];
    repeat (split; [reflexivity|]);
    unfold reflectsOutcome;
    repeat match goal with
           | H : _ = _ |- _ => rewrite H
           end;
    unfold caughtError, buildResult, apiError; cbn [configured ok usage error];
    repeat split;
    try (eexists; reflexivity);
    try (match goal with
         | |- context [str_nonempty ?m] => destruct (str_nonempty m); reflexivity
         end) ..
  | left; split; [reflexivity|]; split; [reflexivity|];
    unfold notConfigured; repeat split ].



(** ** Requests: none without a credential, and a bound with one *)

Ltac no_request_case env :=
  unfold fetchClaudeQuota, fetchCodexQuota, fetchCopilotQuota,
    fetchCopilotAddonQuota, fetchKimiQuota, fetchNanoGptQuota,
    fetchOpenRouterQuota, fetchZaiQuota;
  cbv zeta; unfold try_catch, bind, fetch, json, ret; cbv beta;
  repeat step_async env;
  intros [= <- <-]; cbn [configured buildResult]; intros Hc;
  first [reflexivity | discriminate Hc].

Lemma bearer_unconfigured_no_request (env : Env) (t t' : Trace) (r : ProviderResult) :
  (fetchClaudeQuota env t = (Normal r, t') -> configured r = false -> t' = t)
  /\ (fetchCodexQuota env t = (Normal r, t') -> configured r = false -> t' = t)
  /\ (fetchCopilotQuota env t = (Normal r, t') -> configured r = false -> t' = t)
  /\ (fetchCopilotAddonQuota env t = (Normal r, t') -> configured r = false -> t' = t)
  /\ (fetchKimiQuota env t = (Normal r, t') -> configured r = false -> t' = t)
  /\ (fetchNanoGptQuota env t = (Normal r, t') -> configured r = false -> t' = t)
  /\ (fetchOpenRouterQuota env t = (Normal r, t') -> configured r = false -> t' = t)
  /\ (fetchZaiQuota env t = (Normal r, t') -> configured r = false -> t' = t).
Proof. repeat split; no_request_case env. Qed.

Lemma google_unconfigured_no_request (env : Env) (t t' : Trace) (r : ProviderResult) :
  fetchGoogleQuota env t = (Normal r, t') -> configured r = false -> t' = t.
Proof.
  unfold fetchGoogleQuota.
  destruct (resolveGoogleAuthSources env) as [| source rest].
  - unfold ret. now intros [= <- <-].
  - intros H. apply bind_inv in H.
    destruct H as [[models errs] [t1 [_ H]]].
    destruct models; unfold ret in H; injection H as <- _; discriminate.
Qed.

(** X3: a result with [configured:false] was produced without any
    request: for the nine known providers and for an unknown identifier
    alike, the trace of requests is left as it was. *)
Theorem unconfigured_makes_no_request :
  forall (env : Env) (id : string) (t t' : Trace) (r : ProviderResult),
    fetchQuotaForProvider env id t = (Normal r, t') ->
    configured r = false ->
    t' = t.
Proof.
  intros env id t t' r.
  destruct (bearer_unconfigured_no_request env t t' r)
    as (Claude & Codex & Copilot & Addon & Kimi & Nano & Router & Zai).
  unfold fetchQuotaForProvider.
  repeat
    match goal with
    | |- context [String.eqb id ?s] =>
        destruct (String.eqb_spec id s) as [-> | _]
    end; try assumption.
  - apply google_unconfigured_no_request.
  - unfold ret. now intros [= <- <-].
Qed.

Lemma unconfigured_makes_no_request_witness :
  exists r t',
    fetchQuotaForProvider (Sample.env Sample.emptyAccess [] Sample.offline)
                          "claude" []
    = (Normal r, t')
    /\ configured r = false
    /\ t' = [].
Proof.
  exists (buildResult (Sample.env Sample.emptyAccess [] Sample.offline)
            "claude" "Claude" false false None (Some "Not configured"%string)).
  exists [].
  assert (H : fetchQuotaForProvider
                (Sample.env Sample.emptyAccess [] Sample.offline) "claude" []
              = (Normal (buildResult
                           (Sample.env Sample.emptyAccess [] Sample.offline)
                           "claude" "Claude" false false None
                           (Some "Not configured"%string)), [])) by reflexivity.
  split; [exact H|]. split; [reflexivity|].
  exact (unconfigured_makes_no_request _ _ _ _ _ H eq_refl).
Defined.

(** ** A bound on the requests of one call *)

Lemma appends_weaken {A : Type} (n n' : nat) (m : Async A) :
  (n <= n')%nat -> appendsAtMost n m -> appendsAtMost n' m.
Proof.
  intros Hle Hm t. destruct (Hm t) as [ext [H L]].
  exists ext. split; [exact H | lia].
Qed.

Lemma appends_ret {A : Type} (a : A) : appendsAtMost 0 (ret a).
Proof. intros t. exists []. split; [simpl; now rewrite app_nil_r | simpl; lia]. Qed.

Lemma appends_json (r : Response) : appendsAtMost 0 (json r).
Proof. intros t. exists []. split; [simpl; now rewrite app_nil_r | simpl; lia]. Qed.

Lemma appends_fetch (env : Env) (q : Request) : appendsAtMost 1 (fetch env q).
Proof. intros t. exists [q]. split; [reflexivity | simpl; lia]. Qed.

Lemma appends_bind {A B : Type} (n k : nat) (m : Async A) (f : A -> Async B) :
  appendsAtMost n m -> (forall a, appendsAtMost k (f a)) ->
  appendsAtMost (n + k) (bind m f).
Proof.
  intros Hm Hf t. destruct (Hm t) as [e1 [H1 L1]]. unfold bind.
  destruct (m t) as [[a | e] t1]; simpl in H1; subst t1.
  - destruct (Hf a (t ++ e1)) as [e2 [H2 L2]].
    exists (e1 ++ e2). rewrite H2, app_assoc, length_app. split; [reflexivity | lia].
  - exists e1. split; [reflexivity | lia].
Qed.

Lemma appends_try {A : Type} (n k : nat) (body : Async A) (h : Thrown -> Async A) :
  appendsAtMost n body -> (forall e, appendsAtMost k (h e)) ->
  appendsAtMost (n + k) (try_catch body h).
Proof.
  intros Hm Hf t. destruct (Hm t) as [e1 [H1 L1]]. unfold try_catch.
  destruct (body t) as [[a | e] t1]; simpl in H1; subst t1.
  - exists e1. split; [reflexivity | lia].
  - destruct (Hf e (t ++ e1)) as [e2 [H2 L2]].
    exists (e1 ++ e2). rewrite H2, app_assoc, length_app. split; [reflexivity | lia].
Qed.

(** The shape shared by the eight bearer-token fetchers. *)
Lemma appends_bearer {A : Type} (env : Env) (c : bool) (x : A) (q : Request)
      (k : Response -> Async A) (h : Thrown -> Async A) :
  (forall response, appendsAtMost 0 (k response)) ->
  (forall e, appendsAtMost 0 (h e)) ->
  appendsAtMost 1 (if c then ret x else try_catch (bind (fetch env q) k) h).
Proof.
  intros Hk Hh. destruct c.
  - apply (appends_weaken 0 1); [lia | apply appends_ret].
  - apply (appends_try 1 0); [|exact Hh].
    apply (appends_bind 1 0); [apply appends_fetch | exact Hk].
Qed.

Ltac bearer_bound env :=
  apply appends_bearer;
  [ intros response; destruct (negb (resp_ok response));
    [ apply appends_ret
    | apply (appends_bind 0 0); [apply appends_json | intros; apply appends_ret] ]
  | intros e; apply appends_ret ].

Lemma bearer_fetchers_one_request (env : Env) :
  appendsAtMost 1 (fetchClaudeQuota env)
  /\ appendsAtMost 1 (fetchCodexQuota env)
  /\ appendsAtMost 1 (fetchCopilotQuota env)
  /\ appendsAtMost 1 (fetchCopilotAddonQuota env)
  /\ appendsAtMost 1 (fetchKimiQuota env)
  /\ appendsAtMost 1 (fetchNanoGptQuota env)
  /\ appendsAtMost 1 (fetchOpenRouterQuota env)
  /\ appendsAtMost 1 (fetchZaiQuota env).
Proof.
  repeat split;
    unfold fetchClaudeQuota, fetchCodexQuota, fetchCopilotQuota,
      fetchCopilotAddonQuota, fetchKimiQuota, fetchNanoGptQuota,
      fetchOpenRouterQuota, fetchZaiQuota;
    cbv zeta; bearer_bound env.
Qed.

Lemma fetchGoogleQuotaBuckets_one_request (env : Env) (tok pid : string) :
  appendsAtMost 1 (fetchGoogleQuotaBuckets env tok pid).
Proof.
  unfold fetchGoogleQuotaBuckets. apply (appends_try 1 0).
  - apply (appends_bind 1 0); [apply appends_fetch|].
    intros response. destruct (negb (resp_ok response));
      [apply appends_ret | apply appends_json].
  - intros e. apply appends_ret.
Qed.

Lemma tryGoogleEndpoint_one_request (env : Env) (endpoint tok pid : string) :
  appendsAtMost 1 (tryGoogleEndpoint env endpoint tok pid).
Proof.
  unfold tryGoogleEndpoint. apply (appends_try 1 0).
  - apply (appends_bind 1 0); [apply appends_fetch|].
    intros response. destruct (resp_ok response); [|apply appends_ret].
    apply (appends_bind 0 0); [apply appends_json | intros; apply appends_ret].
  - intros e. apply appends_ret.
Qed.

Lemma fetchGoogleModelsFrom_requests (env : Env) (tok pid : string) :
  forall endpoints : list string,
    appendsAtMost (length endpoints) (fetchGoogleModelsFrom env endpoints tok pid).
Proof.
  induction endpoints as [| endpoint rest IH]; cbn [fetchGoogleModelsFrom length].
  - apply appends_ret.
  - apply (appends_bind 1 (length rest)); [apply tryGoogleEndpoint_one_request|].
    intros [body|]; [|exact IH].
    apply (appends_weaken 0); [lia | apply appends_ret].
Qed.

Lemma refreshGoogleAccessToken_one_request (env : Env) (rt cid cs : string) :
  appendsAtMost 1 (refreshGoogleAccessToken env rt cid cs).
Proof.
  unfold refreshGoogleAccessToken.
  apply (appends_bind 1 0); [apply appends_fetch|].
  intros response. destruct (negb (resp_ok response)); [apply appends_ret|].
  apply (appends_bind 0 0); [apply appends_json | intros; apply appends_ret].
Qed.

Lemma queryGoogleSource_requests (env : Env) (source : AuthSource) (tok : string)
      (st : GoogleState) :
  appendsAtMost 4 (queryGoogleSource env source tok st).
Proof.
  destruct st as [models errs]. unfold queryGoogleSource. cbv zeta.
  apply (appends_bind 1 3).
  - destruct (String.eqb (sourceId source) "gemini").
    + apply (appends_bind 1 0);
        [apply fetchGoogleQuotaBuckets_one_request | intros; apply appends_ret].
    + apply (appends_weaken 0); [lia | apply appends_ret].
  - intros afterBuckets. apply (appends_bind 3 0).
    + apply (fetchGoogleModelsFrom_requests env tok _ Const.GOOGLE_ENDPOINTS).
    + intros; apply appends_ret.
Qed.

Lemma googleSourceStep_requests (env : Env) (source : AuthSource) (st : GoogleState) :
  appendsAtMost 5 (googleSourceStep env source st).
Proof.
  unfold googleSourceStep. destruct st as [models errs].
  destruct (negb (opt_str_truthy (accessToken source)) || expired env source).
  - destruct (negb (opt_str_truthy (refreshToken source))).
    + apply (appends_weaken 0); [lia | apply appends_ret].
    + destruct (resolveGoogleOAuthClient (sourceId source)) as [cid cs].
      apply (appends_bind 1 4); [apply refreshGoogleAccessToken_one_request|].
      intros [token|].
      * destruct (str_nonempty token); [apply queryGoogleSource_requests|].
        apply (appends_weaken 0); [lia | apply appends_ret].
      * apply (appends_weaken 0); [lia | apply appends_ret].
  - apply (appends_weaken 4); [lia | apply queryGoogleSource_requests].
Qed.

Lemma googleSourcesLoop_requests (env : Env) :
  forall (sources : list AuthSource) (st : GoogleState),
    appendsAtMost (5 * length sources) (googleSourcesLoop env sources st).
Proof.
  induction sources as [| source rest IH]; intros st; cbn [googleSourcesLoop length].
  - apply appends_ret.
  - apply (appends_weaken (5 + 5 * length rest)); [lia|].
    apply appends_bind; [apply googleSourceStep_requests | intros; apply IH].
Qed.

Lemma resolveGoogleAuthSources_at_most_two (env : Env) :
  (length (resolveGoogleAuthSources env) <= 2)%nat.
Proof.
  unfold resolveGoogleAuthSources. rewrite length_app.
  destruct (resolveGeminiCliAuth env (authFile env));
    destruct (resolveAntigravityAuth env); simpl; lia.
Qed.

Lemma fetchGoogleQuota_requests (env : Env) :
  appendsAtMost 10 (fetchGoogleQuota env).
Proof.
  unfold fetchGoogleQuota.
  pose proof (resolveGoogleAuthSources_at_most_two env) as Hlen.
  destruct (resolveGoogleAuthSources env) as [| source rest] eqn:Hsrc.
  - apply (appends_weaken 0); [lia | apply appends_ret].
  - apply (appends_weaken (5 * length (source :: rest) + 0)); [lia|].
    apply appends_bind; [apply googleSourcesLoop_requests|].
    intros [models errs]. destruct models; apply appends_ret.
Qed.

(** X4: one call of the facade only appends to the trace of requests,
    however it ends: at most one request for every provider other than
    ['google'], and at most ten for ['google'] (a token refresh, a quota
    query and three model endpoints for each of at most two sources). *)
Theorem fetchQuotaForProvider_request_bound :
  forall (env : Env) (id : string),
    appendsAtMost (if String.eqb id "google" then 10 else 1)
                  (fetchQuotaForProvider env id).
Proof.
  intros env id.
  destruct (bearer_fetchers_one_request env)
    as (Claude & Codex & Copilot & Addon & Kimi & Nano & Router & Zai).
  unfold fetchQuotaForProvider.
  destruct (String.eqb_spec id "claude") as [-> | _]; [exact Claude|].
  destruct (String.eqb_spec id "codex") as [-> | _]; [exact Codex|].
  destruct (String.eqb_spec id "github-copilot") as [-> | _]; [exact Copilot|].
  destruct (String.eqb_spec id "github-copilot-addon") as [-> | _]; [exact Addon|].
  destruct (String.eqb_spec id "google") as [-> | _];
    [apply fetchGoogleQuota_requests|].
  destruct (String.eqb_spec id "kimi-for-coding") as [-> | _]; [exact Kimi|].
  destruct (String.eqb_spec id "nano-gpt") as [-> | _]; [exact Nano|].
  destruct (String.eqb_spec id "openrouter") as [-> | _]; [exact Router|].
  destruct (String.eqb_spec id "zai-coding-plan") as [-> | _]; [exact Zai|].
  apply (appends_weaken 0); [lia | apply appends_ret].
Qed.

(** ** The credential resolver *)

(** X5: [getAuthEntry] answers with the entry of the first alias, in the
    order given, whose entry is truthy; it answers [null] exactly when no
    alias has a truthy entry.  Entries that are present but falsy (an
    empty string, [0], [false], [null]) are passed over. *)
Theorem getAuthEntry_first_truthy :
  forall (auth : JsValue) (aliases : list string),
    (getAuthEntry auth aliases = JNull
     /\ forall a, In a aliases -> truthy (get auth a) = false)
    \/ (exists before a after,
          aliases = (before ++ a :: after)%list
          /\ (forall b, In b before -> truthy (get auth b) = false)
          /\ truthy (get auth a) = true
          /\ getAuthEntry auth aliases = get auth a).
Proof.
  intros auth. induction aliases as [| alias rest IH].
  - left. split; [reflexivity | intros a []].
  - cbn [getAuthEntry]. destruct (truthy (get auth alias)) eqn:E.
    + right. exists [], alias, rest. repeat split; auto. intros b [].
    + destruct IH as [[Hnull Hall] | [before [a [after [Heq [Hb [Ha Hg]]]]]]].
      * left. split; [exact Hnull|]. intros a [<- | Hin]; auto.
      * right. exists (alias :: before), a, after. subst rest.
        repeat split; auto. intros b [<- | Hin]; auto.
Qed.

Lemma getAuthEntry_null_or_truthy (auth : JsValue) (aliases : list string) :
  getAuthEntry auth aliases = JNull \/ truthy (getAuthEntry auth aliases) = true.
Proof.
  induction aliases as [| alias rest IH]; cbn [getAuthEntry]; [now left|].
  destruct (truthy (get auth alias)) eqn:E; [now right | exact IH].
Qed.

Ltac bare_secret_case env s :=
  cbv [fetchQuotaForProvider credentialAliases authScheme
       String.eqb Ascii.eqb Bool.eqb];
  intros Hget;
  unfold fetchClaudeQuota, fetchCodexQuota, fetchCopilotQuota,
    fetchCopilotAddonQuota, fetchKimiQuota, fetchNanoGptQuota,
    fetchOpenRouterQuota, fetchZaiQuota, copilotRequest, bearerJsonRequest,
    lookupAuth;
  rewrite Hget;
  cbn [normalizeAuthEntry truthy str_nonempty negb typeof get assoc
       js_coalesce nullish String.eqb Ascii.eqb Bool.eqb];
  cbv zeta; unfold try_catch, bind, fetch, json, ret; cbv beta iota;
  repeat step_async env;
  eexists; eexists; (split; [reflexivity|]); split; reflexivity.



(** ** The enumerator *)

Lemma NoDup_set_add (s : list string) (id : string) :
  NoDup s -> NoDup (set_add s id).
Proof.
  intros Hs. unfold set_add, push.
  destruct (existsb (String.eqb id) s) eqn:E; [exact Hs|].
  assert (Hnot : ~ In id s).
  { intros Hin.
    assert (Ht : existsb (String.eqb id) s = true).
    { apply existsb_exists. exists id. split; [exact Hin | apply String.eqb_refl]. }
    congruence. }
  clear E. induction Hs as [| x l Hx Hl IH]; simpl.
  - constructor; [intros [] | constructor].
  - constructor.
    + rewrite in_app_iff. simpl. intros [H | [H | []]]; [contradiction|].
      apply Hnot. left. now symmetry.
    + apply IH. intros H. apply Hnot. right. exact H.
Qed.

Lemma NoDup_addWhen (b : bool) (ids s : list string) :
  NoDup s -> NoDup (addWhen b ids s).
Proof.
  unfold addWhen. destruct b; [|auto].
  revert s. induction ids as [| id ids IH]; intros s Hs; simpl; [exact Hs|].
  apply IH. now apply NoDup_set_add.
Qed.

(** X7: the list of configured providers has no repetition and holds
    only identifiers that the facade routes, so none of them can be
    answered ['Unsupported provider']; ['github-copilot'] and
    ['github-copilot-addon'] are listed together or not at all. *)
Theorem listConfiguredQuotaProviders_well_formed :
  forall env : Env,
    NoDup (listConfiguredQuotaProviders env)
    /\ (forall id, In id (listConfiguredQuotaProviders env) ->
                   In id knownProviders)
    /\ (In "github-copilot"%string (listConfiguredQuotaProviders env)
        <-> In "github-copilot-addon"%string (listConfiguredQuotaProviders env)).
Proof.
  intros env. split; [|split].
  - unfold listConfiguredQuotaProviders. cbv zeta.
    repeat apply NoDup_addWhen. constructor.
  - intros id. unfold listConfiguredQuotaProviders. cbv zeta.
    repeat rewrite In_addWhen. unfold knownProviders. simpl In.
    intuition (subst; auto 20).
  - unfold listConfiguredQuotaProviders. cbv zeta.
    repeat rewrite In_addWhen. simpl In.
    intuition discriminate.
Qed.

Lemma listConfigured_google (env : Env) :
  In "google"%string (listConfiguredQuotaProviders env)
  <-> resolveGoogleAuthSources env <> [].
Proof.
  unfold listConfiguredQuotaProviders, resolveGoogleAuthSources. cbv zeta.
  repeat rewrite In_addWhen. simpl In.
  destruct (resolveGeminiCliAuth env (authFile env));
    destruct (resolveAntigravityAuth env); simpl;
    intuition (discriminate || congruence).
Qed.

(** X8: for ['google'] the enumerator and the fetcher agree on every
    store and every set of account files: ['google'] is listed exactly
    when a result of [fetchGoogleQuota] is [configured:true]. *)
Theorem google_listing_agrees :
  forall (env : Env) (t t' : Trace) (r : ProviderResult),
    fetchGoogleQuota env t = (Normal r, t') ->
    (In "google"%string (listConfiguredQuotaProviders env)
     <-> configured r = true).
Proof.
  intros env t t' r H. rewrite listConfigured_google.
  unfold fetchGoogleQuota in H.
  destruct (resolveGoogleAuthSources env) as [| source rest].
  - unfold ret in H. injection H as <- _. cbn [configured buildResult].
    split; [intros Hne; now elim Hne | discriminate].
  - apply bind_inv in H. destruct H as [[models errs] [t1 [_ H]]].
    destruct models; unfold ret in H; injection H as <- _;
      cbn [configured buildResult]; split; intros _;
      (reflexivity || discriminate).
Qed.

Lemma google_listing_agrees_witness :
  exists r t',
    fetchGoogleQuota (Sample.env Sample.geminiLive [] Sample.modelsUpTokenDown) []
    = (Normal r, t')
    /\ (In "google"%string
           (listConfiguredQuotaProviders
              (Sample.env Sample.geminiLive [] Sample.modelsUpTokenDown))
        <-> configured r = true).
Proof.
  destruct (fetchGoogleQuota
              (Sample.env Sample.geminiLive [] Sample.modelsUpTokenDown) [])
    as [[r | e] t'] eqn:H; [|discriminate H].
  exists r, t'. split; [reflexivity|].
  exact (google_listing_agrees _ _ _ _ H).
Defined.

(** ** Percentages of the entitlement-style providers *)

Lemma clamp_finite (x : Q) :
  exists p, clampPercent (Finite x) = Finite p /\ 0 <= p /\ p <= 100.
Proof.
  unfold clampPercent. rewrite Num_min_hundred_finite.
  destruct (Qle_bool 100 x) eqn:E100.
  - exists 100. split; [reflexivity | split; discriminate].
  - apply Qle_bool_false_lt in E100. rewrite Num_max_zero_finite.
    destruct (Qle_bool x 0) eqn:E0.
    + exists 0. split; [reflexivity | split; discriminate].
    + apply Qle_bool_false_lt in E0. exists x.
      split; [reflexivity | split; lra].
Qed.

Lemma toUsageWindow_in_range (env : Env) (p : Q) (w r : option number)
      (l : option string) :
  0 <= p -> p <= 100 ->
  percentInRange (toUsageWindow env (Some (Finite p)) w r l).
Proof.
  intros H0 H100. unfold percentInRange.
  change (usedPercent (toUsageWindow env (Some (Finite p)) w r l))
    with (Some (Finite p)).
  change (remainingPercent (toUsageWindow env (Some (Finite p)) w r l))
    with (Some (Num.max (num 0) (Finite (100 - p)))).
  rewrite Num_max_zero_finite.
  destruct (Qle_bool (100 - p) 0) eqn:E.
  - apply Qle_bool_true_le in E. exists p, 0.
    repeat split; auto; lra.
  - exists p, (100 - p). repeat split; auto; reflexivity.
Qed.

Lemma toUsageWindow_no_percent (env : Env) (w r : option number)
      (l : option string) :
  percentInRange (toUsageWindow env None w r l).
Proof. reflexivity. Qed.

Lemma clamped_window_in_range (env : Env) (x : Q) (w r : option number)
      (l : option string) :
  percentInRange (toUsageWindow env (Some (clampPercent (Finite x))) w r l).
Proof.
  destruct (clamp_finite x) as [p [-> [H0 H100]]].
  now apply toUsageWindow_in_range.
Qed.

(** The clamped quotient of lines 814, 988 and 1007 on coerced numbers. *)
Lemma usedOfRemaining_in_range (env : Env) (a b : JsValue) (w r : option number)
      (l : option string) :
  percentInRange
    (toUsageWindow env (usedOfRemaining (toNumber env a) (toNumber env b)) w r l).
Proof.
  unfold usedOfRemaining.
  destruct (toNumber env a) as [x|] eqn:Ha; [|apply toUsageWindow_no_percent].
  destruct (toNumber env b) as [y|] eqn:Hb; [|apply toUsageWindow_no_percent].
  destruct (Num.truthy x) eqn:Hx; [|apply toUsageWindow_no_percent].
  destruct (toNumber_finite _ _ _ Ha) as [qx ->].
  destruct (toNumber_finite _ _ _ Hb) as [qy ->].
  simpl in Hx. apply negb_true_iff in Hx.
  assert (Hdiv : (num 100 - (Finite qy / Finite qx) * num 100)%num
                 = Finite (100 - (qy / qx) * 100)).
  { unfold Num.div. rewrite Hx. reflexivity. }
  rewrite Hdiv. apply (clamped_window_in_range env).
Qed.


Lemma In_obj_set {V : Type} (o : list (string * V)) (k k' : string) (v v' : V) :
  In (k, v) (obj_set o k' v') -> (k = k' /\ v = v') \/ In (k, v) o.
Proof.
  induction o as [| [k0 v0] o IH]; simpl.
  - intros [[= <- <-] | []]. now left.
  - destruct (String.eqb_spec k' k0) as [-> | Hne]; simpl.
    + intros [[= <- <-] | H]; [now left | right; now right].
    + intros [H | H]; [right; now left|].
      destruct (IH H) as [Heq | Hin]; [now left | right; now right].
Qed.

Lemma assoc_In {V : Type} (o : list (string * V)) (k : string) (v : V) :
  assoc k o = Some v -> In (k, v) o.
Proof.
  induction o as [| [k0 v0] o IH]; simpl; [discriminate|].
  destruct (String.eqb_spec k k0) as [-> | Hne].
  - intros [= <-]. now left.
  - intros H. right. now apply IH.
Qed.

Lemma allInRange_nil : allInRange [].
Proof. intros label win []. Qed.

Lemma allInRange_obj_set (w : Windows) (k : string) (win : UsageWindow) :
  allInRange w -> percentInRange win -> allInRange (obj_set w k win).
Proof.
  intros Hw Hwin label win' Hin.
  destruct (In_obj_set _ _ _ _ _ Hin) as [[_ ->] | Hold]; [exact Hwin|].
  exact (Hw _ _ Hold).
Qed.

Lemma addWindow_in_range (env : Env) (resetAt : option number) (label : string)
      (snapshot : JsValue) (w : Windows) :
  allInRange w -> allInRange (addWindow env resetAt label snapshot w).
Proof.
  intros Hw. unfold addWindow. destruct (negb (truthy snapshot)); [exact Hw|].
  apply allInRange_obj_set; [exact Hw | apply usedOfRemaining_in_range].
Qed.

Lemma buildCopilotWindows_in_range (env : Env) (payload : JsValue) :
  allInRange (buildCopilotWindows env payload).
Proof.
  unfold buildCopilotWindows. cbv zeta.
  repeat apply addWindow_in_range. apply allInRange_nil.
Qed.

Lemma kimi_windows_in_range (env : Env) (usage : JsValue) (limits : list JsValue) :
  allInRange (fold_left (addKimiLimit env) limits (addKimiUsage env usage [])).
Proof.
  assert (Hstart : allInRange (addKimiUsage env usage [])).
  { unfold addKimiUsage. destruct (truthy usage); [|apply allInRange_nil].
    apply allInRange_obj_set; [apply allInRange_nil|].
    apply usedOfRemaining_in_range. }
  revert Hstart. generalize (addKimiUsage env usage []).
  induction limits as [| limit rest IH]; intros w Hw; simpl; [exact Hw|].
  apply IH. unfold addKimiLimit. cbv zeta.
  apply allInRange_obj_set; [exact Hw | apply usedOfRemaining_in_range].
Qed.

Lemma openRouterWindows_in_range (env : Env) (payload : JsValue) :
  allInRange (openRouterWindows env payload).
Proof.
  unfold openRouterWindows. cbv zeta.
  intros label win [[= _ <-] | []].
  destruct (toNumber env (get (js_coalesce (get payload "data") (JObj [])) "total_credits"))
    as [c|] eqn:Hc; [|apply toUsageWindow_no_percent].
  destruct (toNumber env (get (js_coalesce (get payload "data") (JObj [])) "total_usage"))
    as [u|] eqn:Hu; [|apply toUsageWindow_no_percent].
  destruct (Num.truthy c) eqn:Ht; [|apply toUsageWindow_no_percent].
  destruct (toNumber_finite _ _ _ Hc) as [qc ->].
  destruct (toNumber_finite _ _ _ Hu) as [qu ->].
  simpl in Ht. apply negb_true_iff in Ht.
  assert (Hdiv : ((Finite qu / Finite qc) * num 100)%num = Finite ((qu / qc) * 100)).
  { unfold Num.div. rewrite Ht. reflexivity. }
  rewrite Hdiv. apply (clamped_window_in_range env).
Qed.

Ltac in_range_case env :=
  cbv zeta; unfold try_catch, bind, fetch, json, ret; cbv beta;
  repeat step_async env;
  intros [= <- _]; cbn [usage buildResult onlyWindows];
  intros [= <-]; cbn [windows].

(** X9: in every result of the Copilot, Copilot add-on, Kimi and
    OpenRouter fetchers, each window either has no used percentage and no
    remaining percentage, or has a used percentage within [0, 100] and a
    remaining percentage that is its complement to 100. *)
Theorem entitlement_windows_in_range :
  forall (env : Env) (id : string) (t t' : Trace) (r : ProviderResult) (u : Usage),
    In id [ "github-copilot"; "github-copilot-addon"; "kimi-for-coding";
            "openrouter" ]%string ->
    fetchQuotaForProvider env id t = (Normal r, t') ->
    usage r = Some u ->
    allInRange (windows u).
Proof.
  intros env id t t' r u Hin. simpl in Hin.
  repeat (destruct Hin as [<- | Hin]); try contradiction.
  - change (fetchQuotaForProvider env "github-copilot")
      with (fetchCopilotQuota env).
    unfold fetchCopilotQuota. in_range_case env.
    apply buildCopilotWindows_in_range.
  - change (fetchQuotaForProvider env "github-copilot-addon")
      with (fetchCopilotAddonQuota env).
    unfold fetchCopilotAddonQuota. in_range_case env.
    match goal with
    | |- context [assoc "premium"%string ?w] =>
        destruct (assoc "premium"%string w) as [p|] eqn:Hp
    end.
    + intros label win [[= _ <-] | []].
      exact (buildCopilotWindows_in_range env _ _ _ (assoc_In _ _ _ Hp)).
    + apply buildCopilotWindows_in_range.
  - change (fetchQuotaForProvider env "kimi-for-coding")
      with (fetchKimiQuota env).
    unfold fetchKimiQuota. in_range_case env.
    apply kimi_windows_in_range.
  - change (fetchQuotaForProvider env "openrouter")
      with (fetchOpenRouterQuota env).
    unfold fetchOpenRouterQuota. in_range_case env.
    apply openRouterWindows_in_range.
Qed.

Lemma entitlement_windows_in_range_witness :
  exists r t' u,
    fetchQuotaForProvider Fixture.copilotEnv "github-copilot" [] = (Normal r, t')
    /\ usage r = Some u
    /\ map fst (windows u) = ["chat"; "premium"]%string
    /\ allInRange (windows u).
Proof.
  destruct (fetchQuotaForProvider Fixture.copilotEnv "github-copilot" [])
    as [[r | e] t'] eqn:H; [|discriminate H].
  destruct (usage r) as [u|] eqn:Hu.
  - exists r, t', u. split; [reflexivity|]. split; [exact Hu|]. split.
    + vm_compute in H. injection H as <- _. vm_compute in Hu.
      injection Hu as <-. reflexivity.
    + apply (entitlement_windows_in_range Fixture.copilotEnv "github-copilot"
               [] t' r u); [simpl; tauto | exact H | exact Hu].
  - exfalso. vm_compute in H. injection H as <- _. discriminate Hu.
Defined.

(** ** The Copilot add-on against the base product *)

(** X10: the add-on fetcher is the base Copilot fetcher seen through the
    premium window: on the same store and network both make the same
    requests and agree on [ok], [configured] and [error]; the add-on keeps
    the ['premium'] window alone when the base result has one, and all the
    base windows otherwise. *)
Theorem copilot_addon_mirrors_base :
  forall (env : Env) (t : Trace),
    exists r r' t',
      fetchCopilotQuota env t = (Normal r, t')
      /\ fetchCopilotAddonQuota env t = (Normal r', t')
      /\ providerId r = "github-copilot"%string
      /\ providerId r' = "github-copilot-addon"%string
      /\ ok r' = ok r /\ configured r' = configured r /\ error r' = error r
      /\ match usage r with
         | None => usage r' = None
         | Some u =>
             usage r'
             = Some {| windows :=
                         match windowAt "premium" (windows u) with
                         | Some p => [("premium"%string, p)]
                         | None => windows u
                         end;
                       models := None |}
         end.
Proof.
  intros env t. unfold fetchCopilotQuota, fetchCopilotAddonQuota.
  cbv zeta. unfold try_catch, bind, fetch, json, ret. cbv beta.
  repeat step_async env;
    eexists; eexists; eexists;
    (split; [reflexivity|]); (split; [reflexivity|]);
    repeat split.
Qed.

(** ** The refresh-token format *)

Lemma trim_start_plain (s : string) :
  forallChars (fun c => negb (Str.is_space c)) s = true -> Str.trim_start s = s.
Proof.
  destruct s as [| c rest]; simpl; [reflexivity|].
  intros H. apply andb_true_iff in H. destruct H as [Hc _].
  apply negb_true_iff in Hc. now rewrite Hc.
Qed.

Lemma trim_end_plain (s : string) :
  forallChars (fun c => negb (Str.is_space c)) s = true -> Str.trim_end s = s.
Proof.
  induction s as [| c rest IH]; simpl; [reflexivity|].
  intros H. apply andb_true_iff in H. destruct H as [Hc Hrest].
  apply negb_true_iff in Hc. rewrite (IH Hrest), Hc.
  now destruct rest.
Qed.

Lemma trim_plain (s : string) :
  forallChars (fun c => negb (Str.is_space c)) s = true -> Str.trim s = s.
Proof.
  intros H. unfold Str.trim. rewrite (trim_start_plain s H).
  now apply trim_end_plain.
Qed.

Lemma forallChars_app (test : ascii -> bool) (a b : string) :
  forallChars test (a ++ b) = forallChars test a && forallChars test b.
Proof.
  induction a as [| c a IH]; simpl; [reflexivity|].
  now rewrite IH, andb_assoc.
Qed.

Lemma forallChars_weaken (p q : ascii -> bool) (s : string) :
  (forall c, p c = true -> q c = true) ->
  forallChars p s = true -> forallChars q s = true.
Proof.
  intros Hpq. induction s as [| c s IH]; simpl; [reflexivity|].
  intros H. apply andb_true_iff in H. destruct H as [Hc Hs].
  now rewrite (Hpq c Hc), (IH Hs).
Qed.

Lemma plain_no_space (s : string) :
  forallChars plainChar s = true ->
  forallChars (fun c => negb (Str.is_space c)) s = true.
Proof.
  apply forallChars_weaken. intros c H. unfold plainChar in H.
  apply andb_true_iff in H. tauto.
Qed.

Lemma plain_no_bar (s : string) :
  forallChars plainChar s = true ->
  forallChars (fun c => negb (Ascii.eqb c "|"%char)) s = true.
Proof.
  apply forallChars_weaken. intros c H. unfold plainChar in H.
  apply andb_true_iff in H. tauto.
Qed.

Lemma split_segment (a rest : string) :
  forallChars (fun c => negb (Ascii.eqb c "|"%char)) a = true ->
  Str.split "|"%char (a ++ String "|"%char rest) = a :: Str.split "|"%char rest.
Proof.
  induction a as [| c a IH]; intros H.
  - reflexivity.
  - simpl in H. apply andb_true_iff in H. destruct H as [Hc Ha].
    apply negb_true_iff in Hc.
    change ((String c a ++ String "|"%char rest)%string)
      with (String c (a ++ String "|"%char rest)).
    cbn [Str.split]. rewrite Hc, (IH Ha). reflexivity.
Qed.

Lemma split_last (a : string) :
  forallChars (fun c => negb (Ascii.eqb c "|"%char)) a = true ->
  Str.split "|"%char a = [a].
Proof.
  induction a as [| c a IH]; intros H; [reflexivity|].
  simpl in H. apply andb_true_iff in H. destruct H as [Hc Ha].
  apply negb_true_iff in Hc. cbn [Str.split]. rewrite Hc, (IH Ha). reflexivity.
Qed.

Lemma asNonEmptyString_plain (s : string) :
  forallChars plainChar s = true -> asNonEmptyString (JStr s) = segment s.
Proof.
  intros H. unfold asNonEmptyString, segment.
  now rewrite (trim_plain s (plain_no_space s H)).
Qed.

Lemma parse_by_split (raw : string) :
  forallChars (fun c => negb (Str.is_space c)) raw = true ->
  str_nonempty raw = true ->
  parseGoogleRefreshToken (JStr raw)
  = mkRefreshParts
      (asNonEmptyString (JStr (nth 0 (Str.split "|"%char raw) EmptyString)))
      (asNonEmptyString (JStr (nth 1 (Str.split "|"%char raw) EmptyString)))
      (asNonEmptyString (JStr (nth 2 (Str.split "|"%char raw) EmptyString))).
Proof.
  intros Hsp Hne. unfold parseGoogleRefreshToken.
  cbn [asNonEmptyString]. rewrite (trim_plain raw Hsp), Hne. reflexivity.
Qed.

Lemma no_space_bar (a b : string) :
  forallChars (fun c => negb (Str.is_space c)) a = true ->
  forallChars (fun c => negb (Str.is_space c)) b = true ->
  forallChars (fun c => negb (Str.is_space c)) (a ++ String "|"%char b) = true.
Proof.
  intros Ha Hb. rewrite forallChars_app, Ha. cbn [forallChars andb].
  rewrite Hb. reflexivity.
Qed.

Lemma str_nonempty_app_l (a b : string) :
  str_nonempty a = true -> str_nonempty (a ++ b) = true.
Proof. destruct a; [discriminate | reflexivity]. Qed.



(** ** The merged Google models *)

Lemma prefix_app (p s : string) : String.prefix p (p ++ s) = true.
Proof.
  induction p as [| c p IH]; simpl; [now destruct s|].
  destruct (ascii_dec c c) as [_ | Hne]; [exact IH | now elim Hne].
Qed.

Lemma scopedName_prefixed (sid name : string) :
  Str.startsWith (scopedName sid name) (sid ++ "/") = true.
Proof.
  unfold scopedName. destruct (Str.startsWith name (sid ++ "/")) eqn:E;
    [exact E|].
  unfold Str.startsWith.
  replace (sid ++ "/" ++ name)%string with ((sid ++ "/") ++ name)%string.
  - apply prefix_app.
  - clear E. induction sid as [| c sid IH]; simpl; [reflexivity | now rewrite IH].
Qed.

Lemma modelEntry_ok (env : Env) (sid name : string) (used resetAt : option number) :
  (sid = "gemini" \/ sid = "antigravity")%string ->
  googleEntryOk (scopedName sid name, modelEntry env sid used resetAt).
Proof.
  intros Hsid. unfold googleEntryOk, modelEntry. cbv zeta.
  exists sid. eexists. eexists.
  split; [exact Hsid|]. split; [apply scopedName_prefixed|].
  split; [reflexivity|]. cbn [windowSeconds toUsageWindow].
  destruct Hsid as [-> | ->].
  - left. split; reflexivity.
  - unfold resolveGoogleWindow. cbn [String.eqb Ascii.eqb Bool.eqb].
    cbv iota.
    destruct resetAt as [r|]; [|right; repeat split].
    match goal with
    | |- context [if ?b then _ else _] => destruct b
    end; [left | right]; repeat split.
Qed.

Lemma Forall_googleEntryOk_obj_set (o : ModelMap) (k : string) (v : ModelUsage) :
  Forall googleEntryOk o -> googleEntryOk (k, v) ->
  Forall googleEntryOk (obj_set o k v).
Proof.
  intros Ho Hkv. apply Forall_forall. intros [k0 v0] Hin.
  destruct (In_obj_set _ _ _ _ _ Hin) as [[-> ->] | Hold]; [exact Hkv|].
  exact (proj1 (Forall_forall _ _) Ho _ Hold).
Qed.

Lemma mergeBucket_entries (env : Env) (sid : string) (acc : ModelMap * bool)
      (bucket : JsValue) :
  (sid = "gemini" \/ sid = "antigravity")%string ->
  Forall googleEntryOk (fst acc) ->
  Forall googleEntryOk (fst (mergeBucket env sid acc bucket)).
Proof.
  intros Hsid Hacc. unfold mergeBucket.
  destruct (asNonEmptyString (get bucket "modelId")); [|exact Hacc].
  cbn [fst]. apply Forall_googleEntryOk_obj_set; [exact Hacc|].
  now apply modelEntry_ok.
Qed.

Lemma mergeModel_entries (env : Env) (sid : string) (acc : ModelMap * bool)
      (entry : string * JsValue) :
  (sid = "gemini" \/ sid = "antigravity")%string ->
  Forall googleEntryOk (fst acc) ->
  Forall googleEntryOk (fst (mergeModel env sid acc entry)).
Proof.
  intros Hsid Hacc. unfold mergeModel. destruct entry as [name data].
  cbn [fst]. apply Forall_googleEntryOk_obj_set; [exact Hacc|].
  now apply modelEntry_ok.
Qed.

Lemma fold_left_entries {A : Type} (f : ModelMap * bool -> A -> ModelMap * bool) :
  (forall acc x, Forall googleEntryOk (fst acc) ->
                 Forall googleEntryOk (fst (f acc x))) ->
  forall (l : list A) (acc : ModelMap * bool),
    Forall googleEntryOk (fst acc) ->
    Forall googleEntryOk (fst (fold_left f l acc)).
Proof.
  intros Hf. induction l as [| x l IH]; intros acc Hacc; simpl; [exact Hacc|].
  apply IH. now apply Hf.
Qed.

Lemma queryGoogleSource_entries (env : Env) (source : AuthSource) (tok : string)
      (st st' : GoogleState) (t t' : Trace) :
  knownSource source ->
  queryGoogleSource env source tok st t = (Normal st', t') ->
  Forall googleEntryOk (fst st) ->
  Forall googleEntryOk (fst st').
Proof.
  intros Hsid. destruct st as [models errs]. unfold queryGoogleSource. cbv zeta.
  intros H Hmodels. cbn [fst] in Hmodels.
  apply bind_inv in H. destruct H as [ab [t1 [Hab H]]].
  assert (Hab' : Forall googleEntryOk (fst ab)).
  { destruct (String.eqb (sourceId source) "gemini").
    - apply bind_inv in Hab. destruct Hab as [payload [t0 [_ Hab]]].
      unfold ret in Hab. injection Hab as <- _.
      apply fold_left_entries; [|exact Hmodels].
      intros acc x. now apply mergeBucket_entries.
    - unfold ret in Hab. now injection Hab as <- _. }
  apply bind_inv in H. destruct H as [payload [t2 [_ H]]].
  unfold ret in H. injection H as <- _. cbn [fst].
  destruct (truthy payload); [|exact Hab'].
  apply fold_left_entries; [|exact Hab'].
  intros acc x. now apply mergeModel_entries.
Qed.

Lemma googleSourceStep_entries (env : Env) (source : AuthSource)
      (st st' : GoogleState) (t t' : Trace) :
  knownSource source ->
  googleSourceStep env source st t = (Normal st', t') ->
  Forall googleEntryOk (fst st) ->
  Forall googleEntryOk (fst st').
Proof.
  intros Hsid. unfold googleSourceStep. destruct st as [models errs].
  intros H Hmodels.
  destruct (negb (opt_str_truthy (accessToken source)) || expired env source).
  - destruct (negb (opt_str_truthy (refreshToken source))).
    + unfold ret in H. now injection H as <- _.
    + destruct (resolveGoogleOAuthClient (sourceId source)) as [cid cs].
      apply bind_inv in H. destruct H as [o [t1 [_ H]]].
      destruct o as [token|].
      * destruct (str_nonempty token).
        -- exact (queryGoogleSource_entries _ _ _ _ _ _ _ Hsid H Hmodels).
        -- unfold ret in H. now injection H as <- _.
      * unfold ret in H. now injection H as <- _.
  - exact (queryGoogleSource_entries _ _ _ _ _ _ _ Hsid H Hmodels).
Qed.

Lemma googleSourcesLoop_entries (env : Env) :
  forall (sources : list AuthSource) (st st' : GoogleState) (t t' : Trace),
    Forall knownSource sources ->
    googleSourcesLoop env sources st t = (Normal st', t') ->
    Forall googleEntryOk (fst st) ->
    Forall googleEntryOk (fst st').
Proof.
  induction sources as [| source rest IH]; intros st st' t t' Hsrc H Hst.
  - unfold googleSourcesLoop, ret in H. now injection H as <- _.
  - cbn [googleSourcesLoop] in H.
    apply bind_inv in H. destruct H as [st1 [t1 [H1 H2]]].
    inversion Hsrc as [| s l Hs Hl]; subst.
    apply (IH _ _ _ _ Hl H2).
    exact (googleSourceStep_entries _ _ _ _ _ _ Hs H1 Hst).
Qed.

Lemma resolveAntigravityAuthFrom_known (files : list JsValue)
      (source : AuthSource) :
  resolveAntigravityAuthFrom files = Some source ->
  sourceId source = "antigravity"%string
  /\ sourceLabel source = "Antigravity"%string
  /\ accessToken source = None /\ expires source = None.
Proof.
  induction files as [| data rest IH]; cbn [resolveAntigravityAuthFrom];
    [discriminate|].
  destruct (get data "accounts") as [| | | | | items |]; try exact IH.
  destruct items as [| first others]; [exact IH|].
  cbv zeta.
  match goal with
  | |- context [if ?b then _ else _] => destruct b
  end; [|exact IH].
  intros [= <-]. repeat split.
Qed.

Lemma asNonEmptyString_nonempty (v : JsValue) (s : string) :
  asNonEmptyString v = Some s -> str_nonempty s = true.
Proof.
  unfold asNonEmptyString. destruct v; try discriminate.
  destruct (str_nonempty (Str.trim s0)) eqn:E; [|discriminate].
  now intros [= <-].
Qed.

Lemma resolveGeminiCliAuth_known (env : Env) (auth : JsValue) (source : AuthSource) :
  resolveGeminiCliAuth env auth = Some source ->
  sourceId source = "gemini"%string
  /\ sourceLabel source = "Gemini"%string
  /\ opt_str_truthy (accessToken source) || opt_str_truthy (refreshToken source)
     = true.
Proof.
  unfold resolveGeminiCliAuth. cbv zeta.
  match goal with
  | |- context [if ?b then _ else _] => destruct b
  end; [discriminate|].
  match goal with
  | |- context [match opt_or ?a ?b with _ => _ end] =>
      destruct (opt_or a b) as [tok|] eqn:Htok
  end.
  - intros [= <-]. cbn [sourceId sourceLabel accessToken refreshToken].
    repeat split.
    assert (Hne : str_nonempty tok = true).
    { unfold opt_or in Htok.
      match type of Htok with
      | match ?a with _ => _ end = _ => destruct a as [x|] eqn:Hx
      end.
      - injection Htok as <-. exact (asNonEmptyString_nonempty _ _ Hx).
      - exact (asNonEmptyString_nonempty _ _ Htok). }
    cbn [opt_str_truthy]. now rewrite Hne.
  - match goal with
    | |- context [rp_refreshToken ?p] =>
        destruct (rp_refreshToken p) as [rt|] eqn:Hrt
    end; [|discriminate].
    intros [= <-]. cbn [sourceId sourceLabel accessToken refreshToken].
    repeat split. cbn [opt_str_truthy orb].
    unfold parseGoogleRefreshToken in Hrt.
    match type of Hrt with
    | context [match asNonEmptyString ?v with _ => _ end] =>
        destruct (asNonEmptyString v)
    end; cbn [rp_refreshToken] in Hrt; [|discriminate].
    exact (asNonEmptyString_nonempty _ _ Hrt).
Qed.

(** X12: the auth sources of one call are at most two, the Gemini source
    before the Antigravity one.  A Gemini source always holds a non-empty
    access token or a non-empty refresh token; an Antigravity source never
    holds an access token or an expiry. *)
Theorem resolveGoogleAuthSources_shape :
  forall env : Env,
    exists gemini antigravity,
      resolveGoogleAuthSources env
      = (opt_to_list gemini ++ opt_to_list antigravity)%list
      /\ (forall s, gemini = Some s ->
            sourceId s = "gemini"%string /\ sourceLabel s = "Gemini"%string
            /\ opt_str_truthy (accessToken s) || opt_str_truthy (refreshToken s)
               = true)
      /\ (forall s, antigravity = Some s ->
            sourceId s = "antigravity"%string
            /\ sourceLabel s = "Antigravity"%string
            /\ accessToken s = None /\ expires s = None).
Proof.
  intros env.
  exists (resolveGeminiCliAuth env (authFile env)), (resolveAntigravityAuth env).
  split; [reflexivity|]. split.
  - intros s. apply resolveGeminiCliAuth_known.
  - intros s. apply resolveAntigravityAuthFrom_known.
Qed.

Lemma resolveGoogleAuthSources_known (env : Env) :
  Forall knownSource (resolveGoogleAuthSources env).
Proof.
  unfold resolveGoogleAuthSources. apply Forall_app. split.
  - destruct (resolveGeminiCliAuth env (authFile env)) as [s|] eqn:E;
      [|constructor].
    constructor; [|constructor]. left.
    exact (proj1 (resolveGeminiCliAuth_known _ _ _ E)).
  - destruct (resolveAntigravityAuth env) as [s|] eqn:E; [|constructor].
    constructor; [|constructor]. right.
    exact (proj1 (resolveAntigravityAuthFrom_known _ _ E)).
Qed.

(** X13: a Google result that carries a [usage] has no provider-level
    window and a [models] map that is not empty; each key of the map is
    scoped by ['gemini/'] or ['antigravity/'], and each model holds
    exactly one window: ['daily'] over 86400 seconds, or for an
    Antigravity model ['5h'] over 18000 seconds. *)
Theorem fetchGoogleQuota_models_shape :
  forall (env : Env) (t t' : Trace) (r : ProviderResult) (u : Usage),
    fetchGoogleQuota env t = (Normal r, t') ->
    usage r = Some u ->
    ok r = true
    /\ windows u = []
    /\ exists ms,
         models u = Some ms /\ ms <> [] /\ Forall googleEntryOk ms.
Proof.
  intros env t t' r u H Hu. unfold fetchGoogleQuota in H.
  pose proof (resolveGoogleAuthSources_known env) as Hsrc.
  destruct (resolveGoogleAuthSources env) as [| source rest].
  - unfold ret in H. injection H as <- _. discriminate Hu.
  - apply bind_inv in H. destruct H as [[models errs] [t1 [Hloop H]]].
    pose proof (googleSourcesLoop_entries env _ _ _ _ _ Hsrc Hloop
                  (Forall_nil _)) as Hms.
    cbn [fst] in Hms.
    destruct models as [| m ms]; unfold ret in H; injection H as <- _;
      cbn [usage buildResult] in Hu; [discriminate Hu|].
    injection Hu as <-. split; [reflexivity|]. split; [reflexivity|].
    exists (m :: ms). split; [reflexivity|]. split; [discriminate | exact Hms].
Qed.

Lemma fetchGoogleQuota_models_shape_witness :
  exists r t' u,
    fetchGoogleQuota (Sample.env Sample.geminiLive [] Sample.modelsUpTokenDown) []
    = (Normal r, t')
    /\ usage r = Some u
    /\ exists ms, models u = Some ms /\ ms <> [] /\ Forall googleEntryOk ms.
Proof.
  destruct (fetchGoogleQuota
              (Sample.env Sample.geminiLive [] Sample.modelsUpTokenDown) [])
    as [[r | e] t'] eqn:H; [|discriminate H].
  destruct (usage r) as [u|] eqn:Hu.
  - exists r, t', u. split; [reflexivity|]. split; [exact Hu|].
    exact (proj2 (proj2 (fetchGoogleQuota_models_shape _ _ _ _ _ H Hu))).
  - exfalso. vm_compute in H. injection H as <- _. discriminate Hu.
Defined.

(** ** Durations of the Kimi limits *)

Lemma append_suffix_not_limit (s : string) (c : ascii) :
  c <> "t"%char -> (s ++ String c EmptyString)%string <> "limit"%string.
Proof.
  intros Hc H.
  destruct s as [| a1 [| a2 [| a3 [| a4 [| a5 s]]]]]; simpl in H;
    try discriminate H.
  - injection H as _ _ _ _ H. now elim Hc.
  - injection H as _ _ _ _ _ H. destruct s; discriminate H.
Qed.

(** X14: [durationToSeconds] and [durationToLabel] go together: a
    duration has a length in seconds exactly when its label is not the
    fallback ['limit'], and then the label is the duration followed by
    [m], [h] or [d] while the length is the duration times 60, 3600 or
    86400. *)
Theorem duration_label_and_seconds :
  forall (env : Env) (duration unit : JsValue),
    (durationToSeconds env duration unit = None
     <-> durationToLabel env duration unit = "limit"%string)
    /\ (forall seconds,
          durationToSeconds env duration unit = Some seconds ->
          exists (suffix : string) (factor : Z),
            In (suffix, factor) [("m", 60); ("h", 3600); ("d", 86400)]%string%Z
            /\ durationToLabel env duration unit
               = (ToString env duration ++ suffix)%string
            /\ seconds = (ToNumber env duration * num factor)%num).
Proof.
  intros env duration unit. unfold durationToSeconds, durationToLabel.
  destruct (negb (truthy duration) || negb (truthy unit)).
  { split; [tauto | discriminate]. }
  destruct (js_str_eq unit "TIME_UNIT_MINUTE").
  { split.
    - split; [discriminate|]. intros H.
      now apply append_suffix_not_limit in H.
    - intros seconds [= <-]. exists "m"%string, 60%Z. simpl. tauto. }
  destruct (js_str_eq unit "TIME_UNIT_HOUR").
  { split.
    - split; [discriminate|]. intros H.
      now apply append_suffix_not_limit in H.
    - intros seconds [= <-]. exists "h"%string, 3600%Z. simpl. tauto. }
  destruct (js_str_eq unit "TIME_UNIT_DAY").
  { split.
    - split; [discriminate|]. intros H.
      now apply append_suffix_not_limit in H.
    - intros seconds [= <-]. exists "d"%string, 86400%Z. simpl. tauto. }
  split; [tauto | discriminate].
Qed.

(** ** Labels of the z.ai window *)

Lemma rem_int_is_zero (z : Z) (p : positive) :
  (0 <= z)%Z ->
  (Num.rem (Finite (z # 1)) (num (Zpos p)) =? num 0)%num
  = (z mod Zpos p =? 0)%Z.
Proof.
  intros Hz. unfold Num.rem, num, Num.of_Z.
  assert (Hnz : Num.is_zero (inject_Z (Z.pos p)) = false) by reflexivity.
  rewrite Hnz.
  assert (Hneg : Num.is_neg (z # 1) = false).
  { unfold Num.is_neg. replace (Qle_bool 0 (z # 1)) with true; [reflexivity|].
    symmetry. apply Qle_bool_iff. unfold Qle. simpl. lia. }
  rewrite Hneg. unfold Num.eqb, Qeq_bool.
  unfold Qabs, Qdiv, Qinv, Qmult, Qminus, Qplus, Qopp, Qfloor, inject_Z.
  cbn [Qnum Qden Z.abs].
  rewrite (Z.abs_eq z Hz). cbn [Qnum Qden].
  rewrite !Z.mul_1_r, Pos.mul_1_l. cbn [Z.mul Z.add].
  rewrite Z.mod_eq by lia.
  f_equal. lia.
Qed.

Lemma ratio_is_seven (z : Z) (p : positive) :
  (Finite ((z # 1) / inject_Z (Zpos p)) =? num 7)%num = (z =? 7 * Zpos p)%Z.
Proof.
  unfold Num.eqb, num, Num.of_Z, Qeq_bool, Qdiv, Qinv, Qmult, inject_Z.
  cbn [Qnum Qden]. rewrite !Z.mul_1_r, Pos.mul_1_l. reflexivity.
Qed.

Lemma ToString_ratio (env : Env) (k : Z) (p : positive) :
  (0 <= k < 10 ^ 21)%Z ->
  ToString env (JNum (Finite ((k * Zpos p # 1) / inject_Z (Zpos p)))) = Str.of_Z k.
Proof.
  intros [Hk0 Hk]. unfold ToString.
  assert (Hfloor : Qfloor ((k * Zpos p # 1) / inject_Z (Zpos p)) = k).
  { unfold Qfloor, Qdiv, Qinv, Qmult, inject_Z. cbn [Qnum Qden].
    rewrite Z.mul_1_r, Pos.mul_1_l. apply Z.div_mul. lia. }
  rewrite Hfloor.
  assert (Heq : Qeq_bool (inject_Z k) ((k * Zpos p # 1) / inject_Z (Zpos p)) = true).
  { apply Qeq_bool_iff. unfold Qeq, Qdiv, Qinv, Qmult, inject_Z.
    cbn [Qnum Qden]. rewrite Pos.mul_1_l. lia. }
  rewrite Heq.
  assert (Hbig : Qle_bool (inject_Z (10 ^ 21))
                   (Qabs ((k * Zpos p # 1) / inject_Z (Zpos p))) = false).
  { apply Qlt_Qle_bool_false.
    unfold Qlt, Qabs, Qdiv, Qinv, Qmult, inject_Z. cbn [Qnum Qden].
    rewrite Pos.mul_1_l, !Z.mul_1_r.
    rewrite Z.abs_eq by (apply Z.mul_nonneg_nonneg; lia).
    apply Z.mul_lt_mono_pos_r; lia. }
  rewrite Hbig. reflexivity.
Qed.

Lemma truthy_int (z : Z) : z <> 0%Z -> Num.truthy (Finite (z # 1)) = true.
Proof.
  intros Hz. unfold Num.truthy, Num.is_zero. apply negb_true_iff.
  destruct (Qeq_bool (z # 1) 0) eqn:E; [|reflexivity].
  apply Qeq_bool_iff in E. unfold Qeq in E. cbn [Qnum Qden] in E. lia.
Qed.



(** ** Refresh before use *)

Lemma refreshGoogleAccessToken_trace (env : Env) (rt cid cs : string) (t : Trace) :
  snd (refreshGoogleAccessToken env rt cid cs t) = (t ++ [refreshRequest rt cid cs])%list.
Proof.
  unfold refreshGoogleAccessToken, bind, fetch, json, ret.
  destruct (network env t (refreshRequest rt cid cs)) as [response | e];
    [|reflexivity].
  destruct (negb (resp_ok response)); [reflexivity|].
  now destruct (resp_json response).
Qed.

(** X16: a source without a usable access token (none stored, or expired;
    every Antigravity source is one) never reaches a quota or model
    endpoint first: its turn of the loop makes no request at all when it
    has no refresh token, and otherwise starts with the token refresh,
    sent with the refresh token of the source and the OAuth client of its
    kind. *)
Theorem refresh_comes_first :
  forall (env : Env) (source : AuthSource) (st : GoogleState) (t : Trace),
    needsRefresh env source = true ->
    exists ext,
      snd (googleSourceStep env source st t) = (t ++ ext)%list
      /\ ((opt_str_truthy (refreshToken source) = false /\ ext = [])
          \/ exists rt rest,
               refreshToken source = Some rt
               /\ ext = refreshRequest rt
                          (fst (resolveGoogleOAuthClient (sourceId source)))
                          (snd (resolveGoogleOAuthClient (sourceId source)))
                        :: rest).
Proof.
  intros env source st t Hneed. unfold needsRefresh in Hneed.
  unfold googleSourceStep. destruct st as [models errs]. rewrite Hneed.
  destruct (refreshToken source) as [rt|] eqn:Hrt; cbn [opt_str_truthy].
  - destruct (str_nonempty rt) eqn:Hne; cbn [negb].
    + destruct (resolveGoogleOAuthClient (sourceId source)) as [cid cs].
      cbn [fst snd].
      pose proof (refreshGoogleAccessToken_trace env rt cid cs t) as Htrace.
      unfold bind.
      destruct (refreshGoogleAccessToken env rt cid cs t) as [[o | e] t1];
        cbn [snd] in Htrace; subst t1.
      * assert (Hrest : exists ext2,
                   snd (match o with
                        | Some token =>
                            if str_nonempty token
                            then queryGoogleSource env source token (models, errs)
                            else ret (models,
                                      push errs
                                        (sourceLabel source
                                         ++ ": Failed to refresh OAuth token")%string)
                        | None =>
                            ret (models,
                                 push errs
                                   (sourceLabel source
                                    ++ ": Failed to refresh OAuth token")%string)
                        end (t ++ [refreshRequest rt cid cs])%list)
                   = ((t ++ [refreshRequest rt cid cs]) ++ ext2)%list).
        { destruct o as [token|]; [destruct (str_nonempty token)|].
          - destruct (queryGoogleSource_requests env source token (models, errs)
                        (t ++ [refreshRequest rt cid cs])%list) as [ext2 [H _]].
            now exists ext2.
          - exists []. cbn [ret snd]. now rewrite app_nil_r.
          - exists []. cbn [ret snd]. now rewrite app_nil_r. }
        destruct Hrest as [ext2 Hrest].
        exists (refreshRequest rt cid cs :: ext2). split.
        -- rewrite Hrest, <- app_assoc. reflexivity.
        -- right. exists rt, ext2. split; reflexivity.
      * exists [refreshRequest rt cid cs]. split; [reflexivity|].
        right. exists rt, []. split; reflexivity.
    + exists []. split; [cbn [ret snd]; now rewrite app_nil_r|].
      left. split; reflexivity.
  - exists []. split; [cbn [negb ret snd]; now rewrite app_nil_r|].
    left. split; reflexivity.
Qed.

Lemma refresh_comes_first_witness :
  let env := Sample.env Sample.noStore [] Sample.offline in
  needsRefresh env antigravitySample = true
  /\ snd (googleSourceStep env antigravitySample ([], []) [])
     = [refreshRequest "ag" Const.ANTIGRAVITY_GOOGLE_CLIENT_ID
                       Const.ANTIGRAVITY_GOOGLE_CLIENT_SECRET].
Proof.
  cbv zeta. split; [reflexivity|].
  destruct (refresh_comes_first
              (Sample.env Sample.noStore [] Sample.offline)
              antigravitySample ([], []) [] eq_refl) as [ext [Hext _]].
  rewrite Hext. vm_compute in Hext. rewrite <- Hext. reflexivity.
Defined.

(** ** The error of a Google fetch without models *)

Lemma mergeBucket_flag (env : Env) (sid : string) (acc : ModelMap * bool)
      (bucket : JsValue) :
  (snd acc = true -> snd (mergeBucket env sid acc bucket) = true)
  /\ (snd (mergeBucket env sid acc bucket) = false ->
      mergeBucket env sid acc bucket = acc).
Proof.
  unfold mergeBucket. destruct (asNonEmptyString (get bucket "modelId")).
  - split; [reflexivity | discriminate].
  - split; auto.
Qed.

Lemma fold_mergeBucket_unflagged (env : Env) (sid : string) :
  forall (buckets : list JsValue) (acc : ModelMap * bool),
    (snd acc = true -> snd (fold_left (mergeBucket env sid) buckets acc) = true)
    /\ (snd (fold_left (mergeBucket env sid) buckets acc) = false ->
        fold_left (mergeBucket env sid) buckets acc = acc).
Proof.
  induction buckets as [| bucket rest IH]; intros acc; simpl; [auto|].
  destruct (mergeBucket_flag env sid acc bucket) as [Hkeep Hsame].
  destruct (IH (mergeBucket env sid acc bucket)) as [IHkeep IHsame].
  split.
  - intros Hacc. apply IHkeep. now apply Hkeep.
  - intros Hfalse. rewrite (IHsame Hfalse). apply Hsame.
    destruct (snd (mergeBucket env sid acc bucket)) eqn:E; [|reflexivity].
    rewrite (IHkeep eq_refl) in Hfalse. discriminate.
Qed.

Lemma fold_mergeModel_unflagged (env : Env) (sid : string) :
  forall (entries : list (string * JsValue)) (acc : ModelMap * bool),
    (snd acc = true -> snd (fold_left (mergeModel env sid) entries acc) = true)
    /\ (snd (fold_left (mergeModel env sid) entries acc) = false ->
        fold_left (mergeModel env sid) entries acc = acc).
Proof.
  induction entries as [| entry rest IH]; intros acc; simpl; [auto|].
  destruct (IH (mergeModel env sid acc entry)) as [IHkeep IHsame].
  assert (Hflag : snd (mergeModel env sid acc entry) = true).
  { unfold mergeModel. now destruct entry. }
  split.
  - intros _. now apply IHkeep.
  - intros Hfalse. rewrite (IHkeep Hflag) in Hfalse. discriminate.
Qed.

(** A query either merges a model, or leaves the map as it was and
    records that it fetched none. *)
Lemma queryGoogleSource_outcome (env : Env) (source : AuthSource) (tok : string)
      (models : ModelMap) (errs : list string) (st' : GoogleState) (t t' : Trace) :
  queryGoogleSource env source tok (models, errs) t = (Normal st', t') ->
  (fst st' <> [] /\ snd st' = errs)
  \/ st' = (models,
            push errs (sourceLabel source ++ ": Failed to fetch models")%string).
Proof.
  unfold queryGoogleSource. cbv zeta. intros H.
  apply bind_inv in H. destruct H as [ab [t1 [Hab H]]].
  assert (Hab' : merged_ok (models, false) ab
                 /\ (snd ab = false -> ab = (models, false))).
  { destruct (String.eqb (sourceId source) "gemini").
    - apply bind_inv in Hab. destruct Hab as [payload [t0 [_ Hab]]].
      unfold ret in Hab. injection Hab as <- _. split.
      + apply fold_left_merged_ok. intros; apply mergeBucket_ok.
      + apply (fold_mergeBucket_unflagged env (sourceId source)).
    - unfold ret in Hab. injection Hab as <- _.
      split; [apply merged_ok_refl | reflexivity]. }
  destruct Hab' as [Hok Hsame].
  apply bind_inv in H. destruct H as [payload [t2 [_ H]]].
  unfold ret in H. injection H as <- _. cbn [fst snd].
  set (am := if truthy payload
             then fold_left (mergeModel env (sourceId source))
                            (Object_entries
                               (js_coalesce (get payload "models") (JObj [])))
                            ab
             else ab).
  assert (Ham : merged_ok ab am /\ (snd am = false -> am = ab)).
  { unfold am. destruct (truthy payload).
    - split; [apply fold_left_merged_ok; intros; apply mergeModel_ok|].
      apply (fold_mergeModel_unflagged env (sourceId source)).
    - split; [apply merged_ok_refl | reflexivity]. }
  destruct Ham as [Hok2 Hsame2].
  destruct (snd am) eqn:Eflag.
  - left. split; [|reflexivity].
    destruct (proj2 (merged_ok_trans _ _ _ Hok Hok2) Eflag) as [Hf | Hne];
      [discriminate Hf | exact Hne].
  - right. rewrite (Hsame2 eq_refl) in *. rewrite (Hsame Eflag). reflexivity.
Qed.

Lemma googleSourceStep_outcome (env : Env) (source : AuthSource)
      (models : ModelMap) (errs : list string) (st' : GoogleState) (t t' : Trace) :
  googleSourceStep env source (models, errs) t = (Normal st', t') ->
  (fst st' <> [] /\ snd st' = errs)
  \/ exists message,
       failureOf source message /\ st' = (models, push errs message).
Proof.
  unfold googleSourceStep. intros H.
  assert (Hfail : forall failure,
             In failure sourceFailures ->
             exists message,
               failureOf source message
               /\ (models, push errs (sourceLabel source ++ failure)%string)
                  = (models, push errs message)).
  { intros failure Hin. exists (sourceLabel source ++ failure)%string.
    split; [|reflexivity]. now exists failure. }
  assert (Hquery : forall tok t0,
             queryGoogleSource env source tok (models, errs) t0 = (Normal st', t') ->
             (fst st' <> [] /\ snd st' = errs)
             \/ exists message,
                  failureOf source message /\ st' = (models, push errs message)).
  { intros tok t0 Hq.
    destruct (queryGoogleSource_outcome _ _ _ _ _ _ _ _ Hq) as [Hm | ->];
      [now left | right].
    apply Hfail. simpl. tauto. }
  destruct (negb (opt_str_truthy (accessToken source)) || expired env source).
  - destruct (negb (opt_str_truthy (refreshToken source))).
    + unfold ret in H. injection H as <- _. right. apply Hfail. simpl. tauto.
    + destruct (resolveGoogleOAuthClient (sourceId source)) as [cid cs].
      apply bind_inv in H. destruct H as [o [t1 [_ H]]].
      destruct o as [token|].
      * destruct (str_nonempty token); [exact (Hquery _ _ H)|].
        unfold ret in H. injection H as <- _. right. apply Hfail. simpl. tauto.
      * unfold ret in H. injection H as <- _. right. apply Hfail. simpl. tauto.
  - exact (Hquery _ _ H).
Qed.

Lemma push_head {A : Type} (l : list A) (x d : A) :
  l <> [] -> hd d (push l x) = hd d l.
Proof. destruct l; [intros H; now elim H | reflexivity]. Qed.

(** A loop that ends without any model recorded one failure for each
    source, the first one first. *)
Lemma googleSourcesLoop_without_models (env : Env) :
  forall (sources : list AuthSource) (models : ModelMap) (errs : list string)
         (errs' : list string) (t t' : Trace),
    googleSourcesLoop env sources (models, errs) t = (Normal ([], errs'), t') ->
    models = []
    /\ exists recorded,
         errs' = (errs ++ recorded)%list
         /\ Forall2 failureOf sources recorded.
Proof.
  induction sources as [| source rest IH]; intros models errs errs' t t' H.
  - unfold googleSourcesLoop, ret in H. injection H as -> <- _.
    split; [reflexivity|]. exists []. split; [now rewrite app_nil_r | constructor].
  - cbn [googleSourcesLoop] in H.
    apply bind_inv in H. destruct H as [[m1 e1] [t1 [H1 H2]]].
    destruct (IH _ _ _ _ _ H2) as [Hm1 [recorded [Herrs Hrec]]]. subst m1.
    destruct (googleSourceStep_outcome _ _ _ _ _ _ _ H1)
      as [[Hne _] | [message [Hmsg Hst]]]; [now elim Hne|].
    injection Hst as <- ->. split; [reflexivity|].
    exists (message :: recorded). split.
    + rewrite Herrs. unfold push. now rewrite <- app_assoc.
    + now constructor.
Qed.

(** X17: when a Google fetch with at least one auth source obtains no
    model, the [error] of its result is the failure recorded for the first
    source in order, made of that source's label and one of the three
    messages ['Missing refresh token'], ['Failed to refresh OAuth token']
    and ['Failed to fetch models']; the unlabelled fallback of line 605 is
    never what the caller sees. *)
Theorem fetchGoogleQuota_error_is_first_failure :
  forall (env : Env) (t t' : Trace) (r : ProviderResult),
    fetchGoogleQuota env t = (Normal r, t') ->
    ok r = false ->
    configured r = true ->
    exists source rest message,
      resolveGoogleAuthSources env = source :: rest
      /\ failureOf source message
      /\ error r = Some message
      /\ usage r = None.
Proof.
  intros env t t' r H Hok Hconf. unfold fetchGoogleQuota in H.
  destruct (resolveGoogleAuthSources env) as [| source rest].
  - unfold ret in H. injection H as <- _. discriminate Hconf.
  - apply bind_inv in H. destruct H as [[models errs] [t1 [Hloop H]]].
    destruct models as [| m ms]; unfold ret in H; injection H as <- _;
      [|discriminate Hok].
    destruct (googleSourcesLoop_without_models env _ _ _ _ _ _ Hloop)
      as [_ [recorded [-> Hrec]]].
    inversion Hrec as [| s message l l' Hmsg Hrest]; subst.
    exists source, rest, message. split; [reflexivity|]. split; [exact Hmsg|].
    split; [|reflexivity].
    cbn [error buildResult app].
    destruct Hmsg as [failure [Hin ->]].
    assert (Hne : str_nonempty (sourceLabel source ++ failure) = true).
    { apply str_nonempty_append_r.
      simpl in Hin. destruct Hin as [<- | [<- | [<- | []]]]; reflexivity. }
    now rewrite Hne.
Qed.

Lemma fetchGoogleQuota_error_is_first_failure_witness :
  exists r t',
    fetchGoogleQuota
      (Sample.env Sample.geminiLive [Sample.antigravityAccounts]
                  (Fixture.answers JNull)) []
    = (Normal r, t')
    /\ error r = Some "Gemini: Failed to fetch models"%string.
Proof.
  destruct (fetchGoogleQuota
              (Sample.env Sample.geminiLive [Sample.antigravityAccounts]
                          (Fixture.answers JNull)) [])
    as [[r | e] t'] eqn:H; [|discriminate H].
  exists r, t'. split; [reflexivity|].
  assert (Hok : ok r = false).
  { vm_compute in H. injection H as <- _. reflexivity. }
  assert (Hconf : configured r = true).
  { vm_compute in H. injection H as <- _. reflexivity. }
  destruct (fetchGoogleQuota_error_is_first_failure _ _ _ _ H Hok Hconf)
    as [source [rest [message [_ [_ [Herr _]]]]]].
  vm_compute in H. injection H as <- _. reflexivity.
Defined.
